(** * The thin-mode protocol engine of python-oracledb, embedded in Rocq

    Sources followed here:
    - [src/oracledb/impl/thin/protocol.pyx]: [BaseProtocol], [Protocol]
      (the blocking engine) and, appended to the same file, [types.pyx]
      with [DbType] and its registrations;
    - [src/oracledb/impl/thin/utils.pyx]: [ConnectConstants] and
      [_get_connect_data].

    The engine is stateful: it is modelled with explicit state passing over
    a [World] that holds the protocol object, the one [Transport] object the
    protocol and its two buffers refer to, the messages and connection
    cookies reachable from the engine, what has been written to the wire so
    far, and what the peer is going to deliver.

    What the model fixes about the files that are not among the sources:
    - writing to the socket does not fail; what is written is logged in
      [wire], tagged with the buffer it went through;
    - the peer is a finite script of packets and socket exceptions, after
      which every read times out;
    - a codec's [process] decodes the current packet of the read buffer
      and may raise anything; it does not pull further packets;
    - an object shared by reference (the transport, a message, a cookie)
      is one entry of the [World], and the references to it are names.

    The cooperative engine ([BaseAsyncProtocol]) repeats the statements of
    the blocking one for the handling of server errors (lines 783-797) and
    for the cookie in phase two (lines 650-674); the blocking engine is the
    one embedded. *)

From Stdlib Require Import ZArith String Ascii Lia Bool.
From stdpp Require Import base option list gmap strings.

Local Open Scope Z_scope.

(** ** Exceptions *)

(** The driver errors raised through [errors._raise_err]. *)
Inductive ErrNum :=
| ERR_CALL_TIMEOUT_EXCEEDED
| ERR_CONNECTION_CLOSED
| ERR_INVALID_REDIRECT_DATA
| ERR_SERVER_VERSION_NOT_SUPPORTED
| ERR_HTTPS_PROXY_REQUIRES_TCPS
| ERR_ACCESS_TOKEN_REQUIRES_TCPS
| ERR_PROXY_FAILURE
| ERR_ORACLE_TYPE_NOT_SUPPORTED
| ERR_ORACLE_TYPE_NAME_NOT_SUPPORTED.

(** The exception classes of the DB API ([get_exception_class] picks one). *)
Inductive ExcClass :=
| DatabaseError | OperationalError | InterfaceError
| IntegrityError | DataError | NotSupportedError.

(** [errors._Error(message, code=..., offset=...)]. *)
Record _Error := {
  err_message : option string;
  err_code : Z;
  err_offset : Z
}.

Inductive Exn :=
| SocketTimeout                              (* socket.timeout *)
| DriverError (e : ErrNum)                   (* errors._raise_err(e) *)
| OracleError (cls : ExcClass) (e : _Error)  (* raise exc_type(error) *)
| IndexError
| KeyError
| OtherException (tag : nat).                (* anything else a codec raises *)

Inductive Res (A : Type) :=
| Ok (a : A)
| Raise (e : Exn).
Arguments Ok {A} a.
Arguments Raise {A} e.

Definition is_socket_timeout (e : Exn) : bool :=
  match e with SocketTimeout => true | _ => false end.

(** ** Packets, buffers, transport *)

Record Packet := {
  packet_type : Z;
  packet_flags : Z;
  payload : list Z
}.

(** Modelled from the spec: the TNS packet type and marker type numbers
    ([impl/thin/constants.pxi] is not among the sources); section 4.D lists
    CONNECT(1), ACCEPT(2), REFUSE(4), REDIRECT(5), DATA(6), RESEND(11),
    MARKER(12) and the marker types INTERRUPT=1, RESET=2, BREAK=3. *)
Definition TNS_PACKET_TYPE_CONNECT : Z := 1.
Definition TNS_PACKET_TYPE_ACCEPT : Z := 2.
Definition TNS_PACKET_TYPE_REFUSE : Z := 4.
Definition TNS_PACKET_TYPE_REDIRECT : Z := 5.
Definition TNS_PACKET_TYPE_DATA : Z := 6.
Definition TNS_PACKET_TYPE_RESEND : Z := 11.
Definition TNS_PACKET_TYPE_MARKER : Z := 12.
Definition TNS_MARKER_TYPE_INTERRUPT : Z := 1.
Definition TNS_MARKER_TYPE_RESET : Z := 2.
Definition TNS_MARKER_TYPE_BREAK : Z := 3.
Definition TNS_MSG_TYPE_END_OF_REQUEST : Z := 19.

(** The constants of [constants.pxi] whose values the engine uses but that
    neither the sources nor the specification give. *)
Record Constants := {
  TNS_MSG_TYPE_FLUSH_OUT_BINDS : Z;
  TNS_PACKET_FLAG_REDIRECT : Z;
  TNS_PACKET_FLAG_TLS_RENEG : Z;
  TNS_TXN_IN_PROGRESS : Z;
  TNS_VERSION_MIN_ACCEPTED : Z;
  TNS_VERSION_MIN_OOB_CHECK : Z
}.

(** There is one [Transport] object per protocol ([Transport.__new__] in
    [BaseProtocol.__init__]); the protocol and both buffers hold a
    reference to it, or [None]. *)
Inductive TransportRef := TheTransport.

Record Transport := {
  sock_open : bool;          (* Transport._transport is not None *)
  _max_packet_size : Z
}.

Record Capabilities := {
  protocol_version : Z;
  sdu : Z;
  charset_id : Z;
  ncharset_id : Z;
  supports_oob : bool;
  supports_end_of_request : bool
}.

Record ReadBuffer := {
  rb_transport : option TransportRef;     (* ReadBuffer._transport *)
  _current_packet : Packet
}.

(** The connection's own write buffer and the one [_break_external]
    creates for a single marker. *)
Inductive BufName := RegularBuffer | FreshBuffer.

Record WriteBuffer := {
  wb_name : BufName;
  wb_transport : option TransportRef;     (* WriteBuffer._transport *)
  _packet_sent : bool;
  wb_packet_type : Z;
  wb_packet_flags : Z;
  wb_data : list Z
}.

(** What reaches the socket, in order. *)
Inductive WireEvent :=
| WPacket (via : BufName) (ptype flags : Z) (data : list Z)
| WOobBreak                                  (* transport.send_oob_break() *)
| WDisconnect                                (* transport.disconnect() *)
| WConnect (host : string) (port : Z)        (* socket.create_connection *)
| WProxyConnect (host : string) (port : Z)   (* CONNECT host:port *)
| WNegotiateTls
| WRenegotiateTls.

(** What the peer delivers to one [wait_for_packets_sync]. *)
Inductive RecvEvent :=
| RecvPacket (p : Packet)
| RecvRaise (e : Exn).

(** ** Messages and cookies *)

Record ConnectionCookie := {
  ck_protocol_version : Z;
  ck_server_banner : string;
  ck_charset_id : Z;
  ck_ncharset_id : Z;
  ck_flags : Z;
  ck_compile_caps : list Z;
  ck_runtime_caps : list Z;
  populated : bool
}.

Record ErrorInfo := {
  num : Z;
  pos : Z;
  message : option string
}.

Inductive MsgId :=
| ConnectMsg | ProtocolMsg | DataTypesMsg | AuthMsg | CookieMsg
| OtherMsg (n : nat).

#[global] Instance MsgId_eq_dec : EqDecision MsgId.
Proof. solve_decision. Defined.

(** The fields every message has, followed by the fields of the connect,
    protocol, authentication and cookie messages the engine reads or
    writes. Objects are referred to by name ([MsgId], cookie address). *)
Record Message := {
  error_info : ErrorInfo;
  error_occurred : bool;
  retry : bool;
  resend : bool;
  flush_out_binds : bool;
  call_status : Z;
  (* ConnectMessage *)
  host : string;
  port : Z;
  connect_string_bytes : string;
  connect_string_len : Z;
  msg_packet_flags : Z;
  redirect_data : option string;
  cookie : option nat;
  (* ProtocolMessage *)
  server_version : Z;
  server_banner : string;
  server_flags : Z;
  server_compile_caps : list Z;
  server_runtime_caps : list Z;
  (* AuthMessage *)
  warning : option _Error;
  (* ConnectionCookieMessage *)
  protocol_message : option MsgId;
  data_types_message : option MsgId;
  auth_message : option MsgId
}.

Record Heap := {
  msgs : MsgId -> Message;
  cookies : nat -> ConnectionCookie;
  conn_impl_warning : option _Error       (* conn_impl.warning *)
}.

Record Protocol := {
  _transport : option TransportRef;
  _caps : Capabilities;
  _read_buf : ReadBuffer;
  _write_buf : WriteBuffer;
  _in_connect : bool;
  _txn_in_progress : bool;
  _break_in_progress : bool
}.

Record World := {
  proto : Protocol;
  transport_obj : Transport;
  wire : list WireEvent;
  incoming : list RecvEvent;
  heap : Heap
}.

(** The parts of the driver that live in files outside the sources: the
    message codecs ([messages.pyx]), the error classification
    ([errors.py]), the connect string parser
    ([ConnectParamsImpl._parse_connect_string] followed by
    [_get_addresses()[0]]: the host and port of the first address), and
    the network as [socket.create_connection] and the proxy see it.
    A codec's [send] gets the message and the write buffer, its [process]
    the message and the read buffer; both reach the other objects the
    message refers to through the heap. *)
Record Env := {
  consts : Constants;
  codec_send :
    MsgId -> Heap -> WriteBuffer ->
    Heap * WriteBuffer * list WireEvent * option Exn;
  codec_process : MsgId -> Heap -> ReadBuffer -> Heap * option Exn;
  auth_set_params : Message -> Message;
  is_session_dead : _Error -> bool;
  get_exception_class : Z -> ExcClass;
  parse_connect_string : string -> Res (string * Z);
  create_connection : string -> Z -> option Exn;
  proxy_replies_200 : string -> Z -> bool;
  platform_is_win32 : bool
}.

(** ** Field updates *)

Definition set_break_in_progress (b : bool) (p : Protocol) : Protocol :=
  {| _transport := _transport p; _caps := _caps p; _read_buf := _read_buf p;
     _write_buf := _write_buf p; _in_connect := _in_connect p;
     _txn_in_progress := _txn_in_progress p; _break_in_progress := b |}.

Definition set_txn_in_progress (b : bool) (p : Protocol) : Protocol :=
  {| _transport := _transport p; _caps := _caps p; _read_buf := _read_buf p;
     _write_buf := _write_buf p; _in_connect := _in_connect p;
     _txn_in_progress := b; _break_in_progress := _break_in_progress p |}.

Definition set_in_connect (b : bool) (p : Protocol) : Protocol :=
  {| _transport := _transport p; _caps := _caps p; _read_buf := _read_buf p;
     _write_buf := _write_buf p; _in_connect := b;
     _txn_in_progress := _txn_in_progress p;
     _break_in_progress := _break_in_progress p |}.

Definition set_transport (t : option TransportRef) (p : Protocol) : Protocol :=
  {| _transport := t; _caps := _caps p; _read_buf := _read_buf p;
     _write_buf := _write_buf p; _in_connect := _in_connect p;
     _txn_in_progress := _txn_in_progress p;
     _break_in_progress := _break_in_progress p |}.

Definition set_caps (c : Capabilities) (p : Protocol) : Protocol :=
  {| _transport := _transport p; _caps := c; _read_buf := _read_buf p;
     _write_buf := _write_buf p; _in_connect := _in_connect p;
     _txn_in_progress := _txn_in_progress p;
     _break_in_progress := _break_in_progress p |}.

Definition set_read_buf (r : ReadBuffer) (p : Protocol) : Protocol :=
  {| _transport := _transport p; _caps := _caps p; _read_buf := r;
     _write_buf := _write_buf p; _in_connect := _in_connect p;
     _txn_in_progress := _txn_in_progress p;
     _break_in_progress := _break_in_progress p |}.

Definition set_write_buf (b : WriteBuffer) (p : Protocol) : Protocol :=
  {| _transport := _transport p; _caps := _caps p; _read_buf := _read_buf p;
     _write_buf := b; _in_connect := _in_connect p;
     _txn_in_progress := _txn_in_progress p;
     _break_in_progress := _break_in_progress p |}.

Definition set_supports_oob (b : bool) (c : Capabilities) : Capabilities :=
  {| protocol_version := protocol_version c; sdu := sdu c;
     charset_id := charset_id c; ncharset_id := ncharset_id c;
     supports_oob := b;
     supports_end_of_request := supports_end_of_request c |}.

Definition set_rb_transport (t : option TransportRef) (r : ReadBuffer)
  : ReadBuffer :=
  {| rb_transport := t; _current_packet := _current_packet r |}.

Definition set_current_packet (p : Packet) (r : ReadBuffer) : ReadBuffer :=
  {| rb_transport := rb_transport r; _current_packet := p |}.

Definition set_wb_transport (t : option TransportRef) (b : WriteBuffer)
  : WriteBuffer :=
  {| wb_name := wb_name b; wb_transport := t; _packet_sent := _packet_sent b;
     wb_packet_type := wb_packet_type b;
     wb_packet_flags := wb_packet_flags b; wb_data := wb_data b |}.

Definition set_packet_sent (s : bool) (b : WriteBuffer) : WriteBuffer :=
  {| wb_name := wb_name b; wb_transport := wb_transport b; _packet_sent := s;
     wb_packet_type := wb_packet_type b;
     wb_packet_flags := wb_packet_flags b; wb_data := wb_data b |}.

Definition with_proto (f : Protocol -> Protocol) (w : World) : World :=
  {| proto := f (proto w); transport_obj := transport_obj w; wire := wire w;
     incoming := incoming w; heap := heap w |}.

Definition with_transport_obj (f : Transport -> Transport) (w : World)
  : World :=
  {| proto := proto w; transport_obj := f (transport_obj w); wire := wire w;
     incoming := incoming w; heap := heap w |}.

Definition emit (evs : list WireEvent) (w : World) : World :=
  {| proto := proto w; transport_obj := transport_obj w;
     wire := wire w ++ evs; incoming := incoming w; heap := heap w |}.

Definition set_incoming (l : list RecvEvent) (w : World) : World :=
  {| proto := proto w; transport_obj := transport_obj w; wire := wire w;
     incoming := l; heap := heap w |}.

Definition set_heap (h : Heap) (w : World) : World :=
  {| proto := proto w; transport_obj := transport_obj w; wire := wire w;
     incoming := incoming w; heap := h |}.

Definition set_msg (i : MsgId) (m : Message) (h : Heap) : Heap :=
  {| msgs := fun j => if decide (j = i) then m else msgs h j;
     cookies := cookies h; conn_impl_warning := conn_impl_warning h |}.

Definition set_cookie (a : nat) (c : ConnectionCookie) (h : Heap) : Heap :=
  {| msgs := msgs h;
     cookies := fun b => if decide (b = a) then c else cookies h b;
     conn_impl_warning := conn_impl_warning h |}.

Definition set_conn_impl_warning (x : option _Error) (h : Heap) : Heap :=
  {| msgs := msgs h; cookies := cookies h; conn_impl_warning := x |}.

(** ** Connect parameters and string helpers *)

Record ConnectParamsImpl := {
  disable_oob : bool;
  _token : option string;
  access_token_callback : bool      (* access_token_callback is not None *)
}.

Record Address := {
  addr_host : string;
  addr_port : Z;
  protocol : string;
  https_proxy : option string;
  https_proxy_port : Z
}.

(** [s.find(c)] for a one-character [c]: the index of the first
    occurrence, or [-1]. *)
Fixpoint str_find (c : ascii) (s : string) : Z :=
  match s with
  | EmptyString => -1
  | String a rest =>
      if Ascii.eqb a c then 0
      else let r := str_find c rest in if r <? 0 then -1 else r + 1
  end.

(** [s[i:j]] for [0 <= i] and [0 <= j]. *)
Definition str_slice (i j : Z) (s : string) : string :=
  substring (Z.to_nat i) (Z.to_nat (j - i)) s.

(** ** The state-and-exception monad of the engine *)

Definition M (A : Type) : Type := World -> World * Res A.

Definition ret {A} (a : A) : M A := fun w => (w, Ok a).

Definition raise {A} (e : Exn) : M A := fun w => (w, Raise e).

Definition bind {A B} (c : M A) (k : A -> M B) : M B :=
  fun w =>
    match c w with
    | (w1, Ok a) => k a w1
    | (w1, Raise e) => (w1, Raise e)
    end.

Notation "x <- c ;; k" := (bind c (fun x => k))
  (at level 100, c at next level, right associativity).
Notation "c ;;; k" := (bind c (fun _ => k))
  (at level 100, right associativity).

(** [try: c  except <sel>: h]: the handler runs for the exceptions [sel]
    selects; what the handler raises is not handled again. *)
Definition try_except {A} (c : M A) (sel : Exn -> bool) (h : Exn -> M A)
  : M A :=
  fun w =>
    match c w with
    | (w1, Ok a) => (w1, Ok a)
    | (w1, Raise e) => if sel e then h e w1 else (w1, Raise e)
    end.

Definition modify (f : World -> World) : M unit := fun w => (f w, Ok tt).

Definition _raise_err {A} (e : ErrNum) : M A := raise (DriverError e).

(** ** Write buffer, read buffer and transport operations *)

(** Modelled from the spec: [WriteBuffer.start_request], the typed writer
    [write_uint8] and [end_request] ([packet.pyx] is not among the
    sources). Section 4.C: [start_request(packet_type, flags=0)] opens a
    request, the writers add to the current packet, [end_request()] writes
    the END-OF-REQUEST marker when the capabilities permit (a message type
    of the DATA stream, section 4.D) and flushes; a flushed packet has been
    sent. *)
Definition start_request (ptype flags : Z) (b : WriteBuffer) : WriteBuffer :=
  {| wb_name := wb_name b; wb_transport := wb_transport b;
     _packet_sent := false; wb_packet_type := ptype;
     wb_packet_flags := flags; wb_data := [] |}.

(** Modelled from the spec: [WriteBuffer.write_uint8], a typed writer
    (section 4.C). *)
Definition write_uint8 (v : Z) (b : WriteBuffer) : WriteBuffer :=
  {| wb_name := wb_name b; wb_transport := wb_transport b;
     _packet_sent := _packet_sent b; wb_packet_type := wb_packet_type b;
     wb_packet_flags := wb_packet_flags b; wb_data := wb_data b ++ [v] |}.

(** Modelled from the spec: [WriteBuffer.end_request] (section 4.C). *)
Definition end_request (caps : Capabilities) (b : WriteBuffer)
  : WriteBuffer * list WireEvent :=
  let data :=
    if supports_end_of_request caps
       && (wb_packet_type b =? TNS_PACKET_TYPE_DATA)
    then wb_data b ++ [TNS_MSG_TYPE_END_OF_REQUEST] else wb_data b in
  ({| wb_name := wb_name b; wb_transport := wb_transport b;
      _packet_sent := true; wb_packet_type := wb_packet_type b;
      wb_packet_flags := wb_packet_flags b; wb_data := [] |},
   [WPacket (wb_name b) (wb_packet_type b) (wb_packet_flags b) data]).

(** [WriteBuffer(self._transport, self._caps)]. *)
Definition new_WriteBuffer (t : option TransportRef) : WriteBuffer :=
  {| wb_name := FreshBuffer; wb_transport := t; _packet_sent := false;
     wb_packet_type := 0; wb_packet_flags := 0; wb_data := [] |}.

(** Modelled from the spec: [ReadBuffer.wait_for_packets_sync] and
    [ReadBuffer.reset_packets] ([packet.pyx] is not among the sources).
    Waiting makes the next packet of the peer the current one, in arrival
    order (section 3), or raises what the socket raises; a peer that has
    nothing more to say lets the read time out (section 4.A). Resetting the
    packet cursor (section 4.F, step 2) touches nothing the engine looks
    at. *)
Definition recv (inc : list RecvEvent) : list RecvEvent * Res Packet :=
  match inc with
  | [] => ([], Raise SocketTimeout)
  | RecvPacket p :: rest => (rest, Ok p)
  | RecvRaise e :: rest => (rest, Raise e)
  end.

(** Modelled from the spec: [ReadBuffer.wait_for_packets_sync], one
    [recv] whose packet becomes the current one. *)
Definition wait_for_packets_sync : M unit :=
  fun w =>
    match recv (incoming w) with
    | (rest, Ok p) =>
        (with_proto (fun pr => set_read_buf
                                 (set_current_packet p (_read_buf pr)) pr)
                    (set_incoming rest w), Ok tt)
    | (rest, Raise e) => (set_incoming rest w, Raise e)
    end.

(** Modelled from the spec: [ReadBuffer.reset_packets] (section 4.F,
    step 2). *)
Definition reset_packets : M unit := ret tt.

(** Modelled from the spec: the typed readers of [ReadBuffer] on the
    current packet ([packet.pyx] is not among the sources): bytes are read
    in order, 16-bit integers are big-endian (section 4.C). A marker packet
    has three payload bytes, the marker type last (section 4.D). *)
Definition byte_at (p : Packet) (i : nat) : Z := default 0 (payload p !! i).

(** Modelled from the spec: [read_uint16] at an offset, big-endian. *)
Definition read_uint16_at (p : Packet) (i : nat) : Z :=
  byte_at p i * 256 + byte_at p (S i).

(** Modelled from the spec: [read_raw_bytes(n)] at an offset. *)
Definition read_raw_bytes_at (p : Packet) (i : nat) (n : Z) : list Z :=
  take (Z.to_nat n) (drop i (payload p)).

(** [bytes.decode()], byte by byte. *)
Definition decode (bs : list Z) : string :=
  string_of_list_ascii (List.map (fun b => ascii_of_N (Z.to_N b)) bs).

(** Modelled from the spec: [Transport.send_oob_break] and
    [Transport.disconnect] ([transport.pyx] is not among the sources):
    one urgent byte (section 4.A); the socket is closed and the transport
    forgets it. *)
Definition send_oob_break : M unit := modify (emit [WOobBreak]).

(** Modelled from the spec: [Transport.disconnect] (section 5: sockets
    disconnect on force-close). *)
Definition disconnect : M unit :=
  modify (fun w =>
    emit [WDisconnect]
      (with_transport_obj
         (fun t => {| sock_open := false;
                      _max_packet_size := _max_packet_size t |}) w)).

(** ** [BaseProtocol] *)

(** [_send_marker(buf, marker_type)] on a given buffer: the buffer after
    the call and what it wrote. *)
Definition _send_marker_buf (caps : Capabilities) (buf : WriteBuffer)
    (marker_type : Z) : WriteBuffer * list WireEvent :=
  let buf := start_request TNS_PACKET_TYPE_MARKER 0 buf in
  let buf := write_uint8 1 buf in
  let buf := write_uint8 0 buf in
  let buf := write_uint8 marker_type buf in
  end_request caps buf.

(** [self._send_marker(self._write_buf, marker_type)]. *)
Definition _send_marker (marker_type : Z) : M unit :=
  fun w =>
    let '(buf, evs) :=
      _send_marker_buf (_caps (proto w)) (_write_buf (proto w)) marker_type in
    (emit evs (with_proto (set_write_buf buf) w), Ok tt).

(** [buf = WriteBuffer(self._transport, self._caps);
     self._send_marker(buf, marker_type)]: the buffer is local. *)
Definition _send_marker_fresh (marker_type : Z) : M unit :=
  fun w =>
    let '(_, evs) :=
      _send_marker_buf (_caps (proto w))
        (new_WriteBuffer (_transport (proto w))) marker_type in
    (emit evs w, Ok tt).

Definition _break_external : M unit :=
  fun w =>
    if negb (_break_in_progress (proto w)) then
      (modify (with_proto (set_break_in_progress true)) ;;;
       fun w1 =>
         if supports_oob (_caps (proto w1)) then send_oob_break w1
         else _send_marker_fresh TNS_MARKER_TYPE_INTERRUPT w1) w
    else (w, Ok tt).

Definition _force_close : M unit :=
  fun w =>
    match _transport (proto w) with
    | Some _ =>
        (modify (with_proto (fun p =>
           set_write_buf (set_wb_transport None (_write_buf p))
             (set_read_buf (set_rb_transport None (_read_buf p))
                (set_transport None p)))) ;;;
         disconnect) w
    | None => (w, Ok tt)
    end.

(** ** [Protocol] *)

Definition is_marker (p : Packet) : bool :=
  packet_type p =? TNS_PACKET_TYPE_MARKER.

(** The first loop of [_reset]: the current packet is looked at first; a
    marker packet has its type read ([skip_raw_bytes(2)], [read_ub1]); the
    loop ends on a RESET marker and waits for the next packet otherwise. *)
Fixpoint _reset_until_reset (cur : Packet) (inc : list RecvEvent)
  : Packet * list RecvEvent * Res unit :=
  if is_marker cur && (byte_at cur 2 =? TNS_MARKER_TYPE_RESET)
  then (cur, inc, Ok tt)
  else match inc with
       | [] => (cur, [], Raise SocketTimeout)
       | RecvPacket p :: rest => _reset_until_reset p rest
       | RecvRaise e :: rest => (cur, rest, Raise e)
       end.

(** The second loop: [while packet_type == TNS_PACKET_TYPE_MARKER]. It
    starts on the marker the first loop stopped at. *)
Fixpoint _reset_skip_markers (cur : Packet) (inc : list RecvEvent)
  : Packet * list RecvEvent * Res unit :=
  match inc with
  | [] => (cur, [], Raise SocketTimeout)
  | RecvPacket p :: rest =>
      if is_marker p then _reset_skip_markers p rest else (p, rest, Ok tt)
  | RecvRaise e :: rest => (cur, rest, Raise e)
  end.

Definition run_loop
    (loop : Packet -> list RecvEvent -> Packet * list RecvEvent * Res unit)
  : M unit :=
  fun w =>
    let '(cur, rest, r) :=
      loop (_current_packet (_read_buf (proto w))) (incoming w) in
    (with_proto (fun pr => set_read_buf
                             (set_current_packet cur (_read_buf pr)) pr)
                (set_incoming rest w), r).

Definition _reset : M unit :=
  _send_marker TNS_MARKER_TYPE_RESET ;;;
  run_loop _reset_until_reset ;;;
  run_loop _reset_skip_markers ;;;
  modify (with_proto (set_break_in_progress false)).

Definition set_error_message (i : MsgId) (s : option string) (h : Heap)
  : Heap :=
  let m := msgs h i in
  set_msg i
    {| error_info := {| num := num (error_info m); pos := pos (error_info m);
                        message := s |};
       error_occurred := error_occurred m; retry := retry m;
       resend := resend m; flush_out_binds := flush_out_binds m;
       call_status := call_status m; host := host m; port := port m;
       connect_string_bytes := connect_string_bytes m;
       connect_string_len := connect_string_len m;
       msg_packet_flags := msg_packet_flags m;
       redirect_data := redirect_data m; cookie := cookie m;
       server_version := server_version m;
       server_banner := server_banner m; server_flags := server_flags m;
       server_compile_caps := server_compile_caps m;
       server_runtime_caps := server_runtime_caps m; warning := warning m;
       protocol_message := protocol_message m;
       data_types_message := data_types_message m;
       auth_message := auth_message m |} h.

Definition _receive_packet (message : MsgId) : M unit :=
  wait_for_packets_sync ;;;
  fun w =>
    let cur := _current_packet (_read_buf (proto w)) in
    if packet_type cur =? TNS_PACKET_TYPE_MARKER then _reset w
    else if packet_type cur =? TNS_PACKET_TYPE_REFUSE then
      let w1 := with_proto (fun p =>
                  set_write_buf (set_packet_sent false (_write_buf p)) p) w in
      let refuse_message_len := read_uint16_at cur 2 in
      if refuse_message_len =? 0 then
        (set_heap (set_error_message message None (heap w1)) w1, Ok tt)
      else
        (set_heap (set_error_message message
                     (Some (decode (read_raw_bytes_at cur 4
                                      refuse_message_len)))
                     (heap w1)) w1, Ok tt)
    else (w, Ok tt).

Definition set_error_occurred (i : MsgId) (b : bool) (h : Heap) : Heap :=
  let m := msgs h i in
  set_msg i
    {| error_info := error_info m;
       error_occurred := b; retry := retry m;
       resend := resend m; flush_out_binds := flush_out_binds m;
       call_status := call_status m; host := host m; port := port m;
       connect_string_bytes := connect_string_bytes m;
       connect_string_len := connect_string_len m;
       msg_packet_flags := msg_packet_flags m;
       redirect_data := redirect_data m; cookie := cookie m;
       server_version := server_version m;
       server_banner := server_banner m; server_flags := server_flags m;
       server_compile_caps := server_compile_caps m;
       server_runtime_caps := server_runtime_caps m; warning := warning m;
       protocol_message := protocol_message m;
       data_types_message := data_types_message m;
       auth_message := auth_message m |} h.

(** A message as [conn_impl._create_message] hands it out. *)
Definition blank_message : Message :=
  {| error_info := {| num := 0; pos := 0; message := None |};
     error_occurred := false; retry := false; resend := false;
     flush_out_binds := false; call_status := 0;
     host := ""; port := 0; connect_string_bytes := "";
     connect_string_len := 0; msg_packet_flags := 0;
     redirect_data := None; cookie := None;
     server_version := 0; server_banner := ""; server_flags := 0;
     server_compile_caps := []; server_runtime_caps := [];
     warning := None; protocol_message := None;
     data_types_message := None; auth_message := None |}.

Section Engine.

Variable E : Env.

(** [message.send(self._write_buf)] and [message.process(self._read_buf)]:
    the codec of the message, on the buffer it is given. *)
Definition message_send (message : MsgId) : M unit :=
  fun w =>
    let '(h, buf, evs, r) :=
      codec_send E message (heap w) (_write_buf (proto w)) in
    (emit evs (with_proto (set_write_buf buf) (set_heap h w)),
     match r with None => Ok tt | Some e => Raise e end).

Definition message_process (message : MsgId) : M unit :=
  fun w =>
    let '(h, r) := codec_process E message (heap w) (_read_buf (proto w)) in
    (set_heap h w, match r with None => Ok tt | Some e => Raise e end).

(** The [try] suite of [_process_message]. *)
Definition try_suite (message : MsgId) : M unit :=
  reset_packets ;;;
  message_send message ;;;
  _receive_packet message ;;;
  message_process message.

(** [except socket.timeout:] with its nested [try]; the final [raise]
    re-raises the timeout being handled. *)
Definition on_socket_timeout (message : MsgId) : M unit :=
  @try_except unit
    (_break_external ;;;
     _receive_packet message ;;;
     modify (with_proto (set_break_in_progress false)) ;;;
     _raise_err ERR_CALL_TIMEOUT_EXCEEDED)
    is_socket_timeout
    (fun _ => _force_close ;;; _raise_err ERR_CONNECTION_CLOSED) ;;;
  raise SocketTimeout.

(** The condition of [except Exception as e:]. *)
Definition can_break_and_reset (w : World) : bool :=
  negb (_in_connect (proto w))
  && _packet_sent (_write_buf (proto w))
  && bool_decide (rb_transport (_read_buf (proto w)) <> None)
  && sock_open (transport_obj w).

Definition on_exception (message : MsgId) (e : Exn) : M unit :=
  (fun w =>
     if can_break_and_reset w
     then (_send_marker TNS_MARKER_TYPE_BREAK ;;; _reset) w
     else (w, Ok tt)) ;;;
  raise e.

(** The [try] statement: the first matching clause handles. *)
Definition try_statement (message : MsgId) : M unit :=
  fun w =>
    match try_suite message w with
    | (w1, Ok a) => (w1, Ok a)
    | (w1, Raise e) =>
        if is_socket_timeout e then on_socket_timeout message w1
        else on_exception message e w1
    end.

Definition flush_out_binds_step (message : MsgId) : M unit :=
  fun w =>
    if flush_out_binds (msgs (heap w) message) then
      ((fun w1 =>
          let buf := start_request TNS_PACKET_TYPE_DATA 0
                       (_write_buf (proto w1)) in
          let buf := write_uint8 (TNS_MSG_TYPE_FLUSH_OUT_BINDS (consts E))
                       buf in
          let '(buf, evs) := end_request (_caps (proto w1)) buf in
          (emit evs (with_proto (set_write_buf buf) w1), Ok tt)) ;;;
       _reset ;;;
       message_process message) w
    else (w, Ok tt).

Definition break_in_progress_step (message : MsgId) : M unit :=
  fun w =>
    if _break_in_progress (proto w) then
      (@try_except unit
         ((fun w1 =>
             if supports_oob (_caps (proto w1))
             then _send_marker TNS_MARKER_TYPE_INTERRUPT w1
             else (w1, Ok tt)) ;;;
          _receive_packet message)
         is_socket_timeout
         (fun _ => _raise_err ERR_CONNECTION_CLOSED) ;;;
       message_process message ;;;
       modify (with_proto (set_break_in_progress false))) w
    else (w, Ok tt).

Definition txn_step (message : MsgId) : M unit :=
  modify (fun w =>
    with_proto
      (set_txn_in_progress
         (negb (Z.land (call_status (msgs (heap w) message))
                       (TNS_TXN_IN_PROGRESS (consts E)) =? 0))) w).

(** [_process_message] up to the test of [message.error_occurred]. *)
Definition exchange (message : MsgId) : M unit :=
  try_statement message ;;;
  flush_out_binds_step message ;;;
  break_in_progress_step message ;;;
  txn_step message.

Definition error_of (m : Message) : _Error :=
  {| err_message := message (error_info m);
     err_code := num (error_info m);
     err_offset := pos (error_info m) |}.

(** The end of [_process_message] when no retry is asked for. *)
Definition raise_server_error (message : MsgId) : M unit :=
  fun w =>
    let m := msgs (heap w) message in
    let error := error_of m in
    ((fun w1 => if is_session_dead E error then _force_close w1
                else (w1, Ok tt)) ;;;
     raise (OracleError (get_exception_class E (num (error_info m))) error))
      w.

(** [_process_message]: [return self._process_message(message)] is the
    recursive call. Every call that gets as far as the retry has taken a
    packet from the peer, so the depth is bounded by what the peer sends;
    [None] stands for a depth that was not enough. *)
Fixpoint _process_message_depth (depth : nat) (message : MsgId) (w : World)
  : option (World * Res unit) :=
  match depth with
  | O => None
  | S depth' =>
      match exchange message w with
      | (w1, Raise e) => Some (w1, Raise e)
      | (w1, Ok _) =>
          if error_occurred (msgs (heap w1) message) then
            if retry (msgs (heap w1) message) then
              _process_message_depth depth' message
                (set_heap (set_error_occurred message false (heap w1)) w1)
            else Some (raise_server_error message w1)
          else Some (w1, Ok tt)
      end
  end.

(** The depth [S (length (incoming w))] always suffices (lemma
    [_process_message_depth_enough] below), so the alternative is never
    taken. *)
Definition _process_message (message : MsgId) : M unit :=
  fun w =>
    default (w, Raise (OtherException 0))
      (_process_message_depth (S (length (incoming w))) message w).

(** *** Connect, phase one *)

(** [Transport.set_from_socket]: the transport holds the new socket. *)
Definition set_from_socket : M unit :=
  modify (with_transport_obj
            (fun t => {| sock_open := true;
                         _max_packet_size := _max_packet_size t |})).

Definition _connect_tcp (params : ConnectParamsImpl) (address : Address)
    (host : string) (port : Z) : M unit :=
  let use_proxy := bool_decide (https_proxy address <> None) in
  let use_tcps := String.eqb (protocol address) "tcps" in
  (* establish connection to appropriate host/port *)
  connect_info <-
    (match https_proxy address with
     | Some proxy =>
         if negb use_tcps then _raise_err ERR_HTTPS_PROXY_REQUIRES_TCPS
         else ret (proxy, https_proxy_port address)
     | None =>
         if negb use_tcps
            && (bool_decide (_token params <> None)
                || access_token_callback params)
         then _raise_err ERR_ACCESS_TOKEN_REQUIRES_TCPS
         else ret (host, port)
     end) ;;
  (fun w =>
     match create_connection E (fst connect_info) (snd connect_info) with
     | Some e => (w, Raise e)
     | None => (emit [WConnect (fst connect_info) (snd connect_info)] w,
                Ok tt)
     end) ;;;
  (* complete connection through proxy, if applicable *)
  (if use_proxy then
     modify (emit [WProxyConnect host port]) ;;;
     (if proxy_replies_200 E host port then ret tt
      else _raise_err ERR_PROXY_FAILURE)
   else ret tt) ;;;
  (* set socket on transport *)
  set_from_socket ;;;
  (* negotiate TLS, if applicable *)
  (if use_tcps then modify (emit [WNegotiateTls]) else ret tt).

(** The local variables of [_connect_phase_one] that live across the
    iterations of its loop; [connect_message] is [None] or the message. *)
Record Locals := {
  connect_message : option MsgId;
  l_packet_flags : Z;
  l_host : string;
  l_port : Z;
  l_connect_string : string
}.

(** [conn_impl._create_message(ConnectMessage)] and the assignments that
    follow it. *)
Definition new_connect_message (l : Locals) : Message :=
  {| error_info := {| num := 0; pos := 0; message := None |};
     error_occurred := false; retry := false; resend := false;
     flush_out_binds := false; call_status := 0;
     host := l_host l; port := l_port l;
     connect_string_bytes := l_connect_string l;
     connect_string_len :=
       Z.of_nat (String.length (l_connect_string l)) mod 65536;
     msg_packet_flags := l_packet_flags l;
     redirect_data := None; cookie := None;
     server_version := 0; server_banner := ""; server_flags := 0;
     server_compile_caps := []; server_runtime_caps := [];
     warning := None; protocol_message := None;
     data_types_message := None; auth_message := None |}.

(** [if connect_message is None:] and its suite. *)
Definition ensure_connect_message (l : Locals) : M unit :=
  match connect_message l with
  | None =>
      modify (fun w =>
        set_heap (set_msg ConnectMsg (new_connect_message l) (heap w)) w)
  | Some _ => ret tt
  end.

(** The part of the loop body after the [if]/[elif]: TCPS. *)
Definition tcps_step (address : Address) (l : Locals) : M Locals :=
  if String.eqb (protocol address) "tcps" then
    modify (with_proto (fun p =>
              set_caps (set_supports_oob false (_caps p)) p)) ;;;
    fun w =>
      let packet_flags :=
        packet_flags (_current_packet (_read_buf (proto w))) in
      ((if negb (Z.land packet_flags (TNS_PACKET_FLAG_TLS_RENEG (consts E))
                 =? 0)
        then modify (emit [WRenegotiateTls]) else ret tt) ;;;
       ret {| connect_message := connect_message l;
              l_packet_flags := packet_flags;
              l_host := l_host l; l_port := l_port l;
              l_connect_string := l_connect_string l |}) w
  else ret l.

(** One iteration of [while True:]; [inr c] is [return c], [inl l] goes
    round again with the locals [l]. *)
Definition phase_one_iteration (params : ConnectParamsImpl)
    (address : Address) (l : Locals) : M (Locals + option nat) :=
  (* create connection message, if needed *)
  ensure_connect_message l ;;;
  (* process connection message *)
  _process_message ConnectMsg ;;;
  fun w =>
    let packet_type :=
      packet_type (_current_packet (_read_buf (proto w))) in
    match redirect_data (msgs (heap w) ConnectMsg) with
    | Some redirect_data =>
        let pos := str_find "000"%char redirect_data in
        if pos <? 0 then (w, Raise (DriverError ERR_INVALID_REDIRECT_DATA))
        else
          (hp <- (fun w1 =>
                    (w1, parse_connect_string E
                           (str_slice 0 pos redirect_data))) ;;
           _connect_tcp params address (fst hp) (snd hp) ;;;
           l1 <- tcps_step address
                   {| connect_message := None;
                      l_packet_flags := TNS_PACKET_FLAG_REDIRECT (consts E);
                      l_host := fst hp; l_port := snd hp;
                      l_connect_string :=
                        str_slice (pos + 1)
                          (Z.of_nat (String.length redirect_data))
                          redirect_data |} ;;
           ret (inl l1)) w
    | None =>
        if packet_type =? TNS_PACKET_TYPE_ACCEPT then
          (* [_size_for_sdu()] resizes the write buffer: nothing here *)
          (modify (fun w1 =>
             with_transport_obj
               (fun t => {| sock_open := sock_open t;
                            _max_packet_size := sdu (_caps (proto w1)) |})
               w1) ;;;
           ret (inr (cookie (msgs (heap w) ConnectMsg)))) w
        else
          (l1 <- tcps_step address
                   {| connect_message := Some ConnectMsg;
                      l_packet_flags := l_packet_flags l;
                      l_host := l_host l; l_port := l_port l;
                      l_connect_string := l_connect_string l |} ;;
           ret (inl l1)) w
    end.

Fixpoint phase_one_loop (rounds : nat) (params : ConnectParamsImpl)
    (address : Address) (l : Locals) (w : World)
  : option (World * Res (option nat)) :=
  match rounds with
  | O => None
  | S rounds' =>
      match phase_one_iteration params address l w with
      | (w1, Raise e) => Some (w1, Raise e)
      | (w1, Ok (inr c)) => Some (w1, Ok c)
      | (w1, Ok (inl l1)) => phase_one_loop rounds' params address l1 w1
      end
  end.

(** [_connect_phase_one]: every iteration takes a packet from the peer or
    raises, so [S (length (incoming w))] rounds are enough. *)
Definition _connect_phase_one (params : ConnectParamsImpl)
    (address : Address) (connect_string : string) (w : World)
  : option (World * Res (option nat)) :=
  (* store whether OOB processing is possible or not *)
  let w0 :=
    with_proto (fun p =>
      set_caps (set_supports_oob
                  (negb (disable_oob params) && negb (platform_is_win32 E))
                  (_caps p)) p) w in
  (* establish initial TCP connection and get initial connect string *)
  match _connect_tcp params address (addr_host address) (addr_port address)
          w0 with
  | (w1, Raise e) => Some (w1, Raise e)
  | (w1, Ok _) =>
      phase_one_loop (S (length (incoming w1))) params address
        {| connect_message := None; l_packet_flags := 0;
           l_host := addr_host address; l_port := addr_port address;
           l_connect_string := connect_string |} w1
  end.

(** *** Connect, phase two *)

(** [cookie_message = conn_impl._create_message(ConnectionCookieMessage)]
    with the four references stored in it. *)
Definition new_cookie_message (a : nat) : Message :=
  {| error_info := {| num := 0; pos := 0; message := None |};
     error_occurred := false; retry := false; resend := false;
     flush_out_binds := false; call_status := 0;
     host := ""; port := 0; connect_string_bytes := "";
     connect_string_len := 0; msg_packet_flags := 0;
     redirect_data := None; cookie := Some a;
     server_version := 0; server_banner := ""; server_flags := 0;
     server_compile_caps := []; server_runtime_caps := [];
     warning := None; protocol_message := Some ProtocolMsg;
     data_types_message := Some DataTypesMsg;
     auth_message := Some AuthMsg |}.

(** The eight assignments to the cookie. *)
Definition populate (pm : Message) (caps : Capabilities) : ConnectionCookie :=
  {| ck_protocol_version := server_version pm;
     ck_server_banner := server_banner pm;
     ck_charset_id := charset_id caps;
     ck_ncharset_id := ncharset_id caps;
     ck_flags := server_flags pm;
     ck_compile_caps := server_compile_caps pm;
     ck_runtime_caps := server_runtime_caps pm;
     populated := true |}.

(** [if cookie is not None and not cookie.populated:] and its suite. *)
Definition store_cookie (cookie : option nat) : M unit :=
  modify (fun w =>
    match cookie with
    | Some a =>
        if negb (populated (cookies (heap w) a)) then
          set_heap (set_cookie a
                      (populate (msgs (heap w) ProtocolMsg) (_caps (proto w)))
                      (heap w)) w
        else w
    | None => w
    end).

Definition _connect_phase_two (cookie : option nat) : M unit :=
  (* check if the protocol version supported by the database is high
     enough; if not, reject the connection immediately *)
  (fun w =>
     if protocol_version (_caps (proto w))
        <? TNS_VERSION_MIN_ACCEPTED (consts E)
     then (w, Raise (DriverError ERR_SERVER_VERSION_NOT_SUPPORTED))
     else (w, Ok tt)) ;;;
  (* if we can use OOB, send an urgent message now followed by a reset
     marker to see if the server understands it *)
  (fun w =>
     if supports_oob (_caps (proto w))
        && (TNS_VERSION_MIN_OOB_CHECK (consts E)
            <=? protocol_version (_caps (proto w)))
     then (send_oob_break ;;; _send_marker TNS_MARKER_TYPE_RESET) w
     else (w, Ok tt)) ;;;
  (* create the messages that need to be sent to the server *)
  modify (fun w =>
    set_heap
      (set_msg AuthMsg (auth_set_params E blank_message)
         (set_msg DataTypesMsg blank_message
            (set_msg ProtocolMsg blank_message (heap w)))) w) ;;;
  (* starting in 23c, a cookie can be sent along with the protocol, data
     types and authorization messages *)
  sent_cookie <-
    (fun w =>
       match cookie with
       | Some a =>
           if populated (cookies (heap w) a) then
             (modify (fun w1 =>
                set_heap (set_msg CookieMsg (new_cookie_message a) (heap w1))
                         w1) ;;;
              _process_message CookieMsg ;;;
              ret true) w
           else (_process_message ProtocolMsg ;;; ret false) w
       | None => (_process_message ProtocolMsg ;;; ret false) w
       end) ;;
  (* if database is not 23c or later, or renegotiation has been requested,
     use the regular approach for the remaining messages *)
  (fun w =>
     if negb sent_cookie
        || match cookie with
           | Some a => negb (populated (cookies (heap w) a))
           | None => true
           end
     then (_process_message DataTypesMsg ;;;
           _process_message AuthMsg ;;;
           store_cookie cookie) w
     else (w, Ok tt)) ;;;
  (* send authorization message a second time, if needed *)
  (fun w =>
     if resend (msgs (heap w) AuthMsg) then _process_message AuthMsg w
     else (w, Ok tt)) ;;;
  (* mark protocol to indicate that connect is no longer in progress *)
  modify (fun w =>
    set_heap (set_conn_impl_warning (warning (msgs (heap w) AuthMsg))
                                    (heap w)) w) ;;;
  modify (with_proto (set_in_connect false)).

End Engine.

(** ** [utils.pyx]: the connect constants *)

Module Utils.

(** [value.replace(old, new)] for one-character [old] and [new]. *)
Fixpoint replace (old new : ascii) (value : string) : string :=
  match value with
  | EmptyString => EmptyString
  | String c rest =>
      String (if Ascii.eqb c old then new else c) (replace old new rest)
  end.

Definition _sanitize (value : string) : string :=
  replace "=" "?" (replace ")" "?" (replace "(" "?" value)).

(** The attributes of [ConnectConstants] that [_get_connect_data] and the
    connect message use ([full_version_num] is left out). *)
Record ConnectConstants := {
  program_name : string;
  machine_name : string;
  pid : string;
  user_name : string;
  terminal_name : string;
  sanitized_program_name : string;
  sanitized_machine_name : string;
  sanitized_user_name : string
}.

(** [ConnectConstants.__init__], given what [sys.executable],
    [socket.gethostname()], [os.getpid()] and [getpass.getuser()]
    return. *)
Definition ConnectConstants_init (executable hostname pid user : string)
  : ConnectConstants :=
  {| program_name := executable;
     machine_name := hostname;
     pid := pid;
     user_name := user;
     terminal_name := "unknown";
     sanitized_program_name := _sanitize executable;
     sanitized_machine_name := _sanitize hostname;
     sanitized_user_name := _sanitize user |}.

(** The [cid] of [_get_connect_data]. *)
Definition cid (constants : ConnectConstants) : string :=
  ("(PROGRAM=" ++ sanitized_program_name constants ++ ")"
   ++ "(HOST=" ++ sanitized_machine_name constants ++ ")"
   ++ "(USER=" ++ sanitized_user_name constants ++ ")")%string.

(** [_get_connect_data(description)]; [build_connect_string] is the
    method of [Description], which is outside the sources. *)
Definition _get_connect_data (build_connect_string : string -> string)
    (constants : ConnectConstants) : string :=
  build_connect_string (cid constants).

(** What [_sanitize] does to one character. *)
Definition sanitize_char (c : ascii) : ascii :=
  if (Ascii.eqb c "(" || Ascii.eqb c ")" || Ascii.eqb c "=")%bool
  then "?"%char else c.

End Utils.

(** ** [types.pyx]: database types and their registries *)

Module Types.

(** The enumerators of [base_impl.pxd] that [types.pyx] uses; the file is
    outside the sources, so their values are parameters. *)
Record BaseConstants := {
  DB_TYPE_NUM_MIN : Z;
  DB_TYPE_NUM_MAX : Z;
  DB_TYPE_NUM_BFILE : Z;
  DB_TYPE_NUM_BINARY_DOUBLE : Z;
  DB_TYPE_NUM_BINARY_FLOAT : Z;
  DB_TYPE_NUM_BINARY_INTEGER : Z;
  DB_TYPE_NUM_BLOB : Z;
  DB_TYPE_NUM_BOOLEAN : Z;
  DB_TYPE_NUM_CHAR : Z;
  DB_TYPE_NUM_CLOB : Z;
  DB_TYPE_NUM_CURSOR : Z;
  DB_TYPE_NUM_DATE : Z;
  DB_TYPE_NUM_INTERVAL_DS : Z;
  DB_TYPE_NUM_INTERVAL_YM : Z;
  DB_TYPE_NUM_JSON : Z;
  DB_TYPE_NUM_LONG_VARCHAR : Z;
  DB_TYPE_NUM_LONG_NVARCHAR : Z;
  DB_TYPE_NUM_LONG_RAW : Z;
  DB_TYPE_NUM_NCHAR : Z;
  DB_TYPE_NUM_NCLOB : Z;
  DB_TYPE_NUM_NUMBER : Z;
  DB_TYPE_NUM_NVARCHAR : Z;
  DB_TYPE_NUM_OBJECT : Z;
  DB_TYPE_NUM_RAW : Z;
  DB_TYPE_NUM_ROWID : Z;
  DB_TYPE_NUM_TIMESTAMP : Z;
  DB_TYPE_NUM_TIMESTAMP_LTZ : Z;
  DB_TYPE_NUM_TIMESTAMP_TZ : Z;
  DB_TYPE_NUM_UNKNOWN : Z;
  DB_TYPE_NUM_UROWID : Z;
  DB_TYPE_NUM_VARCHAR : Z;
  DB_TYPE_NUM_VECTOR : Z;
  DB_TYPE_NUM_XMLTYPE : Z;
  NATIVE_TYPE_NUM_LOB : Z;
  NATIVE_TYPE_NUM_DOUBLE : Z;
  NATIVE_TYPE_NUM_FLOAT : Z;
  NATIVE_TYPE_NUM_INT64 : Z;
  NATIVE_TYPE_NUM_BOOLEAN : Z;
  NATIVE_TYPE_NUM_BYTES : Z;
  NATIVE_TYPE_NUM_STMT : Z;
  NATIVE_TYPE_NUM_TIMESTAMP : Z;
  NATIVE_TYPE_NUM_INTERVAL_DS : Z;
  NATIVE_TYPE_NUM_INTERVAL_YM : Z;
  NATIVE_TYPE_NUM_JSON : Z;
  NATIVE_TYPE_NUM_OBJECT : Z;
  NATIVE_TYPE_NUM_ROWID : Z;
  NATIVE_TYPE_NUM_VECTOR : Z
}.

Record DbType := {
  num : Z;
  name : string;
  default_size : Z;
  _native_num : Z;
  _ora_name : string;
  _ora_type_num : Z;
  _csfrm : Z;
  _buffer_size_factor : Z
}.

#[global] Instance DbType_eq_dec : EqDecision DbType.
Proof. solve_decision. Defined.

(** The three module-level registries. *)
Record Registry := {
  db_type_by_num : list (option DbType);
  db_type_by_ora_name : gmap string DbType;
  db_type_by_ora_type_num : gmap Z DbType
}.

(** [l[i] = x] on a Python list with a Python integer index: a negative
    index counts from the end, an index out of range raises. *)
Definition list_setitem {A} (l : list A) (i : Z) (x : A) : Res (list A) :=
  let n := Z.of_nat (length l) in
  let j := if i <? 0 then i + n else i in
  if (0 <=? j) && (j <? n) then Ok (<[Z.to_nat j := x]> l)
  else Raise IndexError.

(** [l[i]] on a [cdef list] with an unsigned C index. *)
Definition list_getitem {A} (l : list A) (i : Z) : Res A :=
  match l !! Z.to_nat i with
  | Some x => Ok x
  | None => Raise IndexError
  end.

(** [d[k]] on a dict. *)
Definition dict_getitem {K A} `{Countable K} (d : gmap K A) (k : K) : Res A :=
  match d !! k with
  | Some x => Ok x
  | None => Raise KeyError
  end.

(** [try: body  except KeyError: pass] followed by [errors._raise_err(e)]. *)
Definition except_KeyError_then_raise {A} (body : Res A) (e : ErrNum)
  : Res A :=
  match body with
  | Ok a => Ok a
  | Raise KeyError => Raise (DriverError e)
  | Raise other => Raise other
  end.

Definition uint16 (z : Z) : Z := z mod 65536.
Definition uint32 (z : Z) : Z := z mod 4294967296.

Section WithConstants.

Variable K : BaseConstants.

(** [cdef list db_type_by_num = [None] * (DB_TYPE_NUM_MAX - DB_TYPE_NUM_MIN + 1)]
    and the two empty dicts. *)
Definition empty_registry : Registry :=
  {| db_type_by_num :=
       replicate (Z.to_nat (DB_TYPE_NUM_MAX K - DB_TYPE_NUM_MIN K + 1)) None;
     db_type_by_ora_name := ∅;
     db_type_by_ora_type_num := ∅ |}.

(** The part of [DbType.__init__] that touches the registries; [self] has
    its attributes set already. *)
Definition DbType_init (self : DbType) (r : Registry) : Res Registry :=
  let ora_type_key := uint16 (_csfrm self * 256 + _ora_type_num self) in
  let num := if negb (num self =? 0) then num self - DB_TYPE_NUM_MIN K
             else num self in
  match list_setitem (db_type_by_num r) num (Some self) with
  | Raise e => Raise e
  | Ok l =>
      Ok {| db_type_by_num := l;
            db_type_by_ora_name := <[_ora_name self := self]>
                                     (db_type_by_ora_name r);
            db_type_by_ora_type_num := <[ora_type_key := self]>
                                         (db_type_by_ora_type_num r) |}
  end.

Definition _from_num (r : Registry) (num : Z) : Res (option DbType) :=
  except_KeyError_then_raise
    (let num := if negb (num =? 0) then uint32 (num - DB_TYPE_NUM_MIN K)
                else num in
     list_getitem (db_type_by_num r) num)
    ERR_ORACLE_TYPE_NOT_SUPPORTED.

Definition _from_ora_name (r : Registry) (name : string) : Res DbType :=
  except_KeyError_then_raise
    (dict_getitem (db_type_by_ora_name r) name)
    ERR_ORACLE_TYPE_NAME_NOT_SUPPORTED.

Definition _from_ora_type_and_csfrm (r : Registry) (ora_type_num csfrm : Z)
  : Res DbType :=
  let ora_type_key := uint16 (csfrm * 256 + ora_type_num) in
  except_KeyError_then_raise
    (dict_getitem (db_type_by_ora_type_num r) ora_type_key)
    ERR_ORACLE_TYPE_NOT_SUPPORTED.

(** [DbType(num, name, ora_name, native_num=0, ora_type_num=0,
            default_size=0, csfrm=0, buffer_size_factor=0)]: the object. *)
Definition mk (num : Z) (name ora_name : string)
    (native_num ora_type_num default_size csfrm buffer_size_factor : Z)
  : DbType :=
  {| num := num; name := name; default_size := default_size;
     _native_num := native_num; _ora_name := ora_name;
     _ora_type_num := ora_type_num; _csfrm := csfrm;
     _buffer_size_factor := buffer_size_factor |}.

(* database types *)
Definition DB_TYPE_BFILE : DbType :=
  mk (DB_TYPE_NUM_BFILE K) "DB_TYPE_BFILE" "BFILE"
     (NATIVE_TYPE_NUM_LOB K) 114 0 0 0.
Definition DB_TYPE_BINARY_DOUBLE : DbType :=
  mk (DB_TYPE_NUM_BINARY_DOUBLE K) "DB_TYPE_BINARY_DOUBLE" "BINARY_DOUBLE"
     (NATIVE_TYPE_NUM_DOUBLE K) 101 0 0 8.
Definition DB_TYPE_BINARY_FLOAT : DbType :=
  mk (DB_TYPE_NUM_BINARY_FLOAT K) "DB_TYPE_BINARY_FLOAT" "BINARY_FLOAT"
     (NATIVE_TYPE_NUM_FLOAT K) 100 0 0 4.
Definition DB_TYPE_BINARY_INTEGER : DbType :=
  mk (DB_TYPE_NUM_BINARY_INTEGER K) "DB_TYPE_BINARY_INTEGER" "BINARY_INTEGER"
     (NATIVE_TYPE_NUM_INT64 K) 3 0 0 22.
Definition DB_TYPE_BLOB : DbType :=
  mk (DB_TYPE_NUM_BLOB K) "DB_TYPE_BLOB" "BLOB"
     (NATIVE_TYPE_NUM_LOB K) 113 0 0 112.
Definition DB_TYPE_BOOLEAN : DbType :=
  mk (DB_TYPE_NUM_BOOLEAN K) "DB_TYPE_BOOLEAN" "BOOLEAN"
     (NATIVE_TYPE_NUM_BOOLEAN K) 252 0 0 4.
Definition DB_TYPE_CHAR : DbType :=
  mk (DB_TYPE_NUM_CHAR K) "DB_TYPE_CHAR" "CHAR"
     (NATIVE_TYPE_NUM_BYTES K) 96 2000 1 4.
Definition DB_TYPE_CLOB : DbType :=
  mk (DB_TYPE_NUM_CLOB K) "DB_TYPE_CLOB" "CLOB"
     (NATIVE_TYPE_NUM_LOB K) 112 0 1 112.
Definition DB_TYPE_CURSOR : DbType :=
  mk (DB_TYPE_NUM_CURSOR K) "DB_TYPE_CURSOR" "CURSOR"
     (NATIVE_TYPE_NUM_STMT K) 102 0 0 4.
Definition DB_TYPE_DATE : DbType :=
  mk (DB_TYPE_NUM_DATE K) "DB_TYPE_DATE" "DATE"
     (NATIVE_TYPE_NUM_TIMESTAMP K) 12 0 0 7.
Definition DB_TYPE_INTERVAL_DS : DbType :=
  mk (DB_TYPE_NUM_INTERVAL_DS K) "DB_TYPE_INTERVAL_DS" "INTERVAL DAY TO SECOND"
     (NATIVE_TYPE_NUM_INTERVAL_DS K) 183 0 0 11.
Definition DB_TYPE_INTERVAL_YM : DbType :=
  mk (DB_TYPE_NUM_INTERVAL_YM K) "DB_TYPE_INTERVAL_YM" "INTERVAL YEAR TO MONTH"
     (NATIVE_TYPE_NUM_INTERVAL_YM K) 182 0 0 0.
Definition DB_TYPE_JSON : DbType :=
  mk (DB_TYPE_NUM_JSON K) "DB_TYPE_JSON" "JSON"
     (NATIVE_TYPE_NUM_JSON K) 119 0 0 0.
Definition DB_TYPE_LONG : DbType :=
  mk (DB_TYPE_NUM_LONG_VARCHAR K) "DB_TYPE_LONG" "LONG"
     (NATIVE_TYPE_NUM_BYTES K) 8 0 1 2147483647.
Definition DB_TYPE_LONG_NVARCHAR : DbType :=
  mk (DB_TYPE_NUM_LONG_NVARCHAR K) "DB_TYPE_LONG_NVARCHAR" "LONG NVARCHAR"
     (NATIVE_TYPE_NUM_BYTES K) 8 0 2 2147483647.
Definition DB_TYPE_LONG_RAW : DbType :=
  mk (DB_TYPE_NUM_LONG_RAW K) "DB_TYPE_LONG_RAW" "LONG RAW"
     (NATIVE_TYPE_NUM_BYTES K) 24 0 0 2147483647.
Definition DB_TYPE_NCHAR : DbType :=
  mk (DB_TYPE_NUM_NCHAR K) "DB_TYPE_NCHAR" "NCHAR"
     (NATIVE_TYPE_NUM_BYTES K) 96 2000 2 4.
Definition DB_TYPE_NCLOB : DbType :=
  mk (DB_TYPE_NUM_NCLOB K) "DB_TYPE_NCLOB" "NCLOB"
     (NATIVE_TYPE_NUM_LOB K) 112 0 2 112.
Definition DB_TYPE_NUMBER : DbType :=
  mk (DB_TYPE_NUM_NUMBER K) "DB_TYPE_NUMBER" "NUMBER"
     (NATIVE_TYPE_NUM_BYTES K) 2 0 0 22.
Definition DB_TYPE_NVARCHAR : DbType :=
  mk (DB_TYPE_NUM_NVARCHAR K) "DB_TYPE_NVARCHAR" "NVARCHAR2"
     (NATIVE_TYPE_NUM_BYTES K) 1 4000 2 4.
Definition DB_TYPE_OBJECT : DbType :=
  mk (DB_TYPE_NUM_OBJECT K) "DB_TYPE_OBJECT" "OBJECT"
     (NATIVE_TYPE_NUM_OBJECT K) 109 0 0 0.
Definition DB_TYPE_RAW : DbType :=
  mk (DB_TYPE_NUM_RAW K) "DB_TYPE_RAW" "RAW"
     (NATIVE_TYPE_NUM_BYTES K) 23 4000 0 1.
Definition DB_TYPE_ROWID : DbType :=
  mk (DB_TYPE_NUM_ROWID K) "DB_TYPE_ROWID" "ROWID"
     (NATIVE_TYPE_NUM_ROWID K) 11 0 0 18.
Definition DB_TYPE_TIMESTAMP : DbType :=
  mk (DB_TYPE_NUM_TIMESTAMP K) "DB_TYPE_TIMESTAMP" "TIMESTAMP"
     (NATIVE_TYPE_NUM_TIMESTAMP K) 180 0 0 11.
Definition DB_TYPE_TIMESTAMP_LTZ : DbType :=
  mk (DB_TYPE_NUM_TIMESTAMP_LTZ K) "DB_TYPE_TIMESTAMP_LTZ" "TIMESTAMP WITH LOCAL TZ"
     (NATIVE_TYPE_NUM_TIMESTAMP K) 231 0 0 11.
Definition DB_TYPE_TIMESTAMP_TZ : DbType :=
  mk (DB_TYPE_NUM_TIMESTAMP_TZ K) "DB_TYPE_TIMESTAMP_TZ" "TIMESTAMP WITH TZ"
     (NATIVE_TYPE_NUM_TIMESTAMP K) 181 0 0 13.
Definition DB_TYPE_UNKNOWN : DbType :=
  mk (DB_TYPE_NUM_UNKNOWN K) "DB_TYPE_UNKNOWN" "UNKNOWN"
     0 0 0 0 0.
Definition DB_TYPE_UROWID : DbType :=
  mk (DB_TYPE_NUM_UROWID K) "DB_TYPE_UROWID" "UROWID"
     (NATIVE_TYPE_NUM_BYTES K) 208 0 0 0.
Definition DB_TYPE_VARCHAR : DbType :=
  mk (DB_TYPE_NUM_VARCHAR K) "DB_TYPE_VARCHAR" "VARCHAR2"
     (NATIVE_TYPE_NUM_BYTES K) 1 4000 1 4.
Definition DB_TYPE_VECTOR : DbType :=
  mk (DB_TYPE_NUM_VECTOR K) "DB_TYPE_VECTOR" "VECTOR"
     (NATIVE_TYPE_NUM_VECTOR K) 127 0 0 0.
Definition DB_TYPE_XMLTYPE : DbType :=
  mk (DB_TYPE_NUM_XMLTYPE K) "DB_TYPE_XMLTYPE" "XMLTYPE"
     (NATIVE_TYPE_NUM_BYTES K) 109 0 1 2147483647.

(** The database types in the order the module creates them. *)
Definition registered : list DbType :=
  [DB_TYPE_BFILE;
   DB_TYPE_BINARY_DOUBLE;
   DB_TYPE_BINARY_FLOAT;
   DB_TYPE_BINARY_INTEGER;
   DB_TYPE_BLOB;
   DB_TYPE_BOOLEAN;
   DB_TYPE_CHAR;
   DB_TYPE_CLOB;
   DB_TYPE_CURSOR;
   DB_TYPE_DATE;
   DB_TYPE_INTERVAL_DS;
   DB_TYPE_INTERVAL_YM;
   DB_TYPE_JSON;
   DB_TYPE_LONG;
   DB_TYPE_LONG_NVARCHAR;
   DB_TYPE_LONG_RAW;
   DB_TYPE_NCHAR;
   DB_TYPE_NCLOB;
   DB_TYPE_NUMBER;
   DB_TYPE_NVARCHAR;
   DB_TYPE_OBJECT;
   DB_TYPE_RAW;
   DB_TYPE_ROWID;
   DB_TYPE_TIMESTAMP;
   DB_TYPE_TIMESTAMP_LTZ;
   DB_TYPE_TIMESTAMP_TZ;
   DB_TYPE_UNKNOWN;
   DB_TYPE_UROWID;
   DB_TYPE_VARCHAR;
   DB_TYPE_VECTOR;
   DB_TYPE_XMLTYPE].

Fixpoint init_all (l : list DbType) (r : Registry) : Res Registry :=
  match l with
  | [] => Ok r
  | d :: rest =>
      match DbType_init d r with
      | Ok r1 => init_all rest r1
      | Raise e => Raise e
      end
  end.

(* additional aliases *)
Definition add_aliases (r : Registry) : Registry :=
  {| db_type_by_num := db_type_by_num r;
     db_type_by_ora_name :=
       <["SMALLINT"%string := DB_TYPE_NUMBER]>
       (<["REAL"%string := DB_TYPE_NUMBER]>
       (<["PL/SQL PLS INTEGER"%string := DB_TYPE_BINARY_INTEGER]>
       (<["PL/SQL BINARY INTEGER"%string := DB_TYPE_BINARY_INTEGER]>
       (<["PL/SQL BOOLEAN"%string := DB_TYPE_BOOLEAN]>
       (<["INTEGER"%string := DB_TYPE_NUMBER]>
       (<["FLOAT"%string := DB_TYPE_NUMBER]>
       (<["DOUBLE PRECISION"%string := DB_TYPE_NUMBER]>
          (db_type_by_ora_name r))))))));
     db_type_by_ora_type_num := db_type_by_ora_type_num r |}.

(** The registries once the module has been initialized. *)
Definition module_init : Res Registry :=
  match init_all registered empty_registry with
  | Ok r => Ok (add_aliases r)
  | Raise e => Raise e
  end.

(** The slot of [db_type_by_num] a type number is stored in. *)
Definition slot (n : Z) : Z :=
  if negb (n =? 0) then n - DB_TYPE_NUM_MIN K else n.

Definition ora_type_key (d : DbType) : Z :=
  uint16 (_csfrm d * 256 + _ora_type_num d).

End WithConstants.

(** The numbering of the public ODPI-C header, which the driver shares:
    a sample assignment of the constants. *)
Definition odpi_constants : BaseConstants :=
  {| DB_TYPE_NUM_MIN := 2000; DB_TYPE_NUM_MAX := 2033;
     DB_TYPE_NUM_BFILE := 2020; DB_TYPE_NUM_BINARY_DOUBLE := 2008;
     DB_TYPE_NUM_BINARY_FLOAT := 2007; DB_TYPE_NUM_BINARY_INTEGER := 2009;
     DB_TYPE_NUM_BLOB := 2019; DB_TYPE_NUM_BOOLEAN := 2022;
     DB_TYPE_NUM_CHAR := 2003; DB_TYPE_NUM_CLOB := 2017;
     DB_TYPE_NUM_CURSOR := 2021; DB_TYPE_NUM_DATE := 2011;
     DB_TYPE_NUM_INTERVAL_DS := 2015; DB_TYPE_NUM_INTERVAL_YM := 2016;
     DB_TYPE_NUM_JSON := 2027; DB_TYPE_NUM_LONG_VARCHAR := 2024;
     DB_TYPE_NUM_LONG_NVARCHAR := 2031; DB_TYPE_NUM_LONG_RAW := 2025;
     DB_TYPE_NUM_NCHAR := 2004; DB_TYPE_NUM_NCLOB := 2018;
     DB_TYPE_NUM_NUMBER := 2010; DB_TYPE_NUM_NVARCHAR := 2002;
     DB_TYPE_NUM_OBJECT := 2023; DB_TYPE_NUM_RAW := 2006;
     DB_TYPE_NUM_ROWID := 2005; DB_TYPE_NUM_TIMESTAMP := 2012;
     DB_TYPE_NUM_TIMESTAMP_LTZ := 2014; DB_TYPE_NUM_TIMESTAMP_TZ := 2013;
     DB_TYPE_NUM_UNKNOWN := 0; DB_TYPE_NUM_UROWID := 2030;
     DB_TYPE_NUM_VARCHAR := 2001; DB_TYPE_NUM_VECTOR := 2033;
     DB_TYPE_NUM_XMLTYPE := 2032;
     NATIVE_TYPE_NUM_LOB := 3008; NATIVE_TYPE_NUM_DOUBLE := 3003;
     NATIVE_TYPE_NUM_FLOAT := 3002; NATIVE_TYPE_NUM_INT64 := 3000;
     NATIVE_TYPE_NUM_BOOLEAN := 3011; NATIVE_TYPE_NUM_BYTES := 3004;
     NATIVE_TYPE_NUM_STMT := 3010; NATIVE_TYPE_NUM_TIMESTAMP := 3005;
     NATIVE_TYPE_NUM_INTERVAL_DS := 3006;
     NATIVE_TYPE_NUM_INTERVAL_YM := 3007; NATIVE_TYPE_NUM_JSON := 3013;
     NATIVE_TYPE_NUM_OBJECT := 3009; NATIVE_TYPE_NUM_ROWID := 3012;
     NATIVE_TYPE_NUM_VECTOR := 3017 |}.

End Types.

(** ** Vocabulary of the statements *)

(** What [_break_external] sends when it sends something. *)
Definition the_break (w : World) : WireEvent :=
  if supports_oob (_caps (proto w)) then WOobBreak
  else WPacket FreshBuffer TNS_PACKET_TYPE_MARKER 0
         [1; 0; TNS_MARKER_TYPE_INTERRUPT].

(** [shrinks c]: [c] never adds to what the peer is going to deliver;
    [consumes c]: when [c] returns, it has taken at least one packet. *)
Definition shrinks {A} (c : M A) : Prop :=
  forall w, (length (incoming (c w).1) <= length (incoming w))%nat.

Definition consumes {A} (c : M A) : Prop :=
  forall w w' a, c w = (w', Ok a) ->
                 (length (incoming w') < length (incoming w))%nat.

(** A RESET marker packet, as the first loop of [_reset] recognizes it. *)
Definition is_reset_marker (p : Packet) : bool :=
  is_marker p && (byte_at p 2 =? TNS_MARKER_TYPE_RESET).

(** The text [_receive_packet] takes from a REFUSE packet. *)
Definition refuse_text (p : Packet) : option string :=
  if read_uint16_at p 2 =? 0 then None
  else Some (decode (read_raw_bytes_at p 4 (read_uint16_at p 2))).

(** ** A sample environment and sample states

    One instance of the parts outside the sources, small enough to run the
    engine on concrete exchanges: a request is one packet; a DATA response
    that starts with the ERROR message type (4) carries an error number in
    two bytes and a retry flag; a DATA response that starts with 28 asks
    the cookie message to renegotiate; one that starts with 99 cannot be
    decoded. *)

Definition encode (s : string) : list Z :=
  List.map (fun c => Z.of_N (N_of_ascii c)) (list_ascii_of_string s).

Definition with_error (n : Z) (r : bool) (m : Message) : Message :=
  {| error_info := {| num := n; pos := pos (error_info m);
                      message := message (error_info m) |};
     error_occurred := true; retry := r;
     resend := resend m; flush_out_binds := flush_out_binds m;
     call_status := call_status m; host := host m; port := port m;
     connect_string_bytes := connect_string_bytes m;
     connect_string_len := connect_string_len m;
     msg_packet_flags := msg_packet_flags m;
     redirect_data := redirect_data m; cookie := cookie m;
     server_version := server_version m;
     server_banner := server_banner m; server_flags := server_flags m;
     server_compile_caps := server_compile_caps m;
     server_runtime_caps := server_runtime_caps m; warning := warning m;
     protocol_message := protocol_message m;
     data_types_message := data_types_message m;
     auth_message := auth_message m |}.

Definition with_redirect_and_cookie (rd : option string) (ck : option nat)
    (m : Message) : Message :=
  {| error_info := error_info m;
     error_occurred := error_occurred m; retry := retry m;
     resend := resend m; flush_out_binds := flush_out_binds m;
     call_status := call_status m; host := host m; port := port m;
     connect_string_bytes := connect_string_bytes m;
     connect_string_len := connect_string_len m;
     msg_packet_flags := msg_packet_flags m;
     redirect_data := rd; cookie := ck;
     server_version := server_version m;
     server_banner := server_banner m; server_flags := server_flags m;
     server_compile_caps := server_compile_caps m;
     server_runtime_caps := server_runtime_caps m; warning := warning m;
     protocol_message := protocol_message m;
     data_types_message := data_types_message m;
     auth_message := auth_message m |}.

Definition unpopulate (c : ConnectionCookie) : ConnectionCookie :=
  {| ck_protocol_version := ck_protocol_version c;
     ck_server_banner := ck_server_banner c;
     ck_charset_id := ck_charset_id c; ck_ncharset_id := ck_ncharset_id c;
     ck_flags := ck_flags c; ck_compile_caps := ck_compile_caps c;
     ck_runtime_caps := ck_runtime_caps c; populated := false |}.

Definition sample_send (i : MsgId) (h : Heap) (buf : WriteBuffer)
  : Heap * WriteBuffer * list WireEvent * option Exn :=
  match i with
  | ConnectMsg =>
      (h, set_packet_sent true buf,
       [WPacket (wb_name buf) TNS_PACKET_TYPE_CONNECT
          (msg_packet_flags (msgs h i))
          (encode (connect_string_bytes (msgs h i)))], None)
  | _ =>
      (h, set_packet_sent true buf,
       [WPacket (wb_name buf) TNS_PACKET_TYPE_DATA 0 [3]], None)
  end.

Definition sample_process (i : MsgId) (h : Heap) (rb : ReadBuffer)
  : Heap * option Exn :=
  let p := _current_packet rb in
  if packet_type p =? TNS_PACKET_TYPE_REDIRECT then
    (set_msg i (with_redirect_and_cookie (Some (decode (payload p))) None
                  (msgs h i)) h, None)
  else if packet_type p =? TNS_PACKET_TYPE_ACCEPT then
    (set_msg i (with_redirect_and_cookie None (Some 0%nat) (msgs h i)) h,
     None)
  else if packet_type p =? TNS_PACKET_TYPE_REFUSE then
    (h, Some (OtherException 1))
  else if byte_at p 0 =? 99 then
    (h, Some (OtherException 7))
  else if byte_at p 0 =? 4 then
    (set_msg i (with_error (read_uint16_at p 1) (byte_at p 3 =? 1)
                  (msgs h i)) h, None)
  else if (byte_at p 0 =? 28) && bool_decide (i = CookieMsg) then
    match cookie (msgs h i) with
    | Some a => (set_cookie a (unpopulate (cookies h a)) h, None)
    | None => (h, None)
    end
  else (h, None).

Definition sample_constants : Constants :=
  {| TNS_MSG_TYPE_FLUSH_OUT_BINDS := 19;
     TNS_PACKET_FLAG_REDIRECT := 4;
     TNS_PACKET_FLAG_TLS_RENEG := 8;
     TNS_TXN_IN_PROGRESS := 2;
     TNS_VERSION_MIN_ACCEPTED := 315;
     TNS_VERSION_MIN_OOB_CHECK := 318 |}.

Definition sample_env : Env :=
  {| consts := sample_constants;
     codec_send := sample_send;
     codec_process := sample_process;
     auth_set_params := fun m => m;
     is_session_dead := fun e =>
       bool_decide (err_code e ∈ [3113; 3114; 12751; 12571]);
     get_exception_class := fun n =>
       if bool_decide (n ∈ [3113; 3114; 12751; 12571]) then OperationalError
       else if n =? 1 then IntegrityError else DatabaseError;
     parse_connect_string := fun s =>
       if String.eqb s "(DESCRIPTION=(ADDRESS=(HOST=h2)(PORT=1521)))"
       then Ok ("h2"%string, 1521) else Raise (OtherException 2);
     create_connection := fun _ _ => None;
     proxy_replies_200 := fun _ _ => true;
     platform_is_win32 := false |}.

Definition blank_cookie : ConnectionCookie :=
  {| ck_protocol_version := 0; ck_server_banner := ""; ck_charset_id := 0;
     ck_ncharset_id := 0; ck_flags := 0; ck_compile_caps := [];
     ck_runtime_caps := []; populated := false |}.

Definition sample_cookie : ConnectionCookie :=
  {| ck_protocol_version := 319; ck_server_banner := "banner";
     ck_charset_id := 873; ck_ncharset_id := 2000; ck_flags := 1;
     ck_compile_caps := [6]; ck_runtime_caps := [2]; populated := true |}.

(** An open connection past the connect phase, nothing in flight; the
    arguments are the break flag, OOB support and what the peer sends. *)
Definition sample_world (bip oob : bool) (inc : list RecvEvent) : World :=
  {| proto :=
       {| _transport := Some TheTransport;
          _caps := {| protocol_version := 319; sdu := 8192;
                      charset_id := 873; ncharset_id := 2000;
                      supports_oob := oob;
                      supports_end_of_request := false |};
          _read_buf := {| rb_transport := Some TheTransport;
                          _current_packet :=
                            {| packet_type := TNS_PACKET_TYPE_DATA;
                               packet_flags := 0; payload := [] |} |};
          _write_buf := {| wb_name := RegularBuffer;
                           wb_transport := Some TheTransport;
                           _packet_sent := false; wb_packet_type := 0;
                           wb_packet_flags := 0; wb_data := [] |};
          _in_connect := false; _txn_in_progress := false;
          _break_in_progress := bip |};
     transport_obj := {| sock_open := true; _max_packet_size := 8192 |};
     wire := [];
     incoming := inc;
     heap := {| msgs := fun _ => blank_message;
                cookies := fun _ => blank_cookie;
                conn_impl_warning := None |} |}.

Definition data_packet (bytes : list Z) : Packet :=
  {| packet_type := TNS_PACKET_TYPE_DATA; packet_flags := 0;
     payload := bytes |}.

Definition marker (marker_type : Z) : Packet :=
  {| packet_type := TNS_PACKET_TYPE_MARKER; packet_flags := 0;
     payload := [1; 0; marker_type] |}.

(** A protocol as [__init__] leaves it: connect in progress, no socket. *)
Definition fresh_world (inc : list RecvEvent) : World :=
  with_transport_obj
    (fun t => {| sock_open := false; _max_packet_size := _max_packet_size t |})
    (with_proto (set_in_connect true) (sample_world false false inc)).

Definition sample_params : ConnectParamsImpl :=
  {| disable_oob := false; _token := None; access_token_callback := false |}.

Definition sample_address (protocol : string) : Address :=
  {| addr_host := "h1"; addr_port := 1521; protocol := protocol;
     https_proxy := None; https_proxy_port := 0 |}.

(** A REDIRECT packet with no packet flag set, its payload the new connect
    string, a NUL and the original one; and an ACCEPT packet. *)
Definition redirect_packet : Packet :=
  {| packet_type := TNS_PACKET_TYPE_REDIRECT; packet_flags := 0;
     payload := encode "(DESCRIPTION=(ADDRESS=(HOST=h2)(PORT=1521)))"
                ++ [0] ++ encode "original" |}.

Definition accept_packet : Packet :=
  {| packet_type := TNS_PACKET_TYPE_ACCEPT; packet_flags := 0;
     payload := [] |}.

(** What one looks at after [_connect_phase_one]: the result, what went
    over the wire, and the packet flags of the last connect message. *)
Definition phase_one_observed (r : option (World * Res (option nat)))
  : option (Res (option nat) * list WireEvent * Z) :=
  match r with
  | Some (w', res) =>
      Some (res, wire w', msg_packet_flags (msgs (heap w') ConnectMsg))
  | None => None
  end.

(** [keeps c]: [c] leaves every connection cookie as it is. *)
Definition keeps {A} (c : M A) : Prop :=
  forall w, cookies (heap (c w).1) = cookies (heap w).

(** The codecs of an environment never write to a cookie. *)
Definition codecs_keep_cookies (E : Env) : Prop :=
  (forall i h buf, cookies (codec_send E i h buf).1.1.1 = cookies h)
  /\ (forall i h rb, cookies (codec_process E i h rb).1 = cookies h).

(** A connection in its connect phase that holds the sample cookie at
    address 0. *)
Definition world_with_cookie (inc : list RecvEvent) : World :=
  let w := fresh_world inc in
  set_heap (set_cookie 0 sample_cookie (heap w)) w.

(** An environment like the sample one whose codecs only send and never
    look at the response. *)
Definition quiet_env : Env :=
  {| consts := sample_constants;
     codec_send := sample_send;
     codec_process := fun _ h _ => (h, None);
     auth_set_params := fun m => m;
     is_session_dead := is_session_dead sample_env;
     get_exception_class := get_exception_class sample_env;
     parse_connect_string := parse_connect_string sample_env;
     create_connection := fun _ _ => None;
     proxy_replies_200 := fun _ _ => true;
     platform_is_win32 := false |}.

(** [wrote_once a w w']: from [w] to [w'] no cookie but the one at [a]
    has changed, and that one is as it was or, having been unpopulated,
    has been written (all fields, [populated] set). *)
Definition wrote_once (a : nat) (w w' : World) : Prop :=
  (forall b, b <> a -> cookies (heap w') b = cookies (heap w) b)
  /\ (cookies (heap w') a = cookies (heap w) a
      \/ (populated (cookies (heap w) a) = false
          /\ populated (cookies (heap w') a) = true
          /\ exists pm caps, cookies (heap w') a = populate pm caps)).

(** [preserves f c]: [c] leaves the observation [f] of the state as it
    is, however it ends. *)
Definition preserves {X A} (f : World -> X) (c : M A) : Prop :=
  forall w, f (c w).1 = f w.

(** Whether the connect phase is still in progress. *)
Definition in_connect (w : World) : bool := _in_connect (proto w).

(** [Protocol._process_single_message]. The request lock orders whole
    calls and does not show in one sequential run; [message.postprocess()]
    is the message's own method ([messages.pyx] is not among the sources)
    and is taken as given. *)
Definition _process_single_message (E : Env)
    (postprocess : MsgId -> M unit) (message : MsgId) : M unit :=
  _process_message E message ;;;
  (fun w =>
     if resend (msgs (heap w) message) then _process_message E message w
     else (w, Ok tt)) ;;;
  postprocess message.

(** ** [utils.pyx]: rowids and the version number *)

Module UtilsMore.

(** How many times a character occurs in a string. *)
Fixpoint count_char (c : ascii) (s : string) : nat :=
  match s with
  | EmptyString => 0
  | String a rest => (if Ascii.eqb a c then 1 else 0) + count_char c rest
  end.

(** The C struct [Rowid] ([base_impl.pxd]): two 32-bit and two 16-bit
    unsigned fields. *)
Record Rowid := {
  rba : Z;
  partition_id : Z;
  block_num : Z;
  slot_num : Z
}.

Definition in_range (r : Rowid) : Prop :=
  0 <= rba r < 2 ^ 32 /\ 0 <= partition_id r < 2 ^ 16
  /\ 0 <= block_num r < 2 ^ 32 /\ 0 <= slot_num r < 2 ^ 16.

Section Base64.

(** [TNS_BASE64_ALPHABET_ARRAY] of the thin [constants.pxi], which is
    outside the sources: an array of 64 characters. *)
Variable TNS_BASE64_ALPHABET_ARRAY : list Z.

Definition alphabet_at (i : Z) : Z :=
  default 0 (TNS_BASE64_ALPHABET_ARRAY !! Z.to_nat i).

(** [for i in range(size):] with [n] iterations to go, the next one for
    [i]; buffers are C arrays, here lists of bytes. *)
Fixpoint _convert_base64_loop (n : nat) (i : Z) (buf : list Z)
    (value size offset : Z) : list Z :=
  match n with
  | O => buf
  | S n' =>
      _convert_base64_loop n' (i + 1)
        (<[Z.to_nat (offset + size - i - 1)
           := alphabet_at (Z.land value 63)]> buf)
        (Z.shiftr value 6) size offset
  end.

(** [_convert_base64(buf, value, size, offset)]: the buffer afterwards and
    the value returned. *)
Definition _convert_base64 (buf : list Z) (value size offset : Z)
  : list Z * Z :=
  (_convert_base64_loop (Z.to_nat size) 0 buf value size offset,
   offset + size).

(** [_encode_rowid(rowid)]; [buf] is what the local array, which is not
    initialized, holds when the function starts, and
    [TNS_MAX_ROWID_LENGTH] is the constant of that name. *)
Definition _encode_rowid (TNS_MAX_ROWID_LENGTH : Z) (buf : list Z)
    (rowid : Rowid) : option string :=
  let offset := 0 in
  if negb (rba rowid =? 0) || negb (partition_id rowid =? 0)
     || negb (block_num rowid =? 0) || negb (slot_num rowid =? 0)
  then
    let '(buf, offset) := _convert_base64 buf (rba rowid) 6 offset in
    let '(buf, offset) := _convert_base64 buf (partition_id rowid) 3 offset in
    let '(buf, offset) := _convert_base64 buf (block_num rowid) 6 offset in
    let '(buf, offset) := _convert_base64 buf (slot_num rowid) 3 offset in
    Some (decode (take (Z.to_nat TNS_MAX_ROWID_LENGTH) buf))
  else None.

(** An alphabet as the encoding needs it: 64 different byte values. *)
Definition good_alphabet : Prop :=
  length TNS_BASE64_ALPHABET_ARRAY = 64%nat
  /\ NoDup TNS_BASE64_ALPHABET_ARRAY
  /\ Forall (fun b => 0 <= b < 256) TNS_BASE64_ALPHABET_ARRAY.

End Base64.

(** The alphabet of base 64, "A" to "Z", "a" to "z", "0" to "9", "+" and
    "/": a sample value of the array. *)
Definition base64_alphabet : list Z :=
  encode "ABCDEFGHIJKLMNOPQRSTUVWXYZabcdefghijklmnopqrstuvwxyz0123456789+/".

(** [major_num << 24 | minor_num << 20 | patch_num << 12] of
    [ConnectConstants.__init__], on the three numbers the pattern
    extracts from [VERSION]. *)
Definition full_version_num (major_num minor_num patch_num : Z) : Z :=
  Z.lor (Z.lor (Z.shiftl major_num 24) (Z.shiftl minor_num 20))
        (Z.shiftl patch_num 12).

End UtilsMore.

(** * Properties *)

(** ** The registries of database types *)

Section TypesFacts.

Import Types.

Variable K : BaseConstants.

Lemma list_setitem_length {A} (l l' : list A) i x :
  list_setitem l i x = Ok l' -> length l' = length l.
Proof.
  unfold list_setitem. case_match; [|discriminate].
  intros [= <-]. apply length_insert.
Qed.

Lemma DbType_init_length d r r' :
  DbType_init K d r = Ok r' ->
  length (db_type_by_num r') = length (db_type_by_num r).
Proof.
  unfold DbType_init.
  destruct (list_setitem _ _ _) as [l|e] eqn:Hset; [|discriminate].
  intros [= <-]. simpl. eauto using list_setitem_length.
Qed.

Lemma init_all_length l r r' :
  init_all K l r = Ok r' ->
  length (db_type_by_num r') = length (db_type_by_num r).
Proof.
  revert r. induction l as [|d l IH]; simpl; intros r.
  - by intros [= <-].
  - destruct (DbType_init K d r) as [r1|e] eqn:Hd; [|discriminate].
    intros Hrest. rewrite (IH _ Hrest). eauto using DbType_init_length.
Qed.

Lemma module_init_length r :
  module_init K = Ok r ->
  length (db_type_by_num r)
  = Z.to_nat (DB_TYPE_NUM_MAX K - DB_TYPE_NUM_MIN K + 1).
Proof.
  unfold module_init.
  destruct (init_all K (registered K) (empty_registry K)) as [r1|e] eqn:Hi;
    [|discriminate].
  intros [= <-]. simpl. rewrite (init_all_length _ _ _ Hi). simpl.
  apply length_replicate.
Qed.

Lemma list_setitem_Ok {A} (l l' : list A) i x :
  list_setitem l i x = Ok l' -> 0 <= i ->
  i < Z.of_nat (length l) /\ l' = <[Z.to_nat i := x]> l.
Proof.
  unfold list_setitem. intros H Hpos.
  destruct (i <? 0) eqn:Hneg; [lia|].
  destruct ((0 <=? i) && (i <? Z.of_nat (length l))) eqn:Hr; [|discriminate].
  injection H as <-. split; [lia|done].
Qed.

Lemma DbType_init_Ok d r r' :
  DbType_init K d r = Ok r' -> 0 <= slot K (num d) ->
  slot K (num d) < Z.of_nat (length (db_type_by_num r))
  /\ db_type_by_num r'
     = <[Z.to_nat (slot K (num d)) := Some d]> (db_type_by_num r)
  /\ db_type_by_ora_type_num r'
     = <[ora_type_key d := d]> (db_type_by_ora_type_num r).
Proof.
  unfold DbType_init. fold (slot K (num d)). fold (ora_type_key d).
  destruct (list_setitem _ _ _) as [l|e] eqn:Hset; [|discriminate].
  intros [= <-] Hpos. simpl.
  destruct (list_setitem_Ok _ _ _ _ Hset Hpos) as [Hlt ->]. done.
Qed.

(** Registering a type leaves the entries of the other slots and keys as
    they are. *)
Lemma DbType_init_other d r r' :
  DbType_init K d r = Ok r' -> 0 <= slot K (num d) ->
  (forall i, i <> Z.to_nat (slot K (num d)) ->
             db_type_by_num r' !! i = db_type_by_num r !! i)
  /\ (forall k, k <> ora_type_key d ->
                db_type_by_ora_type_num r' !! k
                = db_type_by_ora_type_num r !! k).
Proof.
  intros Hd Hpos. destruct (DbType_init_Ok _ _ _ Hd Hpos) as (_ & -> & ->).
  split.
  - intros i Hi. by rewrite list_lookup_insert_ne.
  - intros k Hk. by rewrite lookup_insert_ne.
Qed.

Lemma DbType_init_self d r r' :
  DbType_init K d r = Ok r' -> 0 <= slot K (num d) ->
  db_type_by_num r' !! Z.to_nat (slot K (num d)) = Some (Some d)
  /\ db_type_by_ora_type_num r' !! ora_type_key d = Some d.
Proof.
  intros Hd Hpos. destruct (DbType_init_Ok _ _ _ Hd Hpos) as (Hlt & -> & ->).
  split.
  - apply list_lookup_insert_eq. lia.
  - apply lookup_insert_eq.
Qed.

Lemma init_all_other l : forall r r',
  init_all K l r = Ok r' ->
  Forall (fun d => 0 <= slot K (num d)) l ->
  (forall i, i ∉ (fun d => Z.to_nat (slot K (num d))) <$> l ->
             db_type_by_num r' !! i = db_type_by_num r !! i)
  /\ (forall k, k ∉ ora_type_key <$> l ->
                db_type_by_ora_type_num r' !! k
                = db_type_by_ora_type_num r !! k).
Proof.
  induction l as [|d l IH]; simpl; intros r r'.
  - by intros [= <-].
  - destruct (DbType_init K d r) as [r1|e] eqn:Hd; [|discriminate].
    intros Hrest Hpos. inversion_clear Hpos as [|? ? Hd0 Hl0].
    destruct (IH _ _ Hrest Hl0) as [IH1 IH2].
    destruct (DbType_init_other _ _ _ Hd Hd0) as [Ho1 Ho2].
    split.
    + intros i Hi. rewrite not_elem_of_cons in Hi. destruct Hi as [Hne Hi].
      rewrite IH1 by done. by apply Ho1.
    + intros k Hk. rewrite not_elem_of_cons in Hk. destruct Hk as [Hne Hk].
      rewrite IH2 by done. by apply Ho2.
Qed.

(** After a run of registrations with pairwise different slots and keys,
    every type of the run is found under its slot and under its key. *)
Lemma init_all_lookup l : forall r r',
  init_all K l r = Ok r' ->
  Forall (fun d => 0 <= slot K (num d)) l ->
  NoDup ((fun d => Z.to_nat (slot K (num d))) <$> l) ->
  NoDup (ora_type_key <$> l) ->
  forall d, d ∈ l ->
    db_type_by_num r' !! Z.to_nat (slot K (num d)) = Some (Some d)
    /\ db_type_by_ora_type_num r' !! ora_type_key d = Some d.
Proof.
  induction l as [|d0 l IH]; simpl; intros r r' Hinit Hpos Hnd1 Hnd2 d Hin.
  - by apply elem_of_nil in Hin.
  - destruct (DbType_init K d0 r) as [r1|e] eqn:Hd; [|discriminate].
    inversion_clear Hpos as [|? ? Hd0 Hl0].
    apply NoDup_cons in Hnd1 as [Hn1 Hnd1].
    apply NoDup_cons in Hnd2 as [Hn2 Hnd2].
    apply elem_of_cons in Hin as [->|Hin].
    + destruct (init_all_other _ _ _ Hinit Hl0) as [Ho1 Ho2].
      rewrite Ho1, Ho2 by done. by eapply DbType_init_self.
    + by apply (IH r1 r').
Qed.

(** Round trip by type number and by Oracle type number and charset form,
    for constants that give the registered types different slots inside
    the list. *)
Lemma registered_round_trip r d :
  0 <= DB_TYPE_NUM_MIN K -> DB_TYPE_NUM_MAX K < 4294967296 ->
  Forall (fun d => num d = 0
                   \/ DB_TYPE_NUM_MIN K <= num d <= DB_TYPE_NUM_MAX K)
         (registered K) ->
  NoDup ((fun d => slot K (num d)) <$> registered K) ->
  module_init K = Ok r ->
  d ∈ registered K ->
  _from_num K r (num d) = Ok (Some d)
  /\ _from_ora_type_and_csfrm r (_ora_type_num d) (_csfrm d) = Ok d.
Proof.
  intros Hmin Hmax Hrange Hslots Hinit Hin. unfold module_init in Hinit.
  destruct (init_all K (registered K) (empty_registry K)) as [r1|e] eqn:Hi;
    [|discriminate].
  injection Hinit as <-.
  assert (Hpos : Forall (fun d => 0 <= slot K (num d)) (registered K)).
  { eapply Forall_impl; [exact Hrange|]. intros x Hx. unfold slot.
    simpl in Hx. destruct (Z.eqb_spec (num x) 0); simpl; lia. }
  assert (Hnd1 : NoDup ((fun d => Z.to_nat (slot K (num d)))
                          <$> registered K)).
  { rewrite Forall_forall in Hpos.
    clear -Hslots Hpos. induction (registered K) as [|x l IH]; simpl.
    - constructor.
    - simpl in Hslots. apply NoDup_cons in Hslots as [Hx Hl].
      apply NoDup_cons. split.
      + intros Hbad. apply Hx. apply list_elem_of_fmap in Hbad
          as (y & Heq & Hy). apply list_elem_of_fmap. exists y. split; [|done].
        assert (0 <= slot K (num x)) by (apply Hpos; by left).
        assert (0 <= slot K (num y)) by (apply Hpos; by right). lia.
      + apply IH; [done|]. intros y Hy. apply Hpos. by right. }
  assert (Hnd2 : NoDup (ora_type_key <$> registered K)).
  { set (keys := ora_type_key <$> registered K). vm_compute in keys.
    subst keys. apply (bool_decide_unpack _). vm_compute. exact I. }
  destruct (init_all_lookup _ _ _ Hi Hpos Hnd1 Hnd2 d Hin) as [H1 H2].
  rewrite Forall_forall in Hrange. specialize (Hrange d Hin).
  split.
  - unfold _from_num, list_getitem. simpl.
    replace (if negb (num d =? 0)
             then uint32 (num d - DB_TYPE_NUM_MIN K) else num d)
      with (slot K (num d)).
    + by rewrite H1.
    + unfold slot, uint32. destruct (Z.eqb_spec (num d) 0); simpl; [done|].
      rewrite Z.mod_small; lia.
  - unfold _from_ora_type_and_csfrm, dict_getitem. simpl.
    fold (ora_type_key d). by rewrite H2.
Qed.

(** A key no type was registered under, by Oracle type number and charset
    form: the dict raises [KeyError] and the function turns it into
    [ERR_ORACLE_TYPE_NOT_SUPPORTED]. *)
Lemma from_ora_type_unregistered r ora_type_num csfrm :
  db_type_by_ora_type_num r !! uint16 (csfrm * 256 + ora_type_num) = None ->
  _from_ora_type_and_csfrm r ora_type_num csfrm
  = Raise (DriverError ERR_ORACLE_TYPE_NOT_SUPPORTED).
Proof.
  intros H. unfold _from_ora_type_and_csfrm, dict_getitem. by rewrite H.
Qed.

(** C9 (the code departs from it). [_from_num] indexes a list, which raises
    [IndexError], not the [KeyError] its handler waits for: for the first
    number past [DB_TYPE_NUM_MAX], under which no type can have been
    registered, the lookup ends in [IndexError] and not in
    [ERR_ORACLE_TYPE_NOT_SUPPORTED]. *)
Theorem from_num_past_max_raises_IndexError r :
  0 <= DB_TYPE_NUM_MIN K <= DB_TYPE_NUM_MAX K ->
  DB_TYPE_NUM_MAX K + 1 < 4294967296 ->
  module_init K = Ok r ->
  _from_num K r (DB_TYPE_NUM_MAX K + 1) = Raise IndexError.
Proof.
  intros Hmin Hmax Hinit. apply module_init_length in Hinit.
  unfold _from_num, list_getitem.
  destruct (Z.eqb_spec (DB_TYPE_NUM_MAX K + 1) 0); [lia|]. simpl.
  unfold uint32. rewrite Z.mod_small by lia.
  rewrite lookup_ge_None_2; [done|]. rewrite Hinit. lia.
Qed.

End TypesFacts.

Lemma from_num_past_max_raises_IndexError_witness :
  exists r,
    Types.module_init Types.odpi_constants = Ok r
    /\ Types._from_num Types.odpi_constants r 2034 = Raise IndexError.
Proof.
  eexists. split.
  - vm_compute. reflexivity.
  - apply (from_num_past_max_raises_IndexError Types.odpi_constants);
      [vm_compute; split; discriminate | reflexivity | vm_compute; reflexivity].
Defined.

(** With the sample numbering, a number in range that no type uses is
    answered with [None]. *)
Lemma from_num_hole_returns_None :
  match Types.module_init Types.odpi_constants with
  | Ok r => Types._from_num Types.odpi_constants r 2026
  | Raise e => Raise e
  end = Ok None.
Proof. vm_compute. reflexivity. Qed.

(** With the sample numbering every registered type round-trips. *)
Example odpi_round_trip r d :
  Types.module_init Types.odpi_constants = Ok r ->
  d ∈ Types.registered Types.odpi_constants ->
  Types._from_num Types.odpi_constants r (Types.num d) = Ok (Some d)
  /\ Types._from_ora_type_and_csfrm r (Types._ora_type_num d)
       (Types._csfrm d) = Ok d.
Proof.
  apply registered_round_trip.
  - discriminate.
  - reflexivity.
  - apply (bool_decide_unpack _). vm_compute. exact I.
  - apply (bool_decide_unpack _). vm_compute. exact I.
Qed.

(** ** [BaseProtocol]: break and force-close *)

(** The one marker packet [_send_marker] writes. *)
Lemma _send_marker_buf_spec caps buf marker_type :
  _send_marker_buf caps buf marker_type
  = ({| wb_name := wb_name buf; wb_transport := wb_transport buf;
        _packet_sent := true; wb_packet_type := TNS_PACKET_TYPE_MARKER;
        wb_packet_flags := 0; wb_data := [] |},
     [WPacket (wb_name buf) TNS_PACKET_TYPE_MARKER 0 [1; 0; marker_type]]).
Proof.
  unfold _send_marker_buf, end_request. simpl.
  by rewrite andb_false_r.
Qed.

Lemma _break_external_spec w :
  _break_external w
  = (if _break_in_progress (proto w) then w
     else emit [the_break w] (with_proto (set_break_in_progress true) w),
     Ok tt).
Proof.
  unfold _break_external, the_break.
  destruct (_break_in_progress (proto w)); simpl; [done|].
  unfold bind, modify. simpl.
  destruct (supports_oob (_caps (proto w))); [done|].
  unfold _send_marker_fresh. by rewrite _send_marker_buf_spec.
Qed.

(** C7. [_break_external] while a break is in progress sends nothing and
    leaves the whole state as it is; otherwise it sets [_break_in_progress]
    and puts exactly one break on the wire: the urgent byte when the
    capabilities support OOB, else an INTERRUPT marker packet written
    through a fresh buffer, the connection's own write buffer (and
    everything else) staying as it was. A second call changes nothing
    more. *)
Theorem break_external_idempotent w :
  let w' := (_break_external w).1 in
  (_break_external w).2 = Ok tt
  /\ (if _break_in_progress (proto w) then w' = w
      else _break_in_progress (proto w') = true
           /\ wire w'
              = wire w
                ++ [if supports_oob (_caps (proto w)) then WOobBreak
                    else WPacket FreshBuffer TNS_PACKET_TYPE_MARKER 0
                           [1; 0; TNS_MARKER_TYPE_INTERRUPT]]
           /\ _write_buf (proto w') = _write_buf (proto w)
           /\ _read_buf (proto w') = _read_buf (proto w)
           /\ _transport (proto w') = _transport (proto w)
           /\ _caps (proto w') = _caps (proto w)
           /\ _in_connect (proto w') = _in_connect (proto w)
           /\ _txn_in_progress (proto w') = _txn_in_progress (proto w)
           /\ transport_obj w' = transport_obj w
           /\ incoming w' = incoming w
           /\ heap w' = heap w)
  /\ _break_external w' = (w', Ok tt).
Proof.
  simpl. rewrite !_break_external_spec. simpl.
  destruct (_break_in_progress (proto w)) eqn:Hb; simpl.
  - by rewrite Hb.
  - unfold the_break. repeat split; reflexivity.
Qed.

Lemma _force_close_spec w :
  _force_close w
  = (match _transport (proto w) with
     | Some _ =>
         emit [WDisconnect]
           (with_transport_obj
              (fun t => {| sock_open := false;
                           _max_packet_size := _max_packet_size t |})
              (with_proto (fun p =>
                 set_write_buf (set_wb_transport None (_write_buf p))
                   (set_read_buf (set_rb_transport None (_read_buf p))
                      (set_transport None p))) w))
     | None => w
     end, Ok tt).
Proof. unfold _force_close. by destruct (_transport (proto w)). Qed.

(** ** What the engine takes from the peer *)

Lemma shrinks_ret {A} (a : A) : shrinks (ret a).
Proof. intros w. simpl. lia. Qed.

Lemma shrinks_raise {A} e : shrinks (@raise A e).
Proof. intros w. simpl. lia. Qed.

Lemma shrinks_modify f :
  (forall w, incoming (f w) = incoming w) -> shrinks (modify f).
Proof. intros H w. simpl. rewrite H. lia. Qed.

Lemma shrinks_bind {A B} (c : M A) (k : A -> M B) :
  shrinks c -> (forall a, shrinks (k a)) -> shrinks (bind c k).
Proof.
  intros Hc Hk w. unfold bind. specialize (Hc w).
  destruct (c w) as [w1 [a|e]]; simpl in *; [|done].
  specialize (Hk a w1). lia.
Qed.

Lemma shrinks_try_except {A} (c : M A) sel h :
  shrinks c -> (forall e, shrinks (h e)) -> shrinks (try_except c sel h).
Proof.
  intros Hc Hh w. unfold try_except. specialize (Hc w).
  destruct (c w) as [w1 [a|e]]; simpl in *; [done|].
  destruct (sel e); simpl; [|done]. specialize (Hh e w1). lia.
Qed.

Lemma shrinks_if {A} (b : World -> bool) (c1 c2 : M A) :
  shrinks c1 -> shrinks c2 -> shrinks (fun w => if b w then c1 w else c2 w).
Proof. intros H1 H2 w. destruct (b w); [apply H1 | apply H2]. Qed.

Lemma consumes_bind_l {A B} (c : M A) (k : A -> M B) :
  consumes c -> (forall a, shrinks (k a)) -> consumes (bind c k).
Proof.
  intros Hc Hk w w' b. unfold bind.
  destruct (c w) as [w1 [a|e]] eqn:Hcw; [|discriminate].
  intros Hkw. specialize (Hc _ _ _ Hcw). specialize (Hk a w1).
  rewrite Hkw in Hk. simpl in Hk. lia.
Qed.

Lemma consumes_bind_r {A B} (c : M A) (k : A -> M B) :
  shrinks c -> (forall a, consumes (k a)) -> consumes (bind c k).
Proof.
  intros Hc Hk w w' b. unfold bind. specialize (Hc w).
  destruct (c w) as [w1 [a|e]] eqn:Hcw; [|discriminate].
  intros Hkw. specialize (Hk _ _ _ _ Hkw). simpl in Hc. lia.
Qed.

Lemma consumes_raise {A} e : consumes (@raise A e).
Proof. intros w w' a. discriminate. Qed.

Lemma recv_length inc :
  (length (recv inc).1 <= length inc)%nat
  /\ forall p, (recv inc).2 = Ok p -> (length (recv inc).1 < length inc)%nat.
Proof.
  destruct inc as [|[p|e] rest]; simpl; split; try lia; intros; try lia;
    discriminate.
Qed.

Lemma shrinks_wait_for_packets_sync : shrinks wait_for_packets_sync.
Proof.
  intros w. unfold wait_for_packets_sync.
  destruct (recv_length (incoming w)) as [H _].
  destruct (recv (incoming w)) as [rest [p|e]]; simpl in *; lia.
Qed.

Lemma consumes_wait_for_packets_sync : consumes wait_for_packets_sync.
Proof.
  intros w w' a. unfold wait_for_packets_sync.
  destruct (recv_length (incoming w)) as [_ H].
  destruct (recv (incoming w)) as [rest [p|e]]; simpl in *; [|discriminate].
  intros [= <-]. simpl. by apply (H p).
Qed.

Lemma _reset_until_reset_length inc : forall cur,
  (length (_reset_until_reset cur inc).1.2 <= length inc)%nat.
Proof.
  induction inc as [|[p|e] rest IH]; intros cur; simpl;
    destruct (is_marker cur && (byte_at cur 2 =? TNS_MARKER_TYPE_RESET));
    simpl; try lia.
  specialize (IH p). lia.
Qed.

Lemma _reset_skip_markers_length inc : forall cur,
  (length (_reset_skip_markers cur inc).1.2 <= length inc)%nat.
Proof.
  induction inc as [|[p|e] rest IH]; intros cur; simpl; try lia.
  destruct (is_marker p); simpl; [|lia]. specialize (IH p). lia.
Qed.

Lemma shrinks_run_loop loop :
  (forall cur inc, (length (loop cur inc).1.2 <= length inc)%nat) ->
  shrinks (run_loop loop).
Proof.
  intros H w. unfold run_loop.
  specialize (H (_current_packet (_read_buf (proto w))) (incoming w)).
  destruct (loop _ _) as [[cur rest] r]. simpl in *. lia.
Qed.

Lemma shrinks__send_marker mt : shrinks (_send_marker mt).
Proof.
  intros w. unfold _send_marker. rewrite _send_marker_buf_spec. simpl. lia.
Qed.

Lemma shrinks__reset : shrinks _reset.
Proof.
  unfold _reset.
  apply shrinks_bind; [apply shrinks__send_marker|intros _].
  apply shrinks_bind;
    [apply shrinks_run_loop; intros; apply _reset_until_reset_length
    |intros _].
  apply shrinks_bind;
    [apply shrinks_run_loop; intros; apply _reset_skip_markers_length
    |intros _].
  by apply shrinks_modify.
Qed.

Lemma shrinks__break_external : shrinks _break_external.
Proof.
  intros w. rewrite _break_external_spec.
  destruct (_break_in_progress (proto w)); simpl; lia.
Qed.

Lemma shrinks__force_close : shrinks _force_close.
Proof.
  intros w. rewrite _force_close_spec.
  destruct (_transport (proto w)); simpl; lia.
Qed.

(** What [_receive_packet] does once the packet is there. *)
Lemma shrinks__receive_packet message : shrinks (_receive_packet message).
Proof.
  unfold _receive_packet. apply shrinks_bind.
  - apply shrinks_wait_for_packets_sync.
  - intros _ w.
    destruct (packet_type (_current_packet (_read_buf (proto w)))
              =? TNS_PACKET_TYPE_MARKER); [apply shrinks__reset|].
    destruct (packet_type (_current_packet (_read_buf (proto w)))
              =? TNS_PACKET_TYPE_REFUSE); [|simpl; lia].
    destruct (read_uint16_at _ 2 =? 0); simpl; lia.
Qed.

Lemma consumes__receive_packet message : consumes (_receive_packet message).
Proof.
  unfold _receive_packet. apply consumes_bind_l.
  - apply consumes_wait_for_packets_sync.
  - intros _ w.
    destruct (packet_type (_current_packet (_read_buf (proto w)))
              =? TNS_PACKET_TYPE_MARKER); [apply shrinks__reset|].
    destruct (packet_type (_current_packet (_read_buf (proto w)))
              =? TNS_PACKET_TYPE_REFUSE); [|simpl; lia].
    destruct (read_uint16_at _ 2 =? 0); simpl; lia.
Qed.

Section EngineFacts.

Variable E : Env.

Lemma shrinks_message_send message : shrinks (message_send E message).
Proof.
  intros w. unfold message_send.
  destruct (codec_send E message (heap w) (_write_buf (proto w)))
    as [[[h buf] evs] r]. simpl. lia.
Qed.

Lemma shrinks_message_process message : shrinks (message_process E message).
Proof.
  intros w. unfold message_process.
  destruct (codec_process E message (heap w) (_read_buf (proto w)))
    as [h r]. simpl. lia.
Qed.

Lemma consumes_try_suite message : consumes (try_suite E message).
Proof.
  unfold try_suite.
  apply consumes_bind_r; [apply shrinks_ret|intros _].
  apply consumes_bind_r; [apply shrinks_message_send|intros _].
  apply consumes_bind_l; [apply consumes__receive_packet|intros _].
  apply shrinks_message_process.
Qed.

Lemma shrinks_try_suite message : shrinks (try_suite E message).
Proof.
  unfold try_suite.
  apply shrinks_bind; [apply shrinks_ret|intros _].
  apply shrinks_bind; [apply shrinks_message_send|intros _].
  apply shrinks_bind; [apply shrinks__receive_packet|intros _].
  apply shrinks_message_process.
Qed.

Lemma shrinks_on_socket_timeout message : shrinks (on_socket_timeout message).
Proof.
  unfold on_socket_timeout, _raise_err.
  apply shrinks_bind; [|intros; apply shrinks_raise].
  apply shrinks_try_except.
  - apply shrinks_bind; [apply shrinks__break_external|intros _].
    apply shrinks_bind; [apply shrinks__receive_packet|intros _].
    apply shrinks_bind; [by apply shrinks_modify|intros _].
    apply shrinks_raise.
  - intros e. apply shrinks_bind; intros;
      auto using shrinks__force_close, shrinks_raise.
Qed.

Lemma shrinks_on_exception message e : shrinks (on_exception message e).
Proof.
  unfold on_exception.
  apply shrinks_bind; [|intros; apply shrinks_raise].
  apply (shrinks_if can_break_and_reset).
  - apply shrinks_bind; intros;
      auto using shrinks__send_marker, shrinks__reset.
  - apply shrinks_ret.
Qed.

(** The handlers of the [try] statement never return: they raise. *)
Lemma bind_raise_not_Ok {A} (c : M A) e w w' (a : unit) :
  (c ;;; raise e) w <> (w', Ok a).
Proof. unfold bind, raise. destruct (c w) as [w1 [x|e1]]; discriminate. Qed.

Lemma try_statement_Ok message w w' a :
  try_statement E message w = (w', Ok a) ->
  try_suite E message w = (w', Ok a).
Proof.
  unfold try_statement.
  destruct (try_suite E message w) as [w1 [x|e]]; [done|].
  destruct (is_socket_timeout e); intros H.
  - unfold on_socket_timeout in H. by apply bind_raise_not_Ok in H.
  - unfold on_exception in H. by apply bind_raise_not_Ok in H.
Qed.

Lemma consumes_try_statement message : consumes (try_statement E message).
Proof.
  intros w w' a H. apply try_statement_Ok in H.
  by apply consumes_try_suite in H.
Qed.

Lemma shrinks_flush_out_binds_step message :
  shrinks (flush_out_binds_step E message).
Proof.
  intros w. unfold flush_out_binds_step.
  destruct (flush_out_binds (msgs (heap w) message)); [|simpl; lia].
  revert w.
  apply shrinks_bind; [|intros _].
  { intros w. simpl. lia. }
  apply shrinks_bind; [apply shrinks__reset|intros _].
  apply shrinks_message_process.
Qed.

Lemma shrinks_break_in_progress_step message :
  shrinks (break_in_progress_step E message).
Proof.
  intros w. unfold break_in_progress_step.
  destruct (_break_in_progress (proto w)); [|simpl; lia].
  revert w.
  apply shrinks_bind; [|intros _].
  { apply shrinks_try_except; [|intros; apply shrinks_raise].
    apply shrinks_bind; [|intros; apply shrinks__receive_packet].
    apply (shrinks_if (fun w => supports_oob (_caps (proto w)))).
    - apply shrinks__send_marker.
    - apply shrinks_ret. }
  apply shrinks_bind; [apply shrinks_message_process|intros _].
  by apply shrinks_modify.
Qed.

Lemma shrinks_txn_step message : shrinks (txn_step E message).
Proof. by apply shrinks_modify. Qed.

Lemma consumes_exchange message : consumes (exchange E message).
Proof.
  unfold exchange.
  apply consumes_bind_l; [apply consumes_try_statement|intros _].
  apply shrinks_bind; [apply shrinks_flush_out_binds_step|intros _].
  apply shrinks_bind; [apply shrinks_break_in_progress_step|intros _].
  apply shrinks_txn_step.
Qed.

(** Any depth above the number of packets the peer still delivers gives
    the same, defined, result: [_process_message] is total. *)
Lemma _process_message_depth_enough depth : forall message w,
  (length (incoming w) < depth)%nat ->
  exists r, _process_message_depth E depth message w = Some r
            /\ _process_message E message w = r.
Proof.
  assert (Hdef : forall depth message w,
            (length (incoming w) < depth)%nat ->
            exists r, _process_message_depth E depth message w = Some r
                      /\ forall depth',
                           (length (incoming w) < depth')%nat ->
                           _process_message_depth E depth' message w = Some r).
  { clear depth. induction depth as [|depth IH]; intros message w Hlt; [lia|].
    simpl. destruct (exchange E message w) as [w1 [[]|e]] eqn:Hex.
    - pose proof (consumes_exchange _ _ _ _ Hex) as Hlen.
      destruct (error_occurred (msgs (heap w1) message)) eqn:Herr.
      + destruct (retry (msgs (heap w1) message)) eqn:Hretry.
        * destruct (IH message
                      (set_heap (set_error_occurred message false (heap w1))
                                w1)) as (r & Hr & Hall); [simpl; lia|].
          exists r. split; [done|]. intros [|depth'] Hd; [lia|].
          simpl. rewrite Hex, Herr, Hretry. apply Hall. simpl. lia.
        * eexists. split; [done|]. intros [|depth'] Hd; [lia|].
          simpl. by rewrite Hex, Herr, Hretry.
      + eexists. split; [done|]. intros [|depth'] Hd; [lia|].
        simpl. by rewrite Hex, Herr.
    - eexists. split; [done|]. intros [|depth'] Hd; [lia|].
      simpl. by rewrite Hex. }
  intros message w Hlt. destruct (Hdef depth message w Hlt) as (r & Hr & Hall).
  exists r. split; [done|]. unfold _process_message.
  rewrite (Hall (S (length (incoming w)))) by lia. done.
Qed.

(** [_process_message] unfolds as the source reads: the exchange, then the
    test of [error_occurred], the retry as a call of itself. *)
Lemma _process_message_unfold message w :
  _process_message E message w
  = match exchange E message w with
    | (w1, Raise e) => (w1, Raise e)
    | (w1, Ok _) =>
        if error_occurred (msgs (heap w1) message) then
          if retry (msgs (heap w1) message) then
            _process_message E message
              (set_heap (set_error_occurred message false (heap w1)) w1)
          else raise_server_error E message w1
        else (w1, Ok tt)
    end.
Proof.
  unfold _process_message at 1. simpl.
  destruct (exchange E message w) as [w1 [[]|e]] eqn:Hex; [|done].
  destruct (error_occurred (msgs (heap w1) message)); [|done].
  destruct (retry (msgs (heap w1) message)); [|done].
  pose proof (consumes_exchange _ _ _ _ Hex) as Hlen.
  destruct (_process_message_depth_enough (length (incoming w)) message
              (set_heap (set_error_occurred message false (heap w1)) w1))
    as (r & -> & ->); [simpl; lia|]. done.
Qed.

End EngineFacts.

(** ** [_process_message]: server errors *)

Section ServerErrors.

Variable E : Env.

(** C2. When the exchange ends with [error_occurred] set: with the retry
    flag set the call is one more call of [_process_message] on the same
    message, [error_occurred] cleared; without it the call raises the
    exception class [get_exception_class] gives for the error number, with
    the message, code and offset of [error_info]. *)
Theorem process_message_retry_or_raise msg w w1 :
  exchange E msg w = (w1, Ok tt) ->
  error_occurred (msgs (heap w1) msg) = true ->
  let m := msgs (heap w1) msg in
  if retry m then
    _process_message E msg w
    = _process_message E msg
        (set_heap (set_error_occurred msg false (heap w1)) w1)
    /\ error_occurred
         (msgs (set_error_occurred msg false (heap w1)) msg) = false
  else
    exists w2,
      _process_message E msg w
      = (w2, Raise (OracleError
                      (get_exception_class E (num (error_info m)))
                      {| err_message := message (error_info m);
                         err_code := num (error_info m);
                         err_offset := pos (error_info m) |})).
Proof.
  intros Hex Herr. simpl. rewrite _process_message_unfold, Hex, Herr.
  destruct (retry (msgs (heap w1) msg)).
  - split; [done|]. simpl. by rewrite decide_True.
  - unfold raise_server_error, bind, error_of, raise.
    destruct (is_session_dead E _).
    + rewrite _force_close_spec. eauto.
    + eauto.
Qed.

(** C5. A server error classified as session-dead: before the exception
    is raised the protocol has let go of the transport, and on a connection
    that was open both buffers have let go of it too and the socket has
    been disconnected. *)
Theorem session_dead_force_closes message w w1 :
  exchange E message w = (w1, Ok tt) ->
  error_occurred (msgs (heap w1) message) = true ->
  retry (msgs (heap w1) message) = false ->
  is_session_dead E (error_of (msgs (heap w1) message)) = true ->
  _transport (proto w1) <> None ->
  exists w2,
    _process_message E message w
    = (w2, Raise (OracleError
                    (get_exception_class E
                       (num (error_info (msgs (heap w1) message))))
                    (error_of (msgs (heap w1) message))))
    /\ _transport (proto w2) = None
    /\ rb_transport (_read_buf (proto w2)) = None
    /\ wb_transport (_write_buf (proto w2)) = None
    /\ sock_open (transport_obj w2) = false
    /\ wire w2 = wire w1 ++ [WDisconnect].
Proof.
  intros Hex Herr Hretry Hdead Hopen.
  rewrite _process_message_unfold, Hex, Herr, Hretry.
  unfold raise_server_error, bind, raise. rewrite Hdead, _force_close_spec.
  destruct (_transport (proto w1)) as [t|]; [|done].
  eexists. split; [reflexivity|]. simpl. done.
Qed.

End ServerErrors.

Lemma process_message_retry_or_raise_witness :
  exists w2,
    _process_message sample_env (OtherMsg 0)
      (sample_world false false [RecvPacket (data_packet [4; 3; 174; 0])])
    = (w2, Raise (OracleError DatabaseError
                    {| err_message := None; err_code := 942;
                       err_offset := 0 |})).
Proof.
  apply (process_message_retry_or_raise sample_env (OtherMsg 0)
           (sample_world false false [RecvPacket (data_packet [4; 3; 174; 0])])
           (exchange sample_env (OtherMsg 0)
              (sample_world false false
                 [RecvPacket (data_packet [4; 3; 174; 0])])).1);
    reflexivity.
Defined.

Lemma session_dead_force_closes_witness :
  exists w2,
    _process_message sample_env (OtherMsg 0)
      (sample_world false false [RecvPacket (data_packet [4; 12; 41; 0])])
    = (w2, Raise (OracleError OperationalError
                    {| err_message := None; err_code := 3113;
                       err_offset := 0 |}))
    /\ _transport (proto w2) = None
    /\ rb_transport (_read_buf (proto w2)) = None
    /\ wb_transport (_write_buf (proto w2)) = None
    /\ sock_open (transport_obj w2) = false
    /\ wire w2 = [WPacket RegularBuffer TNS_PACKET_TYPE_DATA 0 [3];
                  WDisconnect].
Proof.
  apply (session_dead_force_closes sample_env (OtherMsg 0)
           (sample_world false false [RecvPacket (data_packet [4; 12; 41; 0])])
           (exchange sample_env (OtherMsg 0)
              (sample_world false false
                 [RecvPacket (data_packet [4; 12; 41; 0])])).1);
    try reflexivity. discriminate.
Defined.

(** ** [_process_message]: the [try] statement *)

Section TryStatement.

Variable E : Env.

Lemma try_suite_unfold message w :
  try_suite E message w
  = let '(h, buf, evs, r) :=
      codec_send E message (heap w) (_write_buf (proto w)) in
    let ws := emit evs (with_proto (set_write_buf buf) (set_heap h w)) in
    match r with
    | Some e => (ws, Raise e)
    | None => (_receive_packet message ;;; message_process E message) ws
    end.
Proof.
  unfold try_suite, reset_packets, bind at 1 2, ret, message_send.
  destruct (codec_send E message (heap w) (_write_buf (proto w)))
    as [[[h buf] evs] [e|]]; reflexivity.
Qed.

(** [_receive_packet] on a REFUSE packet. *)
Lemma _receive_packet_refuse message w p rest :
  incoming w = RecvPacket p :: rest ->
  packet_type p = TNS_PACKET_TYPE_REFUSE ->
  _receive_packet message w
  = (set_heap (set_error_message message (refuse_text p) (heap w))
       (with_proto (fun pr =>
          set_write_buf (set_packet_sent false (_write_buf pr))
            (set_read_buf (set_current_packet p (_read_buf pr)) pr))
          (set_incoming rest w)), Ok tt).
Proof.
  intros Hinc Htype.
  unfold _receive_packet, bind, wait_for_packets_sync, refuse_text.
  rewrite Hinc. simpl. rewrite Htype. simpl.
  destruct (read_uint16_at p 2 =? 0); reflexivity.
Qed.


(** C1, as the engine has it. The request is written and the first receive
    times out: [_break_external] runs, which puts a break on the wire (the
    urgent byte with OOB, else an INTERRUPT marker through a fresh buffer)
    unless a break is already in progress; then one [_receive_packet]
    awaits the recovery packet. When it returns, [_break_in_progress] is
    cleared and ERR_CALL_TIMEOUT_EXCEEDED is raised; when it times out too
    the transport is force-closed and ERR_CONNECTION_CLOSED is raised. *)
Theorem timeout_recovery message w h1 buf1 evs rest :
  codec_send E message (heap w) (_write_buf (proto w))
  = (h1, buf1, evs, None) ->
  recv (incoming w) = (rest, Raise SocketTimeout) ->
  let w_sent :=
    set_incoming rest
      (emit evs (with_proto (set_write_buf buf1) (set_heap h1 w))) in
  let w_brk := (_break_external w_sent).1 in
  wire w_brk
  = wire w ++ evs
    ++ (if _break_in_progress (proto w) then []
        else [if supports_oob (_caps (proto w)) then WOobBreak
              else WPacket FreshBuffer TNS_PACKET_TYPE_MARKER 0
                     [1; 0; TNS_MARKER_TYPE_INTERRUPT]])
  /\ _break_in_progress (proto w_brk) = true
  /\ _process_message E message w
     = match _receive_packet message w_brk with
       | (w2, Ok _) =>
           (with_proto (set_break_in_progress false) w2,
            Raise (DriverError ERR_CALL_TIMEOUT_EXCEEDED))
       | (w2, Raise e) =>
           if is_socket_timeout e
           then ((_force_close w2).1, Raise (DriverError ERR_CONNECTION_CLOSED))
           else (w2, Raise e)
       end.
Proof.
  intros Hsend Hrecv. cbv zeta. rewrite !_break_external_spec. simpl.
  split; [|split].
  - destruct (_break_in_progress (proto w)); simpl.
    + by rewrite app_nil_r.
    + unfold the_break. simpl. by rewrite <- app_assoc.
  - by destruct (_break_in_progress (proto w)) eqn:Hb.
  - rewrite _process_message_unfold.
    unfold exchange, bind at 1 2 3, try_statement.
    rewrite try_suite_unfold, Hsend. cbv zeta.
    unfold bind at 1, _receive_packet at 1, bind at 1, wait_for_packets_sync.
    simpl. rewrite Hrecv. simpl.
    unfold on_socket_timeout, bind at 1, try_except, bind at 1.
    rewrite _break_external_spec. simpl. unfold bind.
    match goal with
    | |- context [_receive_packet message ?x] =>
        destruct (_receive_packet message x) as [w2 [[]|e2]]
    end; simpl.
    + reflexivity.
    + destruct (is_socket_timeout e2); simpl; [|done].
      rewrite _force_close_spec. reflexivity.
Qed.

End TryStatement.


Lemma timeout_recovery_witness :
  let r := _process_message sample_env (OtherMsg 0)
             (sample_world false false
                [RecvRaise SocketTimeout; RecvPacket (data_packet [0])]) in
  r.2 = Raise (DriverError ERR_CALL_TIMEOUT_EXCEEDED)
  /\ wire r.1 = [WPacket RegularBuffer TNS_PACKET_TYPE_DATA 0 [3];
                 WPacket FreshBuffer TNS_PACKET_TYPE_MARKER 0
                   [1; 0; TNS_MARKER_TYPE_INTERRUPT]]
  /\ _break_in_progress (proto r.1) = false.
Proof.
  cbv zeta.
  edestruct (timeout_recovery sample_env (OtherMsg 0)
               (sample_world false false
                  [RecvRaise SocketTimeout; RecvPacket (data_packet [0])]))
    as (_ & _ & ->); [reflexivity | reflexivity |].
  repeat split; reflexivity.
Defined.

(** The second timeout: the transport is force-closed. *)
Example timeout_twice_force_closes :
  let r := _process_message sample_env (OtherMsg 0)
             (sample_world false true []) in
  r.2 = Raise (DriverError ERR_CONNECTION_CLOSED)
  /\ wire r.1 = [WPacket RegularBuffer TNS_PACKET_TYPE_DATA 0 [3];
                 WOobBreak; WDisconnect]
  /\ _transport (proto r.1) = None.
Proof. repeat split; reflexivity. Qed.

(** C1 as it was stated fails when a break is already in progress (as after
    a cancel from another thread): the first receive times out, the call
    ends in ERR_CALL_TIMEOUT_EXCEEDED, and the request is all that was
    written: no urgent byte and no INTERRUPT marker. *)
Lemma timeout_with_break_pending_sends_no_break :
  let r := _process_message sample_env (OtherMsg 0)
             (sample_world true false
                [RecvRaise SocketTimeout; RecvPacket (data_packet [0])]) in
  r.2 = Raise (DriverError ERR_CALL_TIMEOUT_EXCEEDED)
  /\ wire r.1 = [WPacket RegularBuffer TNS_PACKET_TYPE_DATA 0 [3]].
Proof. split; reflexivity. Qed.

(** ** [_reset]: the drain *)

Lemma _reset_until_reset_eq cur inc :
  _reset_until_reset cur inc
  = if is_reset_marker cur then (cur, inc, Ok tt)
    else match inc with
         | [] => (cur, [], Raise SocketTimeout)
         | RecvPacket p :: rest => _reset_until_reset p rest
         | RecvRaise e :: rest => (cur, rest, Raise e)
         end.
Proof. unfold is_reset_marker. destruct inc as [|[p|e] rest]; reflexivity. Qed.

(** The first loop discards everything up to the first RESET marker, the
    current packet included. *)
Lemma _reset_until_reset_spec junk : forall cur inc rst after rest,
  RecvPacket cur :: inc = (RecvPacket <$> (junk ++ rst :: after)) ++ rest ->
  Forall (fun p => is_reset_marker p = false) junk ->
  is_reset_marker rst = true ->
  _reset_until_reset cur inc = (rst, (RecvPacket <$> after) ++ rest, Ok tt).
Proof.
  induction junk as [|j junk IH]; intros cur inc rst after rest Heq Hjunk Hrst.
  - simpl in Heq. injection Heq as -> ->.
    by rewrite _reset_until_reset_eq, Hrst.
  - assert (Hex : exists p inc',
              (RecvPacket <$> (junk ++ rst :: after)) ++ rest
              = RecvPacket p :: inc').
    { destruct junk; simpl; eauto. }
    destruct Hex as (p & inc' & Hex).
    simpl in Heq. injection Heq as Hcur Hinc.
    change (list_fmap Packet RecvEvent RecvPacket (junk ++ rst :: after))
      with (RecvPacket <$> (junk ++ rst :: after)) in Hinc.
    rewrite Hex in Hinc. subst cur inc.
    inversion_clear Hjunk as [|? ? Hj Hjunk'].
    rewrite _reset_until_reset_eq, Hj.
    apply IH; done.
Qed.

(** The second loop skips the markers that follow and stops on the first
    packet that is not a marker. *)
Lemma _reset_skip_markers_spec markers : forall cur pk rest,
  Forall (fun p => is_marker p = true) markers ->
  is_marker pk = false ->
  _reset_skip_markers cur ((RecvPacket <$> (markers ++ [pk])) ++ rest)
  = (pk, rest, Ok tt).
Proof.
  induction markers as [|m markers IH]; intros cur pk rest Hm Hpk; simpl.
  - by rewrite Hpk.
  - inversion_clear Hm as [|? ? Hm0 Hm']. rewrite Hm0. by apply IH.
Qed.

Lemma _reset_spec w junk rst markers pk rest :
  RecvPacket (_current_packet (_read_buf (proto w))) :: incoming w
  = (RecvPacket <$> (junk ++ rst :: markers ++ [pk])) ++ rest ->
  Forall (fun p => is_reset_marker p = false) junk ->
  is_reset_marker rst = true ->
  Forall (fun p => is_marker p = true) markers ->
  is_marker pk = false ->
  exists w',
    _reset w = (w', Ok tt)
    /\ wire w'
       = wire w ++ [WPacket (wb_name (_write_buf (proto w)))
                      TNS_PACKET_TYPE_MARKER 0 [1; 0; TNS_MARKER_TYPE_RESET]]
    /\ _current_packet (_read_buf (proto w')) = pk
    /\ incoming w' = rest
    /\ _break_in_progress (proto w') = false.
Proof.
  intros Heq Hjunk Hrst Hmarkers Hpk.
  unfold _reset, bind, _send_marker. rewrite _send_marker_buf_spec.
  unfold run_loop at 1. simpl.
  rewrite (_reset_until_reset_spec _ _ _ _ _ _ Heq Hjunk Hrst).
  unfold run_loop. simpl.
  rewrite (_reset_skip_markers_spec _ _ _ _ Hmarkers Hpk). simpl.
  eexists. split; [reflexivity|]. simpl. done.
Qed.

Section ExceptionPath.

Variable E : Env.

(** The [except Exception] clause, whatever the peer sends next: with the
    condition true, BREAK is written and [_reset] runs; the exception goes
    on when [_reset] returns and is replaced by what [_reset] raises
    otherwise. *)
Lemma exception_path message w w1 e :
  try_suite E message w = (w1, Raise e) ->
  is_socket_timeout e = false ->
  can_break_and_reset w1 = true ->
  _process_message E message w
  = match (_send_marker TNS_MARKER_TYPE_BREAK ;;; _reset) w1 with
    | (w2, Ok _) => (w2, Raise e)
    | (w2, Raise e') => (w2, Raise e')
    end.
Proof.
  intros Htry Hnt Hguard. rewrite _process_message_unfold.
  unfold exchange, bind at 1 2 3, try_statement. rewrite Htry, Hnt.
  unfold on_exception, bind at 1. rewrite Hguard.
  by destruct ((_send_marker TNS_MARKER_TYPE_BREAK ;;; _reset) w1)
    as [w2 [[]|e']].
Qed.

(** With the condition false nothing is written and nothing is read. *)
Lemma exception_path_quiet message w w1 e :
  try_suite E message w = (w1, Raise e) ->
  is_socket_timeout e = false ->
  can_break_and_reset w1 = false ->
  _process_message E message w = (w1, Raise e).
Proof.
  intros Htry Hnt Hguard. rewrite _process_message_unfold.
  unfold exchange, bind at 1 2 3, try_statement. rewrite Htry, Hnt.
  unfold on_exception, bind at 1. by rewrite Hguard.
Qed.


End ExceptionPath.


(** ** The connect data *)

Lemma sanitize_cons c rest :
  Utils._sanitize (String c rest)
  = String (Utils.sanitize_char c) (Utils._sanitize rest).
Proof.
  unfold Utils._sanitize, Utils.sanitize_char. simpl. f_equal.
  destruct (Ascii.eqb_spec c "(") as [->|H1]; [reflexivity|].
  destruct (Ascii.eqb_spec c ")") as [->|H2]; [reflexivity|].
  destruct (Ascii.eqb_spec c "=") as [->|H3]; reflexivity.
Qed.

(** C6. The CID of the connect data is built from the sanitized program,
    machine and user names, and sanitizing a string keeps its length and
    changes it character by character: ['('], [')'] and ['='] become
    ['?'], any other character stays. *)
Theorem cid_is_sanitized build_connect_string executable hostname pid user :
  Utils._get_connect_data build_connect_string
    (Utils.ConnectConstants_init executable hostname pid user)
  = build_connect_string
      ("(PROGRAM=" ++ Utils._sanitize executable ++ ")"
       ++ "(HOST=" ++ Utils._sanitize hostname ++ ")"
       ++ "(USER=" ++ Utils._sanitize user ++ ")")%string
  /\ forall value,
       String.length (Utils._sanitize value) = String.length value
       /\ forall i,
            String.get i (Utils._sanitize value)
            = match String.get i value with
              | Some c =>
                  Some (if (Ascii.eqb c "(" || Ascii.eqb c ")"
                            || Ascii.eqb c "=")%bool
                        then "?"%char else c)
              | None => None
              end.
Proof.
  split; [reflexivity|].
  induction value as [|c rest [IHlen IHget]].
  - split; [reflexivity|]. by intros [|i].
  - rewrite sanitize_cons. split.
    + simpl. by rewrite IHlen.
    + intros [|i]; simpl; [reflexivity|apply IHget].
Qed.

Example sanitize_example :
  Utils._sanitize "C:\Program Files (x86)\py=3\python.exe"
  = "C:\Program Files ?x86?\py?3\python.exe"%string.
Proof. reflexivity. Qed.

(** ** Connect phase one: redirects *)

Section Redirect.

Variable E : Env.

(** One round of the loop whose response carries redirect data with a NUL
    in it: the text before the NUL gives host and port, the connection is
    made there, the text after the NUL is the next connect string and the
    next message is a new one. Its packet flags are
    [TNS_PACKET_FLAG_REDIRECT] for [tcp]; for [tcps] the TCPS suite that
    follows assigns the flags of the packet just received to the same
    variable. *)
Lemma redirect_round params address l w w1 rd h p w2 :
  (ensure_connect_message l ;;; _process_message E ConnectMsg) w
  = (w1, Ok tt) ->
  redirect_data (msgs (heap w1) ConnectMsg) = Some rd ->
  0 <= str_find "000"%char rd ->
  parse_connect_string E (str_slice 0 (str_find "000"%char rd) rd)
  = Ok (h, p) ->
  _connect_tcp E params address h p w1 = (w2, Ok tt) ->
  exists w3 l',
    phase_one_iteration E params address l w = (w3, Ok (inl l'))
    /\ connect_message l' = None
    /\ l_host l' = h /\ l_port l' = p
    /\ l_connect_string l'
       = str_slice (str_find "000"%char rd + 1)
           (Z.of_nat (String.length rd)) rd
    /\ l_packet_flags l'
       = if String.eqb (protocol address) "tcps"
         then packet_flags (_current_packet (_read_buf (proto w2)))
         else TNS_PACKET_FLAG_REDIRECT (consts E).
Proof.
  intros Hproc Hrd Hpos Hparse Htcp.
  unfold phase_one_iteration.
  unfold bind at 1 2. unfold bind at 1 in Hproc.
  destruct (ensure_connect_message l w) as [w0 [[]|e0]]; [|discriminate].
  rewrite Hproc, Hrd.
  destruct (Z.ltb_spec (str_find "000"%char rd) 0) as [Hneg|_]; [lia|].
  unfold bind at 1. rewrite Hparse. simpl.
  unfold bind at 1. rewrite Htcp.
  unfold tcps_step.
  destruct (String.eqb (protocol address) "tcps").
  - unfold bind, modify. simpl.
    destruct (negb _); simpl; eauto 10.
  - unfold bind, ret. simpl. eauto 10.
Qed.

(** Redirect data without a NUL: ERR_INVALID_REDIRECT_DATA. *)
Lemma redirect_without_nul params address l w w1 rd :
  (ensure_connect_message l ;;; _process_message E ConnectMsg) w
  = (w1, Ok tt) ->
  redirect_data (msgs (heap w1) ConnectMsg) = Some rd ->
  str_find "000"%char rd < 0 ->
  phase_one_iteration E params address l w
  = (w1, Raise (DriverError ERR_INVALID_REDIRECT_DATA)).
Proof.
  intros Hproc Hrd Hpos.
  unfold phase_one_iteration.
  unfold bind at 1 2. unfold bind at 1 in Hproc.
  destruct (ensure_connect_message l w) as [w0 [[]|e0]]; [|discriminate].
  rewrite Hproc, Hrd.
  by destruct (Z.ltb_spec (str_find "000"%char rd) 0) as [_|Hneg]; [|lia].
Qed.

End Redirect.

(** C3 over [tcp]: the connect message sent after the redirect goes to the
    new host and port, carries the text after the NUL and has the REDIRECT
    packet flag (4 in the sample constants). *)
Example redirect_over_tcp_sets_redirect_flag :
  phase_one_observed
    (_connect_phase_one sample_env sample_params (sample_address "tcp") "cs"
       (fresh_world [RecvPacket redirect_packet; RecvPacket accept_packet]))
  = Some (Ok (Some 0%nat),
          [WConnect "h1" 1521;
           WPacket RegularBuffer TNS_PACKET_TYPE_CONNECT 0 (encode "cs");
           WConnect "h2" 1521;
           WPacket RegularBuffer TNS_PACKET_TYPE_CONNECT
             (TNS_PACKET_FLAG_REDIRECT sample_constants) (encode "original")],
          TNS_PACKET_FLAG_REDIRECT sample_constants).
Proof. vm_compute. reflexivity. Qed.

(** C3 (the code departs from it). Over [tcps] the same exchange ends with
    a second connect message whose packet flags are those of the REDIRECT
    packet just received (here 0), not [TNS_PACKET_FLAG_REDIRECT] (4 in the
    sample constants). *)
Theorem redirect_over_tcps_loses_redirect_flag :
  phase_one_observed
    (_connect_phase_one sample_env sample_params (sample_address "tcps") "cs"
       (fresh_world [RecvPacket redirect_packet; RecvPacket accept_packet]))
  = Some (Ok (Some 0%nat),
          [WConnect "h1" 1521; WNegotiateTls;
           WPacket RegularBuffer TNS_PACKET_TYPE_CONNECT 0 (encode "cs");
           WConnect "h2" 1521; WNegotiateTls;
           WPacket RegularBuffer TNS_PACKET_TYPE_CONNECT 0 (encode "original")],
          0)
  /\ TNS_PACKET_FLAG_REDIRECT sample_constants = 4.
Proof. split; vm_compute; reflexivity. Qed.

(** Redirect data without a NUL. *)
Example redirect_without_nul_example :
  phase_one_observed
    (_connect_phase_one sample_env sample_params (sample_address "tcp") "cs"
       (fresh_world
          [RecvPacket {| packet_type := TNS_PACKET_TYPE_REDIRECT;
                         packet_flags := 0; payload := encode "nowhere" |}]))
  = Some (Raise (DriverError ERR_INVALID_REDIRECT_DATA),
          [WConnect "h1" 1521;
           WPacket RegularBuffer TNS_PACKET_TYPE_CONNECT 0 (encode "cs")],
          0).
Proof. vm_compute. reflexivity. Qed.

(** ** Connect phase one always comes to a result *)

Section PhaseOneTotal.

Variable E : Env.

Lemma raise_server_error_not_Ok message w w' a :
  raise_server_error E message w <> (w', Ok a).
Proof. unfold raise_server_error. apply bind_raise_not_Ok. Qed.

Lemma _process_message_depth_consumes depth : forall message w w' a,
  _process_message_depth E depth message w = Some (w', Ok a) ->
  (length (incoming w') < length (incoming w))%nat.
Proof.
  induction depth as [|depth IH]; intros message w w' a; simpl; [done|].
  destruct (exchange E message w) as [w1 [[]|e]] eqn:Hex; [|done].
  pose proof (consumes_exchange _ _ _ _ _ Hex) as Hlen.
  destruct (error_occurred (msgs (heap w1) message)).
  - destruct (retry (msgs (heap w1) message)).
    + intros H. apply IH in H. simpl in H. lia.
    + intros [= H]. by apply raise_server_error_not_Ok in H.
  - intros [= <- _]. done.
Qed.

Lemma consumes__process_message message :
  consumes (_process_message E message).
Proof.
  intros w w' a H.
  destruct (_process_message_depth_enough E (S (length (incoming w)))
              message w) as (r & Hr & Hp); [lia|].
  rewrite Hp in H. subst r. by apply _process_message_depth_consumes in Hr.
Qed.

Lemma shrinks__connect_tcp params address host port :
  shrinks (_connect_tcp E params address host port).
Proof.
  intros w.
  unfold _connect_tcp, bind, ret, _raise_err, raise, modify, set_from_socket.
  repeat (case_match; simpl in *; simplify_eq; simpl; try lia).
Qed.

Lemma shrinks_tcps_step address l : shrinks (tcps_step E address l).
Proof.
  intros w. unfold tcps_step, bind, ret, modify.
  repeat (case_match; simpl in *; simplify_eq; simpl; try lia).
Qed.

Lemma consumes_phase_one_iteration params address l :
  consumes (phase_one_iteration E params address l).
Proof.
  unfold phase_one_iteration.
  apply consumes_bind_r.
  { intros w. unfold ensure_connect_message.
    destruct (connect_message l); simpl; lia. }
  intros _. apply consumes_bind_l; [apply consumes__process_message|].
  intros _ w.
  destruct (redirect_data (msgs (heap w) ConnectMsg)) as [rd|].
  - destruct (str_find "000"%char rd <? 0); [simpl; lia|].
    revert w. apply shrinks_bind.
    { intros w. simpl. lia. }
    intros hp. apply shrinks_bind; [apply shrinks__connect_tcp|intros _].
    apply shrinks_bind; [apply shrinks_tcps_step|intros l1].
    apply shrinks_ret.
  - destruct (packet_type _ =? TNS_PACKET_TYPE_ACCEPT).
    + simpl. lia.
    + revert w. apply shrinks_bind; [apply shrinks_tcps_step|intros l1].
      apply shrinks_ret.
Qed.

Lemma phase_one_loop_total rounds : forall params address l w,
  (length (incoming w) < rounds)%nat ->
  is_Some (phase_one_loop E rounds params address l w).
Proof.
  induction rounds as [|rounds IH]; intros params address l w Hlt; [lia|].
  simpl.
  destruct (phase_one_iteration E params address l w)
    as [w1 [[l1|c]|e]] eqn:Hit; [|done|done].
  apply consumes_phase_one_iteration in Hit. apply IH. lia.
Qed.

(** [_connect_phase_one] returns a cookie (or [None]) or raises. *)
Lemma _connect_phase_one_total params address connect_string w :
  is_Some (_connect_phase_one E params address connect_string w).
Proof.
  unfold _connect_phase_one.
  destruct (_connect_tcp _ _ _ _ _ _) as [w1 [[]|e]]; [|done].
  apply phase_one_loop_total. lia.
Qed.

End PhaseOneTotal.

(** ** Connect phase two: the cookie *)

Lemma keeps_ret {A} (a : A) : keeps (ret a).
Proof. done. Qed.

Lemma keeps_raise {A} e : keeps (@raise A e).
Proof. done. Qed.

Lemma keeps_modify f :
  (forall w, cookies (heap (f w)) = cookies (heap w)) -> keeps (modify f).
Proof. intros H w. apply H. Qed.

Lemma keeps_bind {A B} (c : M A) (k : A -> M B) :
  keeps c -> (forall a, keeps (k a)) -> keeps (bind c k).
Proof.
  intros Hc Hk w. unfold bind. specialize (Hc w).
  destruct (c w) as [w1 [a|e]]; simpl in *; [|done].
  by rewrite (Hk a w1).
Qed.

Lemma keeps_try_except {A} (c : M A) sel h :
  keeps c -> (forall e, keeps (h e)) -> keeps (try_except c sel h).
Proof.
  intros Hc Hh w. unfold try_except. specialize (Hc w).
  destruct (c w) as [w1 [a|e]]; simpl in *; [done|].
  destruct (sel e); simpl; [|done]. by rewrite (Hh e w1).
Qed.

Lemma keeps_if {A} (b : World -> bool) (c1 c2 : M A) :
  keeps c1 -> keeps c2 -> keeps (fun w => if b w then c1 w else c2 w).
Proof. intros H1 H2 w. destruct (b w); [apply H1 | apply H2]. Qed.

Lemma keeps__send_marker mt : keeps (_send_marker mt).
Proof. intros w. unfold _send_marker. by rewrite _send_marker_buf_spec. Qed.

Lemma keeps_run_loop loop : keeps (run_loop loop).
Proof.
  intros w. unfold run_loop. by destruct (loop _ _) as [[cur rest] r].
Qed.

Lemma keeps__reset : keeps _reset.
Proof.
  unfold _reset.
  apply keeps_bind; [apply keeps__send_marker|intros _].
  apply keeps_bind; [apply keeps_run_loop|intros _].
  apply keeps_bind; [apply keeps_run_loop|intros _].
  by apply keeps_modify.
Qed.

Lemma keeps__break_external : keeps _break_external.
Proof.
  intros w. rewrite _break_external_spec.
  by destruct (_break_in_progress (proto w)).
Qed.

Lemma keeps__force_close : keeps _force_close.
Proof.
  intros w. rewrite _force_close_spec. by destruct (_transport (proto w)).
Qed.

Lemma keeps_wait_for_packets_sync : keeps wait_for_packets_sync.
Proof.
  intros w. unfold wait_for_packets_sync.
  by destruct (recv (incoming w)) as [rest [p|e]].
Qed.

Lemma keeps__receive_packet message : keeps (_receive_packet message).
Proof.
  unfold _receive_packet.
  apply keeps_bind; [apply keeps_wait_for_packets_sync|intros _ w].
  destruct (packet_type _ =? TNS_PACKET_TYPE_MARKER); [apply keeps__reset|].
  destruct (packet_type _ =? TNS_PACKET_TYPE_REFUSE); [|done].
  by destruct (read_uint16_at _ 2 =? 0).
Qed.

Section PhaseTwo.

Variable E : Env.
Hypothesis codecs : codecs_keep_cookies E.

Lemma keeps_message_send message : keeps (message_send E message).
Proof.
  intros w. unfold message_send.
  pose proof (proj1 codecs message (heap w) (_write_buf (proto w))) as H.
  by destruct (codec_send E message (heap w) (_write_buf (proto w)))
    as [[[h buf] evs] r].
Qed.

Lemma keeps_message_process message : keeps (message_process E message).
Proof.
  intros w. unfold message_process.
  pose proof (proj2 codecs message (heap w) (_read_buf (proto w))) as H.
  by destruct (codec_process E message (heap w) (_read_buf (proto w)))
    as [h r].
Qed.

Lemma keeps_exchange message : keeps (exchange E message).
Proof.
  unfold exchange.
  apply keeps_bind; [|intros _].
  { intros w. unfold try_statement.
    assert (Hs : keeps (try_suite E message)).
    { unfold try_suite.
      apply keeps_bind; [apply keeps_ret|intros _].
      apply keeps_bind; [apply keeps_message_send|intros _].
      apply keeps_bind; [apply keeps__receive_packet|intros _].
      apply keeps_message_process. }
    specialize (Hs w).
    destruct (try_suite E message w) as [w1 [a|e]]; [done|].
    simpl in Hs. rewrite <- Hs.
    destruct (is_socket_timeout e).
    - revert w1 Hs. intros w1 _. revert w1.
      unfold on_socket_timeout, _raise_err.
      apply keeps_bind; [|intros; apply keeps_raise].
      apply keeps_try_except.
      + apply keeps_bind; [apply keeps__break_external|intros _].
        apply keeps_bind; [apply keeps__receive_packet|intros _].
        apply keeps_bind; [by apply keeps_modify|intros _].
        apply keeps_raise.
      + intros e'. apply keeps_bind; [apply keeps__force_close|intros _].
        apply keeps_raise.
    - revert w1 Hs. intros w1 _. revert w1.
      unfold on_exception.
      apply keeps_bind; [|intros; apply keeps_raise].
      apply (keeps_if can_break_and_reset); [|apply keeps_ret].
      apply keeps_bind; [apply keeps__send_marker|intros _].
      apply keeps__reset. }
  apply keeps_bind; [|intros _].
  { intros w. unfold flush_out_binds_step.
    destruct (flush_out_binds (msgs (heap w) message)); [|done].
    revert w. apply keeps_bind; [done|intros _].
    apply keeps_bind; [apply keeps__reset|intros _].
    apply keeps_message_process. }
  apply keeps_bind; [|intros _].
  { intros w. unfold break_in_progress_step.
    destruct (_break_in_progress (proto w)); [|done].
    revert w. apply keeps_bind; [|intros _].
    { apply keeps_try_except; [|intros; apply keeps_raise].
      apply keeps_bind; [|intros; apply keeps__receive_packet].
      apply (keeps_if (fun w => supports_oob (_caps (proto w)))).
      - apply keeps__send_marker.
      - apply keeps_ret. }
    apply keeps_bind; [apply keeps_message_process|intros _].
    by apply keeps_modify. }
  by apply keeps_modify.
Qed.

Lemma keeps__process_message_depth depth : forall message w r,
  _process_message_depth E depth message w = Some r ->
  cookies (heap r.1) = cookies (heap w).
Proof.
  induction depth as [|depth IH]; intros message w r; simpl; [done|].
  pose proof (keeps_exchange message w) as Hex.
  destruct (exchange E message w) as [w1 [[]|e]]; simpl in Hex.
  - destruct (error_occurred (msgs (heap w1) message)).
    + destruct (retry (msgs (heap w1) message)).
      * intros H. apply IH in H. by rewrite H.
      * intros [= <-]. rewrite <- Hex. revert w1 Hex. intros w1 _. revert w1.
        unfold raise_server_error. intros w1.
        unfold bind. destruct (is_session_dead E _); [|done].
        rewrite _force_close_spec. by destruct (_transport (proto w1)).
    + by intros [= <-].
  - by intros [= <-].
Qed.

Lemma keeps__process_message message : keeps (_process_message E message).
Proof.
  intros w.
  destruct (_process_message_depth_enough E (S (length (incoming w)))
              message w) as (r & Hr & ->); [lia|].
  by apply keeps__process_message_depth in Hr.
Qed.

End PhaseTwo.

Lemma wrote_once_keeps_l a w w1 w2 :
  cookies (heap w1) = cookies (heap w) -> wrote_once a w1 w2 ->
  wrote_once a w w2.
Proof. unfold wrote_once. by intros ->. Qed.

Lemma wrote_once_keeps_r a w w1 w2 :
  wrote_once a w w1 -> cookies (heap w2) = cookies (heap w1) ->
  wrote_once a w w2.
Proof. unfold wrote_once. by intros H ->. Qed.

Lemma wrote_once_refl a w w1 :
  cookies (heap w1) = cookies (heap w) -> wrote_once a w w1.
Proof. unfold wrote_once. intros ->. split; [done|by left]. Qed.

Lemma bind_keeps_then {A B} a (c : M A) (k : A -> M B) :
  keeps c -> (forall x w, wrote_once a w (k x w).1) ->
  forall w, wrote_once a w (bind c k w).1.
Proof.
  intros Hc Hk w. unfold bind. specialize (Hc w).
  destruct (c w) as [w1 [x|e]]; simpl in *.
  - eapply wrote_once_keeps_l; [exact Hc|apply Hk].
  - by apply wrote_once_refl.
Qed.

Lemma bind_then_keeps {A B} a (c : M A) (k : A -> M B) :
  (forall w, wrote_once a w (c w).1) -> (forall x, keeps (k x)) ->
  forall w, wrote_once a w (bind c k w).1.
Proof.
  intros Hc Hk w. unfold bind. specialize (Hc w).
  destruct (c w) as [w1 [x|e]]; simpl in *; [|done].
  eapply wrote_once_keeps_r; [exact Hc|apply Hk].
Qed.

Lemma store_cookie_wrote_once a w :
  wrote_once a w (store_cookie (Some a) w).1.
Proof.
  unfold store_cookie, modify. simpl.
  destruct (populated (cookies (heap w) a)) eqn:Hp; simpl.
  - by apply wrote_once_refl.
  - split; simpl.
    + intros b Hb. by rewrite decide_False.
    + right. rewrite decide_True by done. eauto.
Qed.

Section PhaseTwoCookie.

Variable E : Env.
Hypothesis codecs : codecs_keep_cookies E.


End PhaseTwoCookie.

Lemma quiet_env_keeps_cookies : codecs_keep_cookies quiet_env.
Proof. split; [intros [] h buf|intros i h rb]; reflexivity. Qed.


(** A first connect: the cookie is not populated on entry, phase two runs
    the three messages and writes it. *)
Example phase_two_populates_cookie :
  let r := _connect_phase_two quiet_env (Some 1%nat)
             (world_with_cookie
                [RecvPacket (data_packet [0]); RecvPacket (data_packet [0]);
                 RecvPacket (data_packet [0])]) in
  r.2 = Ok tt
  /\ cookies (heap r.1) 1%nat
     = {| ck_protocol_version := 0; ck_server_banner := "";
          ck_charset_id := 873; ck_ncharset_id := 2000; ck_flags := 0;
          ck_compile_caps := []; ck_runtime_caps := []; populated := true |}
  /\ _in_connect (proto r.1) = false.
Proof. repeat split; vm_compute; reflexivity. Qed.


(** * Further properties of the engine *)

(** ** Observations the engine leaves alone *)

Section Preserves.

Context {X : Type} (f : World -> X).

Lemma preserves_ret {A} (a : A) : preserves f (ret a).
Proof. done. Qed.

Lemma preserves_raise {A} e : preserves f (@raise A e).
Proof. done. Qed.

Lemma preserves_modify g :
  (forall w, f (g w) = f w) -> preserves f (modify g).
Proof. intros H w. apply H. Qed.

Lemma preserves_bind {A B} (c : M A) (k : A -> M B) :
  preserves f c -> (forall a, preserves f (k a)) -> preserves f (bind c k).
Proof.
  intros Hc Hk w. unfold bind. specialize (Hc w).
  destruct (c w) as [w1 [a|e]]; simpl in *; [|done].
  by rewrite (Hk a w1).
Qed.

Lemma preserves_try_except {A} (c : M A) sel h :
  preserves f c -> (forall e, preserves f (h e)) ->
  preserves f (try_except c sel h).
Proof.
  intros Hc Hh w. unfold try_except. specialize (Hc w).
  destruct (c w) as [w1 [a|e]]; simpl in *; [done|].
  destruct (sel e); simpl; [|done]. by rewrite (Hh e w1).
Qed.

Lemma preserves_if {A} (b : World -> bool) (c1 c2 : M A) :
  preserves f c1 -> preserves f c2 ->
  preserves f (fun w => if b w then c1 w else c2 w).
Proof. intros H1 H2 w. destruct (b w); [apply H1 | apply H2]. Qed.

End Preserves.

(** ** [_in_connect] changes in phase two only *)

Lemma in_connect__send_marker mt : preserves in_connect (_send_marker mt).
Proof. intros w. unfold _send_marker. by rewrite _send_marker_buf_spec. Qed.

Lemma in_connect_run_loop loop : preserves in_connect (run_loop loop).
Proof.
  intros w. unfold run_loop. by destruct (loop _ _) as [[cur rest] r].
Qed.

Lemma in_connect__reset : preserves in_connect _reset.
Proof.
  unfold _reset.
  apply preserves_bind; [apply in_connect__send_marker|intros _].
  apply preserves_bind; [apply in_connect_run_loop|intros _].
  apply preserves_bind; [apply in_connect_run_loop|intros _].
  by apply preserves_modify.
Qed.

Lemma in_connect__break_external : preserves in_connect _break_external.
Proof.
  intros w. rewrite _break_external_spec.
  by destruct (_break_in_progress (proto w)).
Qed.

Lemma in_connect__force_close : preserves in_connect _force_close.
Proof.
  intros w. rewrite _force_close_spec. by destruct (_transport (proto w)).
Qed.

Lemma in_connect__receive_packet message :
  preserves in_connect (_receive_packet message).
Proof.
  unfold _receive_packet.
  apply preserves_bind; [|intros _ w].
  { intros w. unfold wait_for_packets_sync.
    by destruct (recv (incoming w)) as [rest [p|e]]. }
  destruct (packet_type _ =? TNS_PACKET_TYPE_MARKER);
    [apply in_connect__reset|].
  destruct (packet_type _ =? TNS_PACKET_TYPE_REFUSE); [|done].
  by destruct (read_uint16_at _ 2 =? 0).
Qed.

Section InConnect.

Variable E : Env.

Lemma in_connect_message_send message :
  preserves in_connect (message_send E message).
Proof.
  intros w. unfold message_send.
  by destruct (codec_send E message (heap w) (_write_buf (proto w)))
    as [[[h buf] evs] r].
Qed.

Lemma in_connect_message_process message :
  preserves in_connect (message_process E message).
Proof.
  intros w. unfold message_process.
  by destruct (codec_process E message (heap w) (_read_buf (proto w)))
    as [h r].
Qed.

Lemma in_connect_try_suite message :
  preserves in_connect (try_suite E message).
Proof.
  unfold try_suite.
  apply preserves_bind; [apply preserves_ret|intros _].
  apply preserves_bind; [apply in_connect_message_send|intros _].
  apply preserves_bind; [apply in_connect__receive_packet|intros _].
  apply in_connect_message_process.
Qed.

Lemma in_connect_exchange message : preserves in_connect (exchange E message).
Proof.
  unfold exchange.
  apply preserves_bind; [|intros _].
  { intros w. unfold try_statement.
    pose proof (in_connect_try_suite message w) as Hs.
    destruct (try_suite E message w) as [w1 [a|e]]; [done|].
    simpl in Hs. rewrite <- Hs. clear Hs. revert w1.
    destruct (is_socket_timeout e).
    - unfold on_socket_timeout, _raise_err.
      apply preserves_bind; [|intros; apply preserves_raise].
      apply preserves_try_except.
      + apply preserves_bind; [apply in_connect__break_external|intros _].
        apply preserves_bind; [apply in_connect__receive_packet|intros _].
        apply preserves_bind; [by apply preserves_modify|intros _].
        apply preserves_raise.
      + intros e'.
        apply preserves_bind; [apply in_connect__force_close|intros _].
        apply preserves_raise.
    - unfold on_exception.
      apply preserves_bind; [|intros; apply preserves_raise].
      apply (preserves_if in_connect can_break_and_reset);
        [|apply preserves_ret].
      apply preserves_bind; [apply in_connect__send_marker|intros _].
      apply in_connect__reset. }
  apply preserves_bind; [|intros _].
  { intros w. unfold flush_out_binds_step.
    destruct (flush_out_binds (msgs (heap w) message)); [|done].
    revert w. apply preserves_bind; [done|intros _].
    apply preserves_bind; [apply in_connect__reset|intros _].
    apply in_connect_message_process. }
  apply preserves_bind; [|intros _].
  { intros w. unfold break_in_progress_step.
    destruct (_break_in_progress (proto w)); [|done].
    revert w. apply preserves_bind; [|intros _].
    { apply preserves_try_except; [|intros; apply preserves_raise].
      apply preserves_bind; [|intros; apply in_connect__receive_packet].
      apply (preserves_if in_connect
               (fun w => supports_oob (_caps (proto w)))).
      - apply in_connect__send_marker.
      - apply preserves_ret. }
    apply preserves_bind; [apply in_connect_message_process|intros _].
    by apply preserves_modify. }
  by apply preserves_modify.
Qed.

Lemma in_connect__process_message_depth depth : forall message w r,
  _process_message_depth E depth message w = Some r ->
  in_connect r.1 = in_connect w.
Proof.
  induction depth as [|depth IH]; intros message w r; simpl; [done|].
  pose proof (in_connect_exchange message w) as Hex.
  destruct (exchange E message w) as [w1 [[]|e]]; simpl in Hex.
  - destruct (error_occurred (msgs (heap w1) message)).
    + destruct (retry (msgs (heap w1) message)).
      * intros H. apply IH in H. by rewrite H.
      * intros [= <-]. rewrite <- Hex.
        unfold raise_server_error, bind.
        destruct (is_session_dead E _); [|done].
        rewrite _force_close_spec. by destruct (_transport (proto w1)).
    + by intros [= <-].
  - by intros [= <-].
Qed.

Lemma in_connect__process_message message :
  preserves in_connect (_process_message E message).
Proof.
  intros w.
  destruct (_process_message_depth_enough E (S (length (incoming w)))
              message w) as (r & Hr & ->); [lia|].
  by apply in_connect__process_message_depth in Hr.
Qed.

End InConnect.

(** ** [_force_close], [_reset], [_receive_packet] *)

(** X1. [_force_close] is final: afterwards the protocol holds no
    transport and a second call changes nothing. On a connection that
    held its transport, both buffers have let go of it, the socket is
    closed, one disconnect has happened, and the condition under which the
    engine sends BREAK and resets is false. Without a transport the call
    does nothing. *)
Theorem force_close_is_final w :
  let w' := (_force_close w).1 in
  _transport (proto w') = None
  /\ _force_close w' = (w', Ok tt)
  /\ match _transport (proto w) with
     | Some _ =>
         rb_transport (_read_buf (proto w')) = None
         /\ wb_transport (_write_buf (proto w')) = None
         /\ sock_open (transport_obj w') = false
         /\ wire w' = wire w ++ [WDisconnect]
         /\ can_break_and_reset w' = false
     | None => w' = w
     end.
Proof.
  cbv zeta. rewrite !_force_close_spec. simpl.
  destruct (_transport (proto w)) eqn:Ht; simpl.
  - repeat split; try reflexivity. unfold can_break_and_reset. simpl.
    by rewrite andb_false_r.
  - by rewrite Ht.
Qed.

Lemma _reset_skip_markers_Ok inc : forall cur pk rest,
  _reset_skip_markers cur inc = (pk, rest, Ok tt) ->
  is_marker pk = false /\ (length rest < length inc)%nat.
Proof.
  induction inc as [|[p|e] inc IH]; intros cur pk rest; simpl; [done| |done].
  destruct (is_marker p) eqn:Hp.
  - intros H. apply IH in H. split; [tauto|lia].
  - intros [= <- <-]. split; [done|lia].
Qed.

Lemma _reset_Ok_current w w' :
  _reset w = (w', Ok tt) ->
  is_marker (_current_packet (_read_buf (proto w'))) = false
  /\ heap w' = heap w.
Proof.
  unfold _reset, bind, _send_marker. rewrite _send_marker_buf_spec.
  unfold run_loop at 1. simpl.
  destruct (_reset_until_reset _ _) as [[cur1 rest1] [[]|e1]];
    [|discriminate].
  unfold run_loop. simpl.
  destruct (_reset_skip_markers cur1 rest1) as [[cur2 rest2] [[]|e2]] eqn:H2;
    [|discriminate].
  apply _reset_skip_markers_Ok in H2 as [Hm _].
  intros [= <-]. simpl in *. done.
Qed.

(** X2. When [_reset] returns, the current packet is not a marker, at
    least one packet has been taken from the peer, no break is in
    progress, and exactly one packet has been written, the RESET marker;
    messages and cookies are as they were. *)
Theorem reset_returns_on_non_marker w w' :
  _reset w = (w', Ok tt) ->
  is_marker (_current_packet (_read_buf (proto w'))) = false
  /\ (length (incoming w') < length (incoming w))%nat
  /\ _break_in_progress (proto w') = false
  /\ wire w'
     = wire w ++ [WPacket (wb_name (_write_buf (proto w)))
                    TNS_PACKET_TYPE_MARKER 0 [1; 0; TNS_MARKER_TYPE_RESET]]
  /\ heap w' = heap w.
Proof.
  unfold _reset, bind, _send_marker. rewrite _send_marker_buf_spec.
  unfold run_loop at 1. simpl.
  pose proof (_reset_until_reset_length (incoming w)
                (_current_packet (_read_buf (proto w)))) as Hlen1.
  destruct (_reset_until_reset _ _) as [[cur1 rest1] [[]|e1]];
    [|discriminate].
  unfold run_loop. simpl.
  destruct (_reset_skip_markers cur1 rest1) as [[cur2 rest2] [[]|e2]] eqn:H2;
    [|discriminate].
  apply _reset_skip_markers_Ok in H2 as [Hm Hlen2].
  intros [= <-]. simpl in *. repeat split; try done. lia.
Qed.

Lemma reset_returns_on_non_marker_witness :
  let w := sample_world true false
             [RecvPacket (data_packet [7]);
              RecvPacket (marker TNS_MARKER_TYPE_RESET);
              RecvPacket (marker TNS_MARKER_TYPE_RESET);
              RecvPacket (data_packet [4; 3; 245; 0]);
              RecvPacket (data_packet [9])] in
  _current_packet (_read_buf (proto (_reset w).1))
  = data_packet [4; 3; 245; 0]
  /\ incoming (_reset w).1 = [RecvPacket (data_packet [9])]
  /\ _break_in_progress (proto (_reset w).1) = false.
Proof.
  cbv zeta.
  pose proof (reset_returns_on_non_marker
                (sample_world true false
                   [RecvPacket (data_packet [7]);
                    RecvPacket (marker TNS_MARKER_TYPE_RESET);
                    RecvPacket (marker TNS_MARKER_TYPE_RESET);
                    RecvPacket (data_packet [4; 3; 245; 0]);
                    RecvPacket (data_packet [9])]) _ eq_refl)
    as (_ & _ & Hb & _).
  split; [reflexivity|]. split; [reflexivity|exact Hb].
Defined.

(** X3. When [_receive_packet] returns, it has taken at least one packet
    from the peer and the current packet is not a marker (a marker sends
    it through [_reset]); unless the current packet is a REFUSE packet the
    messages are as they were. *)
Theorem receive_packet_returns_on_non_marker message w w' :
  _receive_packet message w = (w', Ok tt) ->
  is_marker (_current_packet (_read_buf (proto w'))) = false
  /\ (length (incoming w') < length (incoming w))%nat
  /\ (packet_type (_current_packet (_read_buf (proto w')))
      <> TNS_PACKET_TYPE_REFUSE -> heap w' = heap w).
Proof.
  intros H. pose proof (consumes__receive_packet _ _ _ _ H) as Hlen.
  revert H. unfold _receive_packet, bind, wait_for_packets_sync.
  destruct (recv (incoming w)) as [rest [p|e]]; [|discriminate].
  simpl. destruct (packet_type p =? TNS_PACKET_TYPE_MARKER) eqn:Hm.
  - intros H. apply _reset_Ok_current in H as (Hnm & Hheap). done.
  - destruct (Z.eqb_spec (packet_type p) TNS_PACKET_TYPE_REFUSE) as [Hr|Hr].
    + destruct (read_uint16_at p 2 =? 0); intros [= <-]; simpl;
        (split; [exact Hm|]; split; [exact Hlen|]; intros Hne; done).
    + intros [= <-]. simpl. done.
Qed.

Lemma receive_packet_returns_on_non_marker_witness :
  let w := sample_world false false
             [RecvPacket (marker TNS_MARKER_TYPE_RESET);
              RecvPacket (data_packet [4; 3; 245; 0])] in
  is_marker (_current_packet
               (_read_buf (proto (_receive_packet (OtherMsg 0) w).1)))
  = false.
Proof.
  cbv zeta.
  exact (proj1 (receive_packet_returns_on_non_marker (OtherMsg 0)
                  (sample_world false false
                     [RecvPacket (marker TNS_MARKER_TYPE_RESET);
                      RecvPacket (data_packet [4; 3; 245; 0])]) _ eq_refl)).
Defined.

(** ** [_process_message]: how a call ends *)

Section CallEnds.

Variable E : Env.

Lemma break_in_progress_step_Ok message w w' :
  break_in_progress_step E message w = (w', Ok tt) ->
  _break_in_progress (proto w') = false.
Proof.
  unfold break_in_progress_step.
  destruct (_break_in_progress (proto w)) eqn:Hb.
  - unfold bind.
    destruct (try_except _ _ _ w) as [w1 [[]|e1]]; [|discriminate].
    destruct (message_process E message w1) as [w2 [[]|e2]]; [|discriminate].
    by intros [= <-].
  - by intros [= <-].
Qed.

Lemma exchange_Ok message w w' :
  exchange E message w = (w', Ok tt) ->
  _break_in_progress (proto w') = false
  /\ _txn_in_progress (proto w')
     = negb (Z.land (call_status (msgs (heap w') message))
                    (TNS_TXN_IN_PROGRESS (consts E)) =? 0).
Proof.
  unfold exchange, bind.
  destruct (try_statement E message w) as [w1 [[]|e1]]; [|discriminate].
  destruct (flush_out_binds_step E message w1) as [w2 [[]|e2]];
    [|discriminate].
  destruct (break_in_progress_step E message w2) as [w3 [[]|e3]] eqn:H3;
    [|discriminate].
  apply break_in_progress_step_Ok in H3.
  unfold txn_step, modify. by intros [= <-].
Qed.

Lemma _process_message_depth_Ok depth : forall message w w',
  _process_message_depth E depth message w = Some (w', Ok tt) ->
  exists w0, exchange E message w0 = (w', Ok tt)
             /\ error_occurred (msgs (heap w') message) = false.
Proof.
  induction depth as [|depth IH]; intros message w w'; simpl; [done|].
  destruct (exchange E message w) as [w1 [[]|e]] eqn:Hex; [|done].
  destruct (error_occurred (msgs (heap w1) message)) eqn:Herr.
  - destruct (retry (msgs (heap w1) message)).
    + apply IH.
    + intros [= H]. by apply raise_server_error_not_Ok in H.
  - intros [= <-]. eauto.
Qed.

(** X4. A call of [_process_message] that returns has taken at least one
    packet from the peer and leaves the connection with no break in
    progress, the message without a recorded error, and
    [_txn_in_progress] saying whether the call status of the message has
    the transaction bit. *)
Theorem process_message_returns_clean message w w' :
  _process_message E message w = (w', Ok tt) ->
  _break_in_progress (proto w') = false
  /\ error_occurred (msgs (heap w') message) = false
  /\ _txn_in_progress (proto w')
     = negb (Z.land (call_status (msgs (heap w') message))
                    (TNS_TXN_IN_PROGRESS (consts E)) =? 0)
  /\ (length (incoming w') < length (incoming w))%nat.
Proof.
  intros H. pose proof (consumes__process_message E _ _ _ _ H) as Hlen.
  destruct (_process_message_depth_enough E (S (length (incoming w)))
              message w) as (r & Hr & Hp); [lia|].
  rewrite Hp in H. subst r.
  apply _process_message_depth_Ok in Hr as (w0 & Hex & Herr).
  apply exchange_Ok in Hex as [Hb Ht]. done.
Qed.

(** X5. While the connect phase is in progress, an exception other than
    the socket timeout that leaves the [try] suite goes straight on:
    nothing is written after it (no BREAK, no RESET) and nothing more is
    read. *)
Theorem exception_during_connect_is_quiet message w w1 e :
  _in_connect (proto w) = true ->
  try_suite E message w = (w1, Raise e) ->
  is_socket_timeout e = false ->
  _process_message E message w = (w1, Raise e).
Proof.
  intros Hc Htry Hnt. apply exception_path_quiet; [done|done|].
  pose proof (in_connect_try_suite E message w) as H.
  rewrite Htry in H. unfold in_connect in H. simpl in H.
  unfold can_break_and_reset. by rewrite H, Hc.
Qed.

(** X6. A socket timeout in the [try] suite never leaves
    [_process_message] as a socket timeout, and the call never returns:
    it raises ERR_CALL_TIMEOUT_EXCEEDED, ERR_CONNECTION_CLOSED, or what
    the recovery itself raised. *)
Theorem timeout_never_escapes message w w1 :
  try_suite E message w = (w1, Raise SocketTimeout) ->
  exists w' e,
    _process_message E message w = (w', Raise e)
    /\ is_socket_timeout e = false.
Proof.
  intros Htry. rewrite _process_message_unfold.
  unfold exchange, bind at 1 2 3, try_statement. rewrite Htry. simpl.
  unfold on_socket_timeout, bind at 1, try_except, bind at 1.
  rewrite _break_external_spec. simpl. unfold bind.
  match goal with
  | |- context [_receive_packet message ?x] =>
      destruct (_receive_packet message x) as [w2 [[]|e2]]
  end; simpl.
  - eauto.
  - destruct (is_socket_timeout e2) eqn:He2; simpl.
    + rewrite _force_close_spec. eauto.
    + eauto.
Qed.

(** X7. [_connect_phase_two] marks the connect phase as over exactly when
    it returns; when it raises, [_in_connect] is what it was. *)
Theorem phase_two_ends_connect_on_success cookie w :
  match (_connect_phase_two E cookie w).2 with
  | Ok _ => _in_connect (proto (_connect_phase_two E cookie w).1) = false
  | Raise _ =>
      _in_connect (proto (_connect_phase_two E cookie w).1)
      = _in_connect (proto w)
  end.
Proof.
  assert (Hbind : forall {A B} (c : M A) (k : A -> M B),
            preserves in_connect c ->
            (forall x w, match (k x w).2 with
                         | Ok _ => in_connect (k x w).1 = false
                         | Raise _ => in_connect (k x w).1 = in_connect w
                         end) ->
            forall w, match (bind c k w).2 with
                      | Ok _ => in_connect (bind c k w).1 = false
                      | Raise _ => in_connect (bind c k w).1 = in_connect w
                      end).
  { intros A B c k Hc Hk w0. unfold bind. specialize (Hc w0).
    destruct (c w0) as [w1 [x|e]]; simpl in *; [|done].
    specialize (Hk x w1). destruct (k x w1) as [w2 [y|e]]; simpl in *;
      congruence. }
  revert w. unfold _connect_phase_two.
  apply Hbind; [|intros _].
  { intros w. by destruct (_ <? _). }
  apply Hbind; [|intros _].
  { intros w. destruct (_ && _); [|done]. revert w.
    apply preserves_bind; [done|intros _]. apply in_connect__send_marker. }
  apply Hbind; [by apply preserves_modify|intros _].
  apply Hbind; [|intros sent_cookie].
  { intros w. destruct cookie as [a|].
    - destruct (populated (cookies (heap w) a)); revert w.
      + apply preserves_bind; [by apply preserves_modify|intros _].
        apply preserves_bind; [apply in_connect__process_message|intros _].
        apply preserves_ret.
      + apply preserves_bind; [apply in_connect__process_message|intros _].
        apply preserves_ret.
    - revert w.
      apply preserves_bind; [apply in_connect__process_message|intros _].
      apply preserves_ret. }
  apply Hbind; [|intros _].
  { intros w. destruct (_ || _); [|done]. revert w.
    apply preserves_bind; [apply in_connect__process_message|intros _].
    apply preserves_bind; [apply in_connect__process_message|intros _].
    unfold store_cookie. apply preserves_modify. intros w.
    destruct cookie as [a|]; [|done].
    by destruct (negb (populated (cookies (heap w) a))). }
  apply Hbind; [|intros _].
  { intros w. destruct (resend _); [|done].
    apply in_connect__process_message. }
  apply Hbind; [by apply preserves_modify|intros _].
  intros w. reflexivity.
Qed.

Lemma _process_message_Ok message w w' :
  _process_message E message w = (w', Ok tt) ->
  _break_in_progress (proto w') = false
  /\ error_occurred (msgs (heap w') message) = false
  /\ (length (incoming w') < length (incoming w))%nat.
Proof.
  intros H. pose proof (consumes__process_message E _ _ _ _ H) as Hlen.
  destruct (_process_message_depth_enough E (S (length (incoming w)))
              message w) as (r & Hr & Hp); [lia|].
  rewrite Hp in H. subst r.
  apply _process_message_depth_Ok in Hr as (w0 & Hex & Herr).
  apply exchange_Ok in Hex as [Hb Ht]. done.
Qed.

(** X19. [_process_single_message] runs [postprocess] only after every
    exchange of the message has returned: one exchange, and a second one
    when the first left [resend] set. [postprocess] then starts with no
    break in progress, no error recorded on the message and at least one
    packet taken from the peer. When an exchange raises, the exception
    leaves the call and [postprocess] is not run. *)
Theorem process_single_message_postprocess postprocess message w :
  (exists w0 w1,
     _process_message E message w = (w0, Ok tt)
     /\ (if resend (msgs (heap w0) message)
         then _process_message E message w0 = (w1, Ok tt)
         else w1 = w0)
     /\ _process_single_message E postprocess message w
        = postprocess message w1
     /\ _break_in_progress (proto w1) = false
     /\ error_occurred (msgs (heap w1) message) = false
     /\ (length (incoming w1) < length (incoming w))%nat)
  \/ (exists w' e,
        forall other,
          _process_single_message E other message w = (w', Raise e)).
Proof.
  unfold _process_single_message, bind.
  destruct (_process_message E message w) as [w0 [[]|e]] eqn:H1.
  - pose proof (_process_message_Ok _ _ _ H1) as (Hb & He & Hl).
    destruct (resend (msgs (heap w0) message)) eqn:Hr.
    + destruct (_process_message E message w0) as [w1 [[]|e]] eqn:H2.
      * pose proof (_process_message_Ok _ _ _ H2) as (Hb2 & He2 & Hl2).
        left. exists w0, w1. rewrite Hr.
        repeat apply conj; try done. lia.
      * right. by exists w1, e.
    + left. exists w0, w0. rewrite Hr. done.
  - right. by exists w0, e.
Qed.

End CallEnds.

Lemma process_message_returns_clean_witness :
  let r := _process_message sample_env (OtherMsg 0)
             (sample_world true false
                [RecvPacket (data_packet [0]); RecvPacket (data_packet [0])]) in
  _break_in_progress (proto r.1) = false
  /\ error_occurred (msgs (heap r.1) (OtherMsg 0)) = false
  /\ _txn_in_progress (proto r.1) = false
  /\ (length (incoming r.1) < 2)%nat.
Proof.
  cbv zeta.
  apply (process_message_returns_clean sample_env (OtherMsg 0)
           (sample_world true false
              [RecvPacket (data_packet [0]); RecvPacket (data_packet [0])])).
  vm_compute. reflexivity.
Defined.

Lemma exception_during_connect_is_quiet_witness :
  (_process_message sample_env (OtherMsg 0)
     (fresh_world [RecvPacket (data_packet [99]);
                   RecvPacket (marker TNS_MARKER_TYPE_RESET)])).2
  = Raise (OtherException 7)
  /\ wire (_process_message sample_env (OtherMsg 0)
             (fresh_world [RecvPacket (data_packet [99]);
                           RecvPacket (marker TNS_MARKER_TYPE_RESET)])).1
     = [WPacket RegularBuffer TNS_PACKET_TYPE_DATA 0 [3]].
Proof.
  rewrite (exception_during_connect_is_quiet sample_env (OtherMsg 0)
             (fresh_world [RecvPacket (data_packet [99]);
                           RecvPacket (marker TNS_MARKER_TYPE_RESET)])
             _ (OtherException 7) eq_refl eq_refl eq_refl).
  split; reflexivity.
Defined.

Lemma timeout_never_escapes_witness :
  exists w' e,
    _process_message sample_env (OtherMsg 0) (sample_world false true [])
    = (w', Raise e)
    /\ is_socket_timeout e = false.
Proof.
  exact (timeout_never_escapes sample_env (OtherMsg 0)
           (sample_world false true []) _ eq_refl).
Defined.

(** ** Connect phase one *)

Section PhaseOneReturns.

Variable E : Env.

Lemma tcps_step_inl {A} address l (k : Locals -> Locals + A) w w' c :
  (l1 <- tcps_step E address l ;; ret (k l1)) w = (w', Ok (inr c)) ->
  (forall l1, k l1 <> inr c) -> False.
Proof.
  unfold bind, ret.
  destruct (tcps_step E address l w) as [w1 [l1|e]]; [|discriminate].
  intros [= _ H] Hk. by apply (Hk l1).
Qed.

Lemma phase_one_iteration_return params address l w w' c :
  phase_one_iteration E params address l w = (w', Ok (inr c)) ->
  packet_type (_current_packet (_read_buf (proto w')))
  = TNS_PACKET_TYPE_ACCEPT
  /\ redirect_data (msgs (heap w') ConnectMsg) = None
  /\ c = cookie (msgs (heap w') ConnectMsg)
  /\ _max_packet_size (transport_obj w') = sdu (_caps (proto w')).
Proof.
  unfold phase_one_iteration. unfold bind at 1 2.
  destruct (ensure_connect_message l w) as [w0 [[]|e0]]; [|discriminate].
  destruct (_process_message E ConnectMsg w0) as [w1 [[]|e1]];
    [|discriminate].
  destruct (redirect_data (msgs (heap w1) ConnectMsg)) as [rd|] eqn:Hrd.
  - destruct (str_find "000"%char rd <? 0); [discriminate|].
    unfold bind at 1.
    destruct (parse_connect_string E _) as [hp|e2]; [|discriminate].
    unfold bind at 1.
    destruct (_connect_tcp E params address hp.1 hp.2 w1)
      as [w2 [[]|e3]]; [|discriminate].
    intros H. exfalso. by apply tcps_step_inl in H.
  - destruct (Z.eqb_spec
                (packet_type (_current_packet (_read_buf (proto w1))))
                TNS_PACKET_TYPE_ACCEPT) as [Hacc|Hacc].
    + unfold bind, modify, ret. intros [= <- <-]. simpl. done.
    + intros H. exfalso. by apply tcps_step_inl in H.
Qed.

(** X8. [_connect_phase_one] returns only on an ACCEPT packet: the current
    packet is then of type ACCEPT, the last connect message carries no
    redirect data, what is returned is the cookie of that message, and
    the maximum packet size of the transport is the SDU. *)
Theorem phase_one_returns_on_accept params address connect_string w w' c :
  _connect_phase_one E params address connect_string w = Some (w', Ok c) ->
  packet_type (_current_packet (_read_buf (proto w')))
  = TNS_PACKET_TYPE_ACCEPT
  /\ redirect_data (msgs (heap w') ConnectMsg) = None
  /\ c = cookie (msgs (heap w') ConnectMsg)
  /\ _max_packet_size (transport_obj w') = sdu (_caps (proto w')).
Proof.
  unfold _connect_phase_one.
  destruct (_connect_tcp _ _ _ _ _ _) as [w1 [[]|e]]; [|discriminate].
  generalize (S (length (incoming w1))).
  generalize {| connect_message := None; l_packet_flags := 0;
                l_host := addr_host address; l_port := addr_port address;
                l_connect_string := connect_string |}.
  intros l rounds. revert l w1.
  induction rounds as [|rounds IH]; intros l w1; simpl; [done|].
  destruct (phase_one_iteration E params address l w1)
    as [w2 [[l1|c1]|e]] eqn:Hit; [apply IH| |done].
  intros [= <- <-]. by apply phase_one_iteration_return in Hit.
Qed.

(** X9. When [_connect_tcp] returns, the transport holds a socket; the
    address is [tcps] whenever a proxy, a token or a token callback is
    configured; one TCP connection has been made, to the proxy if there is
    one (followed by the CONNECT for the target host and port) and to the
    target otherwise, followed by the TLS negotiation for [tcps]. *)
Theorem connect_tcp_returns params address host port w w' :
  _connect_tcp E params address host port w = (w', Ok tt) ->
  sock_open (transport_obj w') = true
  /\ (https_proxy address <> None \/ _token params <> None
      \/ access_token_callback params = true ->
      protocol address = "tcps"%string)
  /\ wire w'
     = wire w
       ++ match https_proxy address with
          | Some proxy =>
              [WConnect proxy (https_proxy_port address);
               WProxyConnect host port]
          | None => [WConnect host port]
          end
       ++ (if String.eqb (protocol address) "tcps" then [WNegotiateTls]
           else [])
  /\ proto w' = proto w /\ heap w' = heap w /\ incoming w' = incoming w.
Proof.
  unfold _connect_tcp, bind, ret, _raise_err, raise, modify, set_from_socket.
  destruct (String.eqb_spec (protocol address) "tcps") as [Htcps|Htcps];
    simpl.
  - destruct (https_proxy address) as [proxy|] eqn:Hproxy; simpl.
    + destruct (create_connection E proxy _); [discriminate|]. simpl.
      rewrite ?bool_decide_true by done.
      destruct (proxy_replies_200 E host port); [|discriminate]. simpl.
      intros [= <-]. simpl. rewrite <- !app_assoc. done.
    + destruct (create_connection E host port); [discriminate|]. simpl.
      rewrite ?bool_decide_false by (intros H; by apply H).
      intros [= <-]. simpl. rewrite <- !app_assoc. done.
  - destruct (https_proxy address) as [proxy|] eqn:Hproxy; simpl;
      [discriminate|].
    destruct (_token params) as [tok|] eqn:Htok; simpl.
    { rewrite ?bool_decide_true by done. discriminate. }
    rewrite ?bool_decide_false by (intros H; by apply H). simpl.
    destruct (access_token_callback params) eqn:Hcb; simpl; [discriminate|].
    destruct (create_connection E host port); [discriminate|]. simpl.
    rewrite ?bool_decide_false by (intros H; by apply H).
    intros [= <-]. simpl.
    repeat split; try done. intros [H|[H|H]]; done.
Qed.

End PhaseOneReturns.

Lemma phase_one_returns_on_accept_witness :
  match _connect_phase_one sample_env sample_params (sample_address "tcp")
          "cs"
          (fresh_world [RecvPacket redirect_packet; RecvPacket accept_packet])
  with
  | Some (w', Ok c) =>
      packet_type (_current_packet (_read_buf (proto w')))
      = TNS_PACKET_TYPE_ACCEPT
      /\ redirect_data (msgs (heap w') ConnectMsg) = None
      /\ c = cookie (msgs (heap w') ConnectMsg)
      /\ _max_packet_size (transport_obj w') = sdu (_caps (proto w'))
  | _ => False
  end.
Proof.
  destruct (_connect_phase_one sample_env sample_params
              (sample_address "tcp") "cs"
              (fresh_world [RecvPacket redirect_packet;
                            RecvPacket accept_packet]))
    as [[w' [c|e]]|] eqn:H.
  - exact (phase_one_returns_on_accept sample_env _ _ _ _ _ _ H).
  - vm_compute in H. discriminate.
  - vm_compute in H. discriminate.
Defined.

Lemma connect_tcp_returns_witness :
  wire (_connect_tcp sample_env sample_params
          {| addr_host := "db"; addr_port := 2484; protocol := "tcps";
             https_proxy := Some "proxy"%string; https_proxy_port := 8080 |}
          "db" 2484 (fresh_world [])).1
  = [WConnect "proxy" 8080; WProxyConnect "db" 2484; WNegotiateTls].
Proof.
  exact (proj1 (proj2 (proj2
           (connect_tcp_returns sample_env sample_params
              {| addr_host := "db"; addr_port := 2484; protocol := "tcps";
                 https_proxy := Some "proxy"%string;
                 https_proxy_port := 8080 |}
              "db" 2484 (fresh_world []) _ eq_refl)))).
Defined.

Section RedirectNext.

Variable E : Env.

(** X10. After a response with redirect data that has a NUL in it, the
    connect message the loop creates next is a new one (no redirect data,
    no error) addressed to the host and port parsed from the text before
    the NUL; its connect string is the text after the NUL, with its length
    as a 16-bit number; its packet flags are [TNS_PACKET_FLAG_REDIRECT]
    over [tcp] and the flags of the packet just received over [tcps]. *)
Theorem redirect_next_connect_message params address l w w1 rd h p w2 :
  (ensure_connect_message l ;;; _process_message E ConnectMsg) w
  = (w1, Ok tt) ->
  redirect_data (msgs (heap w1) ConnectMsg) = Some rd ->
  0 <= str_find "000"%char rd ->
  parse_connect_string E (str_slice 0 (str_find "000"%char rd) rd)
  = Ok (h, p) ->
  _connect_tcp E params address h p w1 = (w2, Ok tt) ->
  exists w3 l',
    phase_one_iteration E params address l w = (w3, Ok (inl l'))
    /\ let m := msgs (heap (ensure_connect_message l' w3).1) ConnectMsg in
       let after := str_slice (str_find "000"%char rd + 1)
                      (Z.of_nat (String.length rd)) rd in
       host m = h /\ port m = p
       /\ connect_string_bytes m = after
       /\ connect_string_len m = Z.of_nat (String.length after) mod 65536
       /\ redirect_data m = None
       /\ error_occurred m = false
       /\ msg_packet_flags m
          = if String.eqb (protocol address) "tcps"
            then packet_flags (_current_packet (_read_buf (proto w2)))
            else TNS_PACKET_FLAG_REDIRECT (consts E).
Proof.
  intros Hproc Hrd Hpos Hparse Htcp.
  destruct (redirect_round E params address l w w1 rd h p w2
              Hproc Hrd Hpos Hparse Htcp)
    as (w3 & l' & Hit & Hm & Hh & Hp & Hs & Hf).
  exists w3, l'. split; [exact Hit|].
  unfold ensure_connect_message. rewrite Hm. simpl.
  rewrite Hh, Hp, Hs, Hf. done.
Qed.

(** X11. When the first response of the listener carries redirect data
    without a NUL, [_connect_phase_one] raises ERR_INVALID_REDIRECT_DATA
    in the state the response left: no second connection is attempted
    and nothing more is sent. *)
Theorem phase_one_rejects_redirect_without_nul
    params address connect_string w w1 w2 rd :
  _connect_tcp E params address (addr_host address) (addr_port address)
    (with_proto (fun p =>
       set_caps (set_supports_oob
                   (negb (disable_oob params) && negb (platform_is_win32 E))
                   (_caps p)) p) w) = (w1, Ok tt) ->
  (ensure_connect_message
     {| connect_message := None; l_packet_flags := 0;
        l_host := addr_host address; l_port := addr_port address;
        l_connect_string := connect_string |} ;;;
   _process_message E ConnectMsg) w1 = (w2, Ok tt) ->
  redirect_data (msgs (heap w2) ConnectMsg) = Some rd ->
  str_find "000"%char rd < 0 ->
  _connect_phase_one E params address connect_string w
  = Some (w2, Raise (DriverError ERR_INVALID_REDIRECT_DATA)).
Proof.
  intros Htcp Hproc Hrd Hneg. unfold _connect_phase_one. rewrite Htcp.
  simpl.
  by rewrite (redirect_without_nul E params address _ w1 w2 rd Hproc Hrd Hneg).
Qed.

End RedirectNext.

Lemma redirect_next_connect_message_witness :
  let w := (_connect_tcp sample_env sample_params (sample_address "tcp")
              "h1" 1521
              (fresh_world [RecvPacket redirect_packet;
                            RecvPacket accept_packet])).1 in
  let l := {| connect_message := None; l_packet_flags := 0;
              l_host := "h1"; l_port := 1521; l_connect_string := "cs" |} in
  exists w3 l',
    phase_one_iteration sample_env sample_params (sample_address "tcp") l w
    = (w3, Ok (inl l'))
    /\ let m := msgs (heap (ensure_connect_message l' w3).1) ConnectMsg in
       host m = "h2"%string /\ port m = 1521
       /\ connect_string_bytes m = "original"%string
       /\ connect_string_len m = 8
       /\ msg_packet_flags m = 4.
Proof.
  cbv zeta.
  edestruct (redirect_next_connect_message sample_env sample_params
               (sample_address "tcp")
               {| connect_message := None; l_packet_flags := 0;
                  l_host := "h1"; l_port := 1521; l_connect_string := "cs" |}
               (_connect_tcp sample_env sample_params (sample_address "tcp")
                  "h1" 1521
                  (fresh_world [RecvPacket redirect_packet;
                                RecvPacket accept_packet])).1)
    as (w3 & l' & Hit & Hh & Hp & Hs & Hl & _ & _ & Hf).
  - vm_compute. reflexivity.
  - vm_compute. reflexivity.
  - vm_compute. discriminate.
  - vm_compute. reflexivity.
  - vm_compute. reflexivity.
  - exists w3, l'. split; [exact Hit|]. cbv zeta.
    rewrite Hh, Hp, Hs, Hl, Hf. repeat split.
Defined.

Lemma phase_one_rejects_redirect_without_nul_witness :
  phase_one_observed
    (_connect_phase_one sample_env sample_params (sample_address "tcp") "cs"
       (fresh_world
          [RecvPacket {| packet_type := TNS_PACKET_TYPE_REDIRECT;
                         packet_flags := 0; payload := encode "nowhere" |};
           RecvPacket accept_packet]))
  = Some (Raise (DriverError ERR_INVALID_REDIRECT_DATA),
          [WConnect "h1" 1521;
           WPacket RegularBuffer TNS_PACKET_TYPE_CONNECT 0 (encode "cs")],
          0).
Proof.
  set (W := fresh_world
               [RecvPacket {| packet_type := TNS_PACKET_TYPE_REDIRECT;
                              packet_flags := 0;
                              payload := encode "nowhere" |};
                RecvPacket accept_packet]).
  pose (w1 := (_connect_tcp sample_env sample_params (sample_address "tcp")
                 "h1" 1521
                 (with_proto (fun p =>
                    set_caps (set_supports_oob true (_caps p)) p) W)).1).
  pose (w2 := ((ensure_connect_message
                  {| connect_message := None; l_packet_flags := 0;
                     l_host := "h1"; l_port := 1521;
                     l_connect_string := "cs" |} ;;;
                _process_message sample_env ConnectMsg) w1).1).
  rewrite (phase_one_rejects_redirect_without_nul sample_env sample_params
             (sample_address "tcp") "cs" W w1 w2 "nowhere");
    vm_compute; reflexivity.
Defined.

(** ** The connect data, the rowid and the version number *)

Lemma count_char_app c s1 s2 :
  UtilsMore.count_char c (s1 ++ s2)%string
  = (UtilsMore.count_char c s1 + UtilsMore.count_char c s2)%nat.
Proof. induction s1 as [|a s1 IH]; simpl; [done|]. rewrite IH. lia. Qed.

Lemma count_char_sanitize c value :
  c = "("%char \/ c = ")"%char \/ c = "="%char ->
  UtilsMore.count_char c (Utils._sanitize value) = 0%nat.
Proof.
  intros Hc. induction value as [|a rest IH]; [done|].
  rewrite sanitize_cons. simpl. rewrite IH.
  unfold Utils.sanitize_char.
  destruct (Ascii.eqb_spec a "(") as [->|H1];
    [by (destruct Hc as [Hc|[Hc|Hc]]; subst c)|].
  destruct (Ascii.eqb_spec a ")") as [->|H2];
    [by (destruct Hc as [Hc|[Hc|Hc]]; subst c)|].
  destruct (Ascii.eqb_spec a "=") as [->|H3];
    [by (destruct Hc as [Hc|[Hc|Hc]]; subst c)|].
  simpl. destruct (Ascii.eqb_spec a c) as [->|H4]; [|done].
  by destruct Hc as [Hc|[Hc|Hc]].
Qed.

(** X12. Whatever the program, machine and user names are, the CID has
    exactly three opening parentheses, three closing parentheses and
    three equals signs (those of PROGRAM, HOST and USER), and sanitizing
    a sanitized value changes nothing. *)
Theorem cid_has_three_groups executable hostname pid user :
  let cid := Utils.cid (Utils.ConnectConstants_init executable hostname pid
                          user) in
  UtilsMore.count_char "(" cid = 3%nat
  /\ UtilsMore.count_char ")" cid = 3%nat
  /\ UtilsMore.count_char "=" cid = 3%nat
  /\ forall value,
       Utils._sanitize (Utils._sanitize value) = Utils._sanitize value.
Proof.
  cbv zeta. unfold Utils.cid, Utils.ConnectConstants_init. simpl.
  repeat split.
  - rewrite !count_char_app, !count_char_sanitize by auto. reflexivity.
  - rewrite ?count_char_app.
    repeat (simpl; rewrite ?count_char_app, ?count_char_sanitize by auto).
    reflexivity.
  - repeat (simpl; rewrite ?count_char_app, ?count_char_sanitize by auto).
    reflexivity.
  - induction value as [|a rest IH]; [done|].
    rewrite !sanitize_cons, IH. f_equal. unfold Utils.sanitize_char.
    destruct (Ascii.eqb_spec a "(") as [->|H1]; [done|].
    destruct (Ascii.eqb_spec a ")") as [->|H2]; [done|].
    destruct (Ascii.eqb_spec a "=") as [->|H3]; [done|]. simpl.
    destruct (Ascii.eqb_spec a "("); [done|].
    destruct (Ascii.eqb_spec a ")"); [done|].
    by destruct (Ascii.eqb_spec a "=").
Qed.

Section Base64Facts.

Import UtilsMore.

Variable A : list Z.

Lemma land_63 v : Z.land v 63 = v mod 64.
Proof. change 63 with (Z.ones 6). by rewrite Z.land_ones. Qed.

Lemma shiftr_6 v : Z.shiftr v 6 = v / 64.
Proof. by rewrite Z.shiftr_div_pow2. Qed.

Lemma _convert_base64_loop_spec n : forall i buf value size offset,
  0 <= i -> i + Z.of_nat n = size -> 0 <= offset ->
  offset + size <= Z.of_nat (length buf) -> 0 <= value ->
  length (_convert_base64_loop A n i buf value size offset) = length buf
  /\ forall j : nat,
       _convert_base64_loop A n i buf value size offset !! j
       = if bool_decide (offset <= Z.of_nat j < offset + size - i)
         then Some (alphabet_at A
                      ((value / 64 ^ (offset + size - i - 1 - Z.of_nat j))
                       mod 64))
         else buf !! j.
Proof.
  induction n as [|n IH]; intros i buf value size offset Hi Hn Hoff Hlen Hv.
  - simpl. split; [done|]. intros j. rewrite bool_decide_false by lia. done.
  - simpl.
    destruct (IH (i + 1)
                (<[Z.to_nat (offset + size - i - 1)
                   := alphabet_at A (Z.land value 63)]> buf)
                (Z.shiftr value 6) size offset) as [IHlen IHget];
      try lia.
    { rewrite length_insert. lia. }
    { by apply Z.shiftr_nonneg. }
    rewrite IHlen, length_insert. split; [done|].
    intros j. rewrite IHget.
    destruct (decide (Z.of_nat j = offset + size - i - 1)) as [Hj|Hj].
    + rewrite bool_decide_false, bool_decide_true by lia.
      replace (Z.to_nat (offset + size - i - 1)) with j by lia.
      rewrite list_lookup_insert_eq by lia.
      replace (offset + size - i - 1 - Z.of_nat j) with 0 by lia.
      by rewrite land_63, Z.pow_0_r, Z.div_1_r.
    + rewrite list_lookup_insert_ne by lia.
      case_bool_decide as H1.
      * rewrite bool_decide_true by lia. f_equal. f_equal.
        rewrite shiftr_6, Z.div_div by lia. f_equal. f_equal.
        replace (offset + size - i - 1 - Z.of_nat j)
          with (Z.succ (offset + size - (i + 1) - 1 - Z.of_nat j)) by lia.
        rewrite Z.pow_succ_r by lia. done.
      * by rewrite bool_decide_false by lia.
Qed.

Lemma _convert_base64_lookup buf value size offset :
  0 <= size -> 0 <= offset ->
  offset + size <= Z.of_nat (length buf) -> 0 <= value ->
  length (_convert_base64 A buf value size offset).1 = length buf
  /\ forall j : nat,
       (_convert_base64 A buf value size offset).1 !! j
       = if bool_decide (offset <= Z.of_nat j < offset + size)
         then Some (alphabet_at A
                      ((value / 64 ^ (offset + size - 1 - Z.of_nat j))
                       mod 64))
         else buf !! j.
Proof.
  intros Hs Hoff Hlen Hv. unfold _convert_base64. simpl.
  destruct (_convert_base64_loop_spec (Z.to_nat size) 0 buf value size offset)
    as [Hl Hg]; try lia.
  split; [done|]. intros j. rewrite Hg.
  replace (offset + size - 0) with (offset + size) by lia. done.
Qed.

(** X13. [_convert_base64] returns [offset + size] and writes exactly the
    [size] positions from [offset] on, with the base-64 digits of the
    value (6 bits each), the most significant first, taken through the
    alphabet; the rest of the buffer and its length are as they were. *)
Theorem convert_base64_digits buf value size offset :
  0 <= size -> 0 <= offset ->
  offset + size <= Z.of_nat (length buf) -> 0 <= value ->
  (_convert_base64 A buf value size offset).2 = offset + size
  /\ length (_convert_base64 A buf value size offset).1 = length buf
  /\ forall j : nat,
       (_convert_base64 A buf value size offset).1 !! j
       = if bool_decide (offset <= Z.of_nat j < offset + size)
         then Some (alphabet_at A
                      ((value / 64 ^ (offset + size - 1 - Z.of_nat j))
                       mod 64))
         else buf !! j.
Proof.
  intros Hs Hoff Hlen Hv. unfold _convert_base64. simpl. split; [done|].
  destruct (_convert_base64_loop_spec (Z.to_nat size) 0 buf value size offset)
    as [Hl Hg]; try lia.
  split; [done|]. intros j. rewrite Hg.
  replace (offset + size - 0) with (offset + size) by lia. done.
Qed.

(** A number below [64 ^ n] is determined by its [n] base-64 digits. *)
Lemma digits_determine n : forall v v',
  0 <= v < 64 ^ Z.of_nat n -> 0 <= v' < 64 ^ Z.of_nat n ->
  (forall k, 0 <= k < Z.of_nat n ->
             (v / 64 ^ k) mod 64 = (v' / 64 ^ k) mod 64) ->
  v = v'.
Proof.
  induction n as [|n IH]; intros v v' Hv Hv' Hd.
  - simpl in *. lia.
  - rewrite Nat2Z.inj_succ, Z.pow_succ_r in Hv, Hv' by lia.
    assert (H0 : v mod 64 = v' mod 64).
    { specialize (Hd 0). rewrite Z.pow_0_r, !Z.div_1_r in Hd.
      apply Hd. lia. }
    assert (Hq : v / 64 = v' / 64).
    { apply IH.
      - split; [apply Z.div_pos; lia|apply Z.div_lt_upper_bound; lia].
      - split; [apply Z.div_pos; lia|apply Z.div_lt_upper_bound; lia].
      - intros k Hk. specialize (Hd (Z.succ k)).
        rewrite Z.pow_succ_r in Hd by lia.
        rewrite !Z.div_div by lia. apply Hd. lia. }
    rewrite (Z.div_mod v 64), (Z.div_mod v' 64) by lia. congruence.
Qed.

Lemma alphabet_at_inj i j :
  good_alphabet A -> 0 <= i < 64 -> 0 <= j < 64 ->
  alphabet_at A i = alphabet_at A j -> i = j.
Proof.
  intros (Hlen & Hnd & _) Hi Hj. unfold alphabet_at.
  destruct (lookup_lt_is_Some_2 A (Z.to_nat i)) as [x Hx]; [lia|].
  destruct (lookup_lt_is_Some_2 A (Z.to_nat j)) as [y Hy]; [lia|].
  rewrite Hx, Hy. simpl. intros ->.
  pose proof (NoDup_lookup _ _ _ _ Hnd Hx Hy). lia.
Qed.

Lemma alphabet_at_byte i :
  good_alphabet A -> 0 <= i < 64 -> 0 <= alphabet_at A i < 256.
Proof.
  intros (Hlen & _ & Hb) Hi. unfold alphabet_at.
  destruct (lookup_lt_is_Some_2 A (Z.to_nat i)) as [x Hx]; [lia|].
  rewrite Hx. simpl. rewrite Forall_forall in Hb. apply Hb.
  apply list_elem_of_lookup. eauto.
Qed.

End Base64Facts.

Section RowidFacts.

Import UtilsMore.

Variable A : list Z.

(** The local buffer of [_encode_rowid] after the four conversions. *)
Lemma _encode_rowid_unfold n buf r :
  _encode_rowid A n buf r
  = if negb (rba r =? 0) || negb (partition_id r =? 0)
       || negb (block_num r =? 0) || negb (slot_num r =? 0)
    then Some (decode (take (Z.to_nat n)
           (_convert_base64 A
              (_convert_base64 A
                 (_convert_base64 A
                    (_convert_base64 A buf (rba r) 6 0).1
                    (partition_id r) 3 6).1
                 (block_num r) 6 9).1
              (slot_num r) 3 15).1))
    else None.
Proof. reflexivity. Qed.

Lemma encoded_lookup buf r (j : nat) :
  (18 <= length buf)%nat -> in_range r ->
  (_convert_base64 A
     (_convert_base64 A
        (_convert_base64 A
           (_convert_base64 A buf (rba r) 6 0).1
           (partition_id r) 3 6).1
        (block_num r) 6 9).1
     (slot_num r) 3 15).1 !! j
  = if bool_decide (15 <= Z.of_nat j < 18)
    then Some (alphabet_at A ((slot_num r / 64 ^ (17 - Z.of_nat j)) mod 64))
    else if bool_decide (9 <= Z.of_nat j < 15)
    then Some (alphabet_at A ((block_num r / 64 ^ (14 - Z.of_nat j)) mod 64))
    else if bool_decide (6 <= Z.of_nat j < 9)
    then Some (alphabet_at A
                 ((partition_id r / 64 ^ (8 - Z.of_nat j)) mod 64))
    else if bool_decide (0 <= Z.of_nat j < 6)
    then Some (alphabet_at A ((rba r / 64 ^ (5 - Z.of_nat j)) mod 64))
    else buf !! j.
Proof.
  intros Hlen (Hr & Hp & Hb & Hs).
  destruct (_convert_base64_lookup A buf (rba r) 6 0) as (L1 & G1);
    try lia.
  destruct (_convert_base64_lookup A (_convert_base64 A buf (rba r) 6 0).1
              (partition_id r) 3 6) as (L2 & G2); try lia.
  destruct (_convert_base64_lookup A
              (_convert_base64 A (_convert_base64 A buf (rba r) 6 0).1
                 (partition_id r) 3 6).1
              (block_num r) 6 9) as (L3 & G3); try lia.
  destruct (_convert_base64_lookup A
              (_convert_base64 A
                 (_convert_base64 A (_convert_base64 A buf (rba r) 6 0).1
                    (partition_id r) 3 6).1
                 (block_num r) 6 9).1
              (slot_num r) 3 15) as (L4 & G4); try lia.
  rewrite G4, G3, G2, G1. reflexivity.
Qed.

Lemma decode_inj l l' :
  Forall (fun b => 0 <= b < 256) l -> Forall (fun b => 0 <= b < 256) l' ->
  decode l = decode l' -> l = l'.
Proof.
  intros Hl Hl' H. unfold decode in H.
  apply (f_equal list_ascii_of_string) in H.
  rewrite !list_ascii_of_string_of_list_ascii in H.
  revert l' Hl' H. induction Hl as [|b l Hb Hl IH]; intros l' Hl' H.
  - by destruct l'.
  - destruct Hl' as [|b' l' Hb' Hl']; [discriminate|].
    simpl in H. injection H as H0 H1.
    f_equal; [|by apply IH].
    apply (f_equal N_of_ascii) in H0.
    rewrite !N_ascii_embedding in H0 by lia. lia.
Qed.

Lemma all_zero_flag r :
  negb (rba r =? 0) || negb (partition_id r =? 0)
    || negb (block_num r =? 0) || negb (slot_num r =? 0) = false
  <-> rba r = 0 /\ partition_id r = 0 /\ block_num r = 0 /\ slot_num r = 0.
Proof.
  destruct (Z.eqb_spec (rba r) 0); destruct (Z.eqb_spec (partition_id r) 0);
    destruct (Z.eqb_spec (block_num r) 0);
    destruct (Z.eqb_spec (slot_num r) 0); simpl; split; try done;
    intros (? & ? & ? & ?); done.
Qed.

(** X14. [_encode_rowid] answers [None] exactly for the rowid whose four
    fields are zero. With an alphabet of 64 different characters and a
    buffer of 18 characters, what it returns does not depend on what the
    buffer held before, and rowids with different fields get different
    encodings. *)
Theorem encode_rowid_injective buf buf' r r' :
  good_alphabet A ->
  length buf = 18%nat -> length buf' = 18%nat ->
  in_range r -> in_range r' ->
  (_encode_rowid A 18 buf r = None
   <-> rba r = 0 /\ partition_id r = 0 /\ block_num r = 0 /\ slot_num r = 0)
  /\ _encode_rowid A 18 buf' r = _encode_rowid A 18 buf r
  /\ (_encode_rowid A 18 buf r = _encode_rowid A 18 buf' r' -> r = r').
Proof.
  intros Hgood Hlen Hlen' Hr Hr'.
  assert (Hbytes : forall b rw, length b = 18%nat -> in_range rw ->
            Forall (fun x => 0 <= x < 256)
              (_convert_base64 A
                 (_convert_base64 A
                    (_convert_base64 A
                       (_convert_base64 A b (rba rw) 6 0).1
                       (partition_id rw) 3 6).1
                    (block_num rw) 6 9).1
                 (slot_num rw) 3 15).1).
  { intros b rw Hb Hrw. apply Forall_lookup. intros j x Hx.
    pose proof (lookup_lt_Some _ _ _ Hx) as Hj.
    rewrite encoded_lookup in Hx by (done || lia).
    assert (Hj18 : (j < 18)%nat).
    { destruct Hrw as (H1 & H2 & H3 & H4).
      destruct (_convert_base64_lookup A b (rba rw) 6 0) as (L1 & _);
        try lia.
      destruct (_convert_base64_lookup A (_convert_base64 A b (rba rw) 6 0).1
                  (partition_id rw) 3 6) as (L2 & _); try lia.
      destruct (_convert_base64_lookup A
                  (_convert_base64 A (_convert_base64 A b (rba rw) 6 0).1
                     (partition_id rw) 3 6).1
                  (block_num rw) 6 9) as (L3 & _); try lia.
      destruct (_convert_base64_lookup A
                  (_convert_base64 A
                     (_convert_base64 A
                        (_convert_base64 A b (rba rw) 6 0).1
                        (partition_id rw) 3 6).1
                     (block_num rw) 6 9).1
                  (slot_num rw) 3 15) as (L4 & _); try lia. }
    repeat case_bool_decide; try lia; apply (inj Some) in Hx; subst x;
      apply alphabet_at_byte; try done; apply Z.mod_pos_bound; lia. }
  assert (Heq : forall b b' rw rw',
            length b = 18%nat -> length b' = 18%nat ->
            in_range rw -> in_range rw' ->
            _encode_rowid A 18 b rw = _encode_rowid A 18 b' rw' ->
            negb (rba rw =? 0) || negb (partition_id rw =? 0)
              || negb (block_num rw =? 0) || negb (slot_num rw =? 0) = true ->
            forall j : nat, (j < 18)%nat ->
              forall f f' e,
                (forall bb rr, (18 <= length bb)%nat -> in_range rr ->
                   (_convert_base64 A
                      (_convert_base64 A
                         (_convert_base64 A
                            (_convert_base64 A bb (rba rr) 6 0).1
                            (partition_id rr) 3 6).1
                         (block_num rr) 6 9).1
                      (slot_num rr) 3 15).1 !! j
                   = Some (alphabet_at A ((f rr / 64 ^ e) mod 64))) ->
                f' = f rw' ->
                (f rw / 64 ^ e) mod 64 = (f' / 64 ^ e) mod 64).
  { intros b b' rw rw' Hb Hb' Hrw Hrw' H Hnz j Hj f f' e Hget ->.
    rewrite !_encode_rowid_unfold, Hnz in H.
    destruct (negb (rba rw' =? 0) || negb (partition_id rw' =? 0)
              || negb (block_num rw' =? 0) || negb (slot_num rw' =? 0));
      [|discriminate].
    apply (inj Some) in H.
    apply decode_inj in H.
    - apply (f_equal (fun l => l !! j)) in H.
      rewrite !lookup_take, !decide_True in H by lia.
      rewrite !Hget in H by (done || lia). apply (inj Some) in H.
      apply (alphabet_at_inj A) in H; try done; apply Z.mod_pos_bound; lia.
    - apply Forall_take. by apply Hbytes.
    - apply Forall_take. by apply Hbytes. }
  split; [|split].
  - rewrite _encode_rowid_unfold.
    destruct (negb (rba r =? 0) || negb (partition_id r =? 0)
              || negb (block_num r =? 0) || negb (slot_num r =? 0)) eqn:Hnz.
    + split; [discriminate|]. intros Hz. apply all_zero_flag in Hz.
      congruence.
    + split; [intros _; by apply all_zero_flag|done].
  - rewrite !_encode_rowid_unfold.
    destruct (negb _ || _ || _ || _); [|done]. do 2 f_equal.
    apply list_eq. intros j. rewrite !lookup_take.
    case_decide as Hj; [|done].
    rewrite !encoded_lookup by (done || lia).
    repeat case_bool_decide; try done; lia.
  - intros H.
    destruct (negb (rba r =? 0) || negb (partition_id r =? 0)
              || negb (block_num r =? 0) || negb (slot_num r =? 0)) eqn:Hnz.
    + assert (H1 : rba r = rba r').
      { destruct Hr as (? & ? & ? & ?), Hr' as (? & ? & ? & ?).
        apply (digits_determine 6); [lia|lia|]. intros k Hk.
        apply (Heq buf buf' r r' Hlen Hlen'
                 ltac:(done) ltac:(done) H Hnz (Z.to_nat (5 - k))
                 ltac:(lia) rba (rba r') k); [|done].
        intros bb rr Hbb Hrr. rewrite encoded_lookup by done.
        repeat case_bool_decide; try lia.
        replace (5 - Z.of_nat (Z.to_nat (5 - k))) with k by lia. done. }
      assert (H2 : partition_id r = partition_id r').
      { destruct Hr as (? & ? & ? & ?), Hr' as (? & ? & ? & ?).
        apply (digits_determine 3); [lia|lia|]. intros k Hk.
        apply (Heq buf buf' r r' Hlen Hlen'
                 ltac:(done) ltac:(done) H Hnz (Z.to_nat (8 - k))
                 ltac:(lia) partition_id (partition_id r') k); [|done].
        intros bb rr Hbb Hrr. rewrite encoded_lookup by done.
        repeat case_bool_decide; try lia.
        replace (8 - Z.of_nat (Z.to_nat (8 - k))) with k by lia. done. }
      assert (H3 : block_num r = block_num r').
      { destruct Hr as (? & ? & ? & ?), Hr' as (? & ? & ? & ?).
        apply (digits_determine 6); [lia|lia|]. intros k Hk.
        apply (Heq buf buf' r r' Hlen Hlen'
                 ltac:(done) ltac:(done) H Hnz (Z.to_nat (14 - k))
                 ltac:(lia) block_num (block_num r') k); [|done].
        intros bb rr Hbb Hrr. rewrite encoded_lookup by done.
        repeat case_bool_decide; try lia.
        replace (14 - Z.of_nat (Z.to_nat (14 - k))) with k by lia. done. }
      assert (H4 : slot_num r = slot_num r').
      { destruct Hr as (? & ? & ? & ?), Hr' as (? & ? & ? & ?).
        apply (digits_determine 3); [lia|lia|]. intros k Hk.
        apply (Heq buf buf' r r' Hlen Hlen'
                 ltac:(done) ltac:(done) H Hnz (Z.to_nat (17 - k))
                 ltac:(lia) slot_num (slot_num r') k); [|done].
        intros bb rr Hbb Hrr. rewrite encoded_lookup by done.
        repeat case_bool_decide; try lia.
        replace (17 - Z.of_nat (Z.to_nat (17 - k))) with k by lia. done. }
      clear -H1 H2 H3 H4.
      destruct r, r'. cbn [rba partition_id block_num slot_num] in *.
      congruence.
    + rewrite (_encode_rowid_unfold _ buf r), Hnz in H.
      rewrite _encode_rowid_unfold in H.
      destruct (negb (rba r' =? 0) || negb (partition_id r' =? 0)
                || negb (block_num r' =? 0) || negb (slot_num r' =? 0))
        eqn:Hnz'; [discriminate|].
      apply all_zero_flag in Hnz as (? & ? & ? & ?).
      apply all_zero_flag in Hnz' as (? & ? & ? & ?).
      destruct r, r'. cbn [rba partition_id block_num slot_num] in *.
      congruence.
Qed.

End RowidFacts.

Lemma base64_alphabet_good : UtilsMore.good_alphabet UtilsMore.base64_alphabet.
Proof.
  split; [reflexivity|]. split.
  - apply (bool_decide_unpack _). vm_compute. exact I.
  - apply (bool_decide_unpack _). vm_compute. exact I.
Qed.

Lemma convert_base64_digits_witness :
  UtilsMore._convert_base64 UtilsMore.base64_alphabet [0; 0; 0; 0] 129 3 1
  = ([0; 65; 67; 66], 4).
Proof.
  destruct (convert_base64_digits UtilsMore.base64_alphabet [0; 0; 0; 0]
              129 3 1) as (H2 & _ & _); [lia|lia|simpl; lia|lia|].
  reflexivity.
Defined.

Lemma encode_rowid_injective_witness :
  UtilsMore._encode_rowid UtilsMore.base64_alphabet 18 (replicate 18 0)
    {| UtilsMore.rba := 75001; UtilsMore.partition_id := 4;
       UtilsMore.block_num := 131; UtilsMore.slot_num := 0 |}
  = UtilsMore._encode_rowid UtilsMore.base64_alphabet 18 (replicate 18 255)
      {| UtilsMore.rba := 75001; UtilsMore.partition_id := 4;
         UtilsMore.block_num := 131; UtilsMore.slot_num := 0 |}.
Proof.
  symmetry.
  apply (encode_rowid_injective UtilsMore.base64_alphabet
           (replicate 18 0) (replicate 18 255)
           {| UtilsMore.rba := 75001; UtilsMore.partition_id := 4;
              UtilsMore.block_num := 131; UtilsMore.slot_num := 0 |}
           {| UtilsMore.rba := 75001; UtilsMore.partition_id := 4;
              UtilsMore.block_num := 131; UtilsMore.slot_num := 0 |}
           base64_alphabet_good eq_refl eq_refl);
    unfold UtilsMore.in_range; simpl; lia.
Defined.

(** The rowid of the witness, encoded. *)
Example encode_rowid_example :
  UtilsMore._encode_rowid UtilsMore.base64_alphabet 18 (replicate 18 0)
    {| UtilsMore.rba := 75001; UtilsMore.partition_id := 4;
       UtilsMore.block_num := 131; UtilsMore.slot_num := 0 |}
  = Some "AAAST5AAEAAAACDAAA"%string.
Proof. vm_compute. reflexivity. Qed.

Lemma testbit_small x k n :
  0 <= x < 2 ^ k -> 0 <= k <= n -> Z.testbit x n = false.
Proof.
  intros Hx Hk. destruct (Z.eq_dec x 0) as [->|Hne]; [apply Z.bits_0|].
  apply Z.bits_above_log2; [lia|].
  assert (Z.log2 x < k) by (apply Z.log2_lt_pow2; lia). lia.
Qed.

(** X15. The three components of the version can be read back from
    [full_version_num] when the minor number is below 16 and the patch
    number below 256: the major number is the number shifted right by 24,
    the minor number its bits 20 to 23, the patch number its bits 12 to
    19; the low 12 bits are zero. *)
Theorem full_version_num_fields major minor patch :
  0 <= major -> 0 <= minor < 16 -> 0 <= patch < 256 ->
  let v := UtilsMore.full_version_num major minor patch in
  Z.shiftr v 24 = major
  /\ Z.land (Z.shiftr v 20) 15 = minor
  /\ Z.land (Z.shiftr v 12) 255 = patch
  /\ Z.land v 4095 = 0.
Proof.
  intros Hmaj Hmin Hpat. cbv zeta. unfold UtilsMore.full_version_num.
  repeat split; apply Z.bits_inj'; intros n Hn.
  - rewrite Z.shiftr_spec, !Z.lor_spec, !Z.shiftl_spec by lia.
    replace (n + 24 - 24) with n by lia.
    rewrite (testbit_small minor 4 (n + 24 - 20)) by lia.
    rewrite (testbit_small patch 8 (n + 24 - 12)) by lia.
    by rewrite !orb_false_r.
  - change 15 with (Z.ones 4).
    rewrite Z.land_spec, Z.shiftr_spec, !Z.lor_spec, !Z.shiftl_spec by lia.
    destruct (Z.lt_ge_cases n 4) as [Hlt|Hge].
    + rewrite Z.ones_spec_low by lia.
      rewrite (Z.testbit_neg_r major (n + 20 - 24)) by lia.
      rewrite (testbit_small patch 8 (n + 20 - 12)) by lia.
      replace (n + 20 - 20) with n by lia.
      by rewrite orb_false_r, andb_true_r.
    + rewrite Z.ones_spec_high by lia.
      rewrite (testbit_small minor 4 n) by lia. apply andb_false_r.
  - change 255 with (Z.ones 8).
    rewrite Z.land_spec, Z.shiftr_spec, !Z.lor_spec, !Z.shiftl_spec by lia.
    destruct (Z.lt_ge_cases n 8) as [Hlt|Hge].
    + rewrite Z.ones_spec_low by lia.
      rewrite (Z.testbit_neg_r major (n + 12 - 24)) by lia.
      rewrite (Z.testbit_neg_r minor (n + 12 - 20)) by lia.
      replace (n + 12 - 12) with n by lia.
      by rewrite andb_true_r.
    + rewrite Z.ones_spec_high by lia.
      rewrite (testbit_small patch 8 n) by lia. apply andb_false_r.
  - change 4095 with (Z.ones 12).
    rewrite Z.land_spec, !Z.lor_spec, !Z.shiftl_spec, Z.bits_0 by lia.
    destruct (Z.lt_ge_cases n 12) as [Hlt|Hge].
    + rewrite (Z.testbit_neg_r major), (Z.testbit_neg_r minor),
        (Z.testbit_neg_r patch) by lia. done.
    + rewrite Z.ones_spec_high by lia. apply andb_false_r.
Qed.

Lemma full_version_num_fields_witness :
  Z.shiftr (UtilsMore.full_version_num 2 1 0) 24 = 2
  /\ Z.land (Z.shiftr (UtilsMore.full_version_num 2 1 0) 20) 15 = 1
  /\ Z.land (Z.shiftr (UtilsMore.full_version_num 2 1 0) 12) 255 = 0
  /\ Z.land (UtilsMore.full_version_num 2 1 0) 4095 = 0.
Proof. apply (full_version_num_fields 2 1 0); lia. Defined.

(** ** Database types by name *)

Section TypesByName.

Import Types.

Variable K : BaseConstants.

Lemma init_all_names l : forall r r',
  init_all K l r = Ok r' ->
  db_type_by_ora_name r'
  = foldl (fun m d => <[_ora_name d := d]> m) (db_type_by_ora_name r) l.
Proof.
  induction l as [|d l IH]; simpl; intros r r'.
  - by intros [= <-].
  - unfold DbType_init at 1.
    destruct (list_setitem _ _ _) as [l1|e]; [|discriminate].
    intros H. by rewrite (IH _ _ H).
Qed.

Lemma foldl_names_notin l : forall (m : gmap string DbType) name,
  name ∉ _ora_name <$> l ->
  foldl (fun m d => <[_ora_name d := d]> m) m l !! name = m !! name.
Proof.
  induction l as [|d l IH]; simpl; intros m name Hn; [done|].
  rewrite not_elem_of_cons in Hn. destruct Hn as [Hne Hn].
  rewrite IH by done. by rewrite lookup_insert_ne.
Qed.

Lemma foldl_names_in l : forall (m : gmap string DbType) d,
  NoDup (_ora_name <$> l) -> d ∈ l ->
  foldl (fun m d => <[_ora_name d := d]> m) m l !! _ora_name d = Some d.
Proof.
  induction l as [|d0 l IH]; simpl; intros m d Hnd Hin.
  - by apply elem_of_nil in Hin.
  - apply NoDup_cons in Hnd as [Hn Hnd].
    apply elem_of_cons in Hin as [->|Hin].
    + rewrite foldl_names_notin by done. apply lookup_insert_eq.
    + by apply IH.
Qed.

(** X16. Once the module is initialized, every registered type is found
    under its Oracle name, the eight aliases lead to NUMBER, BOOLEAN and
    BINARY_INTEGER, and any other name raises
    ERR_ORACLE_TYPE_NAME_NOT_SUPPORTED. *)
Theorem from_ora_name_lookup r :
  module_init K = Ok r ->
  (forall d, d ∈ registered K -> _from_ora_name r (_ora_name d) = Ok d)
  /\ _from_ora_name r "DOUBLE PRECISION" = Ok (DB_TYPE_NUMBER K)
  /\ _from_ora_name r "FLOAT" = Ok (DB_TYPE_NUMBER K)
  /\ _from_ora_name r "INTEGER" = Ok (DB_TYPE_NUMBER K)
  /\ _from_ora_name r "PL/SQL BOOLEAN" = Ok (DB_TYPE_BOOLEAN K)
  /\ _from_ora_name r "PL/SQL BINARY INTEGER" = Ok (DB_TYPE_BINARY_INTEGER K)
  /\ _from_ora_name r "PL/SQL PLS INTEGER" = Ok (DB_TYPE_BINARY_INTEGER K)
  /\ _from_ora_name r "REAL" = Ok (DB_TYPE_NUMBER K)
  /\ _from_ora_name r "SMALLINT" = Ok (DB_TYPE_NUMBER K)
  /\ (forall name,
        name ∉ (_ora_name <$> registered K)
               ++ ["DOUBLE PRECISION"; "FLOAT"; "INTEGER";
                   "PL/SQL BOOLEAN"; "PL/SQL BINARY INTEGER";
                   "PL/SQL PLS INTEGER"; "REAL"; "SMALLINT"]%string ->
        _from_ora_name r name
        = Raise (DriverError ERR_ORACLE_TYPE_NAME_NOT_SUPPORTED)).
Proof.
  unfold module_init.
  destruct (init_all K (registered K) (empty_registry K)) as [r1|e] eqn:Hi;
    [|discriminate].
  intros [= <-]. apply init_all_names in Hi.
  change (db_type_by_ora_name (empty_registry K)) with (∅ : gmap string DbType)
    in Hi.
  unfold _from_ora_name, dict_getitem, add_aliases.
  cbn [db_type_by_ora_name].
  repeat apply conj.
  - intros d Hin.
    assert (Hnames : _ora_name d ∈ _ora_name <$> registered K)
      by (by apply list_elem_of_fmap_2).
    assert (Hdis : Forall (fun n =>
              n ∉ ["DOUBLE PRECISION"; "FLOAT"; "INTEGER"; "PL/SQL BOOLEAN";
                   "PL/SQL BINARY INTEGER"; "PL/SQL PLS INTEGER"; "REAL";
                   "SMALLINT"]%string) (_ora_name <$> registered K)).
    { set (names := _ora_name <$> registered K). vm_compute in names.
      subst names. apply (bool_decide_unpack _). vm_compute. exact I. }
    rewrite Forall_forall in Hdis. specialize (Hdis _ Hnames).
    rewrite !not_elem_of_cons in Hdis.
    destruct Hdis as (H1 & H2 & H3 & H4 & H5 & H6 & H7 & H8 & _).
    rewrite !lookup_insert_ne by done. rewrite Hi.
    rewrite foldl_names_in; [done| |done].
    set (names := _ora_name <$> registered K). vm_compute in names.
    subst names. apply (bool_decide_unpack _). vm_compute. exact I.
  - rewrite !lookup_insert_ne by done. by rewrite lookup_insert_eq.
  - rewrite !lookup_insert_ne by done. by rewrite lookup_insert_eq.
  - rewrite !lookup_insert_ne by done. by rewrite lookup_insert_eq.
  - rewrite !lookup_insert_ne by done. by rewrite lookup_insert_eq.
  - rewrite !lookup_insert_ne by done. by rewrite lookup_insert_eq.
  - rewrite !lookup_insert_ne by done. by rewrite lookup_insert_eq.
  - rewrite !lookup_insert_ne by done. by rewrite lookup_insert_eq.
  - by rewrite lookup_insert_eq.
  - intros name Hn. rewrite not_elem_of_app in Hn. destruct Hn as [Hreg Hal].
    rewrite !not_elem_of_cons in Hal.
    destruct Hal as (H1 & H2 & H3 & H4 & H5 & H6 & H7 & H8 & _).
    rewrite !lookup_insert_ne by done. rewrite Hi.
    rewrite foldl_names_notin by done. by rewrite lookup_empty.
Qed.

End TypesByName.

Lemma from_ora_name_lookup_witness :
  exists r,
    Types.module_init Types.odpi_constants = Ok r
    /\ Types._from_ora_name r "VARCHAR2"
       = Ok (Types.DB_TYPE_VARCHAR Types.odpi_constants)
    /\ Types._from_ora_name r "INTEGER"
       = Ok (Types.DB_TYPE_NUMBER Types.odpi_constants)
    /\ Types._from_ora_name r "GEOMETRY"
       = Raise (DriverError ERR_ORACLE_TYPE_NAME_NOT_SUPPORTED).
Proof.
  destruct (Types.module_init Types.odpi_constants) as [r|e] eqn:Hr;
    [|vm_compute in Hr; discriminate].
  exists r. split; [done|].
  destruct (from_ora_name_lookup Types.odpi_constants r Hr)
    as (Hreg & _ & _ & Hint & _ & _ & _ & _ & _ & Hother).
  split; [|split].
  - apply (Hreg (Types.DB_TYPE_VARCHAR Types.odpi_constants)).
    apply (bool_decide_unpack _). vm_compute. exact I.
  - exact Hint.
  - apply Hother. apply (bool_decide_unpack _). vm_compute. exact I.
Defined.

(** ** What a lookup can return *)

Section LookupSound.

Import Types.

Variable K : BaseConstants.

Lemma init_all_sound l : forall r r',
  init_all K l r = Ok r' ->
  Forall (fun d => 0 <= slot K (num d)) l ->
  (forall i d, db_type_by_num r' !! i = Some (Some d) ->
     (d ∈ l /\ Z.to_nat (slot K (num d)) = i)
     \/ db_type_by_num r !! i = Some (Some d))
  /\ (forall k d, db_type_by_ora_type_num r' !! k = Some d ->
        (d ∈ l /\ ora_type_key d = k)
        \/ db_type_by_ora_type_num r !! k = Some d).
Proof.
  induction l as [|d0 l IH]; simpl; intros r r'.
  - intros [= <-] _. split; intros; by right.
  - destruct (DbType_init K d0 r) as [r1|e] eqn:Hd; [|discriminate].
    intros Hrest Hpos. inversion_clear Hpos as [|? ? Hd0 Hl0].
    destruct (IH _ _ Hrest Hl0) as [IH1 IH2].
    destruct (DbType_init_Ok K _ _ _ Hd Hd0) as (Hlt & E1 & E2).
    split.
    + intros i d Hi. destruct (IH1 i d Hi) as [[Hin Hslot]|Hr1].
      * left. split; [by right|done].
      * rewrite E1 in Hr1.
        destruct (decide (i = Z.to_nat (slot K (num d0)))) as [->|Hne].
        -- rewrite list_lookup_insert_eq in Hr1 by lia.
           injection Hr1 as ->. left. split; [by left|done].
        -- rewrite list_lookup_insert_ne in Hr1 by done. by right.
    + intros k d Hk. destruct (IH2 k d Hk) as [[Hin Hkey]|Hr1].
      * left. split; [by right|done].
      * rewrite E2 in Hr1.
        destruct (decide (k = ora_type_key d0)) as [->|Hne].
        -- rewrite lookup_insert_eq in Hr1. injection Hr1 as ->.
           left. split; [by left|done].
        -- rewrite lookup_insert_ne in Hr1 by done. by right.
Qed.

(** X17. A lookup never answers with a type registered under another key.
    What [_from_ora_type_and_csfrm] returns is a registered type with
    exactly that Oracle type number and charset form; a type [_from_num]
    returns is a registered type stored in the slot of the number asked
    for (so it has that number, when both are not 0). *)
Theorem lookups_are_sound r :
  Forall (fun d => 0 <= slot K (num d)) (registered K) ->
  module_init K = Ok r ->
  (forall ora_type_num csfrm d,
     0 <= ora_type_num < 256 -> 0 <= csfrm < 256 ->
     _from_ora_type_and_csfrm r ora_type_num csfrm = Ok d ->
     d ∈ registered K /\ _ora_type_num d = ora_type_num /\ _csfrm d = csfrm)
  /\ (forall n d,
        _from_num K r n = Ok (Some d) ->
        d ∈ registered K
        /\ slot K (num d)
           = if negb (n =? 0) then uint32 (n - DB_TYPE_NUM_MIN K) else n).
Proof.
  intros Hpos. unfold module_init.
  destruct (init_all K (registered K) (empty_registry K)) as [r1|e] eqn:Hi;
    [|discriminate].
  intros [= <-].
  destruct (init_all_sound _ _ _ Hi Hpos) as [S1 S2]. split.
  - intros t c d Ht Hc. unfold _from_ora_type_and_csfrm, dict_getitem.
    cbn [db_type_by_ora_type_num add_aliases].
    destruct (db_type_by_ora_type_num r1 !! uint16 (c * 256 + t))
      as [d'|] eqn:Hk; [|discriminate].
    intros [= ->]. destruct (S2 _ _ Hk) as [[Hin Hkey]|Hempty].
    + split; [done|].
      assert (Hsmall : Forall (fun p : Z * Z =>
                                 0 <= p.1 < 256 /\ 0 <= p.2 < 256)
                         ((fun d => (_ora_type_num d, _csfrm d))
                            <$> registered K)).
      { set (pairs := (fun d => (_ora_type_num d, _csfrm d)) <$> registered K).
        vm_compute in pairs. subst pairs.
        apply (bool_decide_unpack _). vm_compute. exact I. }
      rewrite Forall_fmap, Forall_forall in Hsmall.
      destruct (Hsmall d Hin) as [Ho Hf]. simpl in Ho, Hf.
      unfold ora_type_key, uint16 in Hkey.
      rewrite !Z.mod_small in Hkey by lia. lia.
    + cbn in Hempty. by rewrite lookup_empty in Hempty.
  - intros n d. unfold _from_num, list_getitem.
    cbn [db_type_by_num add_aliases].
    destruct (db_type_by_num r1 !! Z.to_nat _) as [[d'|]|] eqn:Hk;
      try discriminate.
    intros [= ->]. destruct (S1 _ _ Hk) as [[Hin Hslot]|Hempty].
    + split; [done|].
      rewrite Forall_forall in Hpos. specialize (Hpos d Hin).
      assert (0 <= (if negb (n =? 0)
                    then uint32 (n - DB_TYPE_NUM_MIN K) else n)).
      { destruct (Z.eqb_spec n 0); simpl; [lia|].
        unfold uint32. apply Z.mod_pos_bound. lia. }
      lia.
    + cbn in Hempty. apply lookup_replicate in Hempty as [? _].
      discriminate.
Qed.

End LookupSound.

Lemma lookups_are_sound_witness :
  exists r,
    Types.module_init Types.odpi_constants = Ok r
    /\ Types._from_ora_type_and_csfrm r 96 2
       = Ok (Types.DB_TYPE_NCHAR Types.odpi_constants)
    /\ forall d,
         Types._from_ora_type_and_csfrm r 96 2 = Ok d ->
         d ∈ Types.registered Types.odpi_constants
         /\ Types._ora_type_num d = 96 /\ Types._csfrm d = 2.
Proof.
  destruct (Types.module_init Types.odpi_constants) as [r|e] eqn:Hr;
    [|vm_compute in Hr; discriminate].
  exists r. split; [done|]. split.
  - vm_compute in Hr. injection Hr as <-. vm_compute. reflexivity.
  - intros d.
    apply (proj1 (lookups_are_sound Types.odpi_constants r
                    ltac:(apply (bool_decide_unpack _); vm_compute; exact I)
                    Hr)); lia.
Defined.

(** ** The connect loop ends *)

Section PhaseOneRounds.

Variable E : Env.

(** X18. Every round of the connect loop that goes round again has taken
    at least one packet from the peer: with more rounds allowed than the
    peer has packets to deliver the loop comes to a result (a return or an
    exception), the same for any such number of rounds. *)
Theorem phase_one_rounds_bounded rounds params address l w :
  (length (incoming w) < rounds)%nat ->
  is_Some (phase_one_loop E rounds params address l w)
  /\ phase_one_loop E rounds params address l w
     = phase_one_loop E (S (length (incoming w))) params address l w.
Proof.
  assert (H : forall rounds l w,
            (length (incoming w) < rounds)%nat ->
            exists r, forall rounds',
              (length (incoming w) < rounds')%nat ->
              phase_one_loop E rounds' params address l w = Some r).
  { clear. induction rounds as [|rounds IH]; intros l w Hlt; [lia|].
    destruct (phase_one_iteration E params address l w)
      as [w1 [[l1|c]|e]] eqn:Hit.
    - pose proof (consumes_phase_one_iteration E _ _ _ _ _ _ Hit) as Hlen.
      destruct (IH l1 w1) as [r Hr]; [lia|].
      exists r. intros [|rounds'] Hr'; [lia|].
      simpl. rewrite Hit. apply Hr. lia.
    - eexists. intros [|rounds'] Hr'; [lia|]. simpl. by rewrite Hit.
    - eexists. intros [|rounds'] Hr'; [lia|]. simpl. by rewrite Hit. }
  intros Hlt. destruct (H rounds l w Hlt) as [r Hr].
  rewrite (Hr rounds Hlt), (Hr (S (length (incoming w)))) by lia.
  split; [by eexists|done].
Qed.

End PhaseOneRounds.

Lemma phase_one_rounds_bounded_witness :
  is_Some
    (phase_one_loop sample_env 7 sample_params (sample_address "tcp")
       {| connect_message := None; l_packet_flags := 0;
          l_host := "h1"; l_port := 1521; l_connect_string := "cs" |}
       (fresh_world [RecvPacket redirect_packet; RecvPacket accept_packet])).
Proof.
  refine (proj1 (phase_one_rounds_bounded sample_env 7 sample_params
                   (sample_address "tcp")
                   {| connect_message := None; l_packet_flags := 0;
                      l_host := "h1"; l_port := 1521;
                      l_connect_string := "cs" |}
                   (fresh_world [RecvPacket redirect_packet;
                                 RecvPacket accept_packet]) _)).
  vm_compute. lia.
Defined.
